(** * bazinga-site: analytics helpers and serverless write handlers

    A shallow embedding of the parts of the site that carry behaviour:

    - [ABTest]: the deterministic experiment bucketing of
      [assets/site.js] ([ABTestManager.hashString],
      [ABTestManager.selectVariantForUser]);
    - [ServerTracker]: the client-side event queue of
      [assets/server-tracking.js] ([addToQueue], [startAutoFlush],
      [flushQueue], [sendAsync]);
    - [Likes]: the like-counter function backed by a REST document store;
    - [PostApi] and [NoteApi]: the post-creation and note-creation
      functions that commit a Markdown file through the GitHub contents API.

    JavaScript numbers are IEEE-754 binary64 values; they are modelled by
    Rocq's primitive floats where the code computes with fractions, by
    [Z] where every value is an integer below 2^53 (exact in binary64),
    and by [Z] with the rounding to binary64 written out where a stored
    count can be larger ([Likes.binary64]).
    JavaScript strings are modelled by [string]; a character stands for the
    UTF-16 code unit of the same number (code units 0..255).  The messages
    the handlers answer with are kept as the literals of the source. *)

From Stdlib Require Import ZArith List String Ascii Bool Lia.
From Stdlib Require Import Floats.PrimFloat.
#[local] Set Warnings "-register-all,-inexact-float".
From stdpp Require Import base option list strings gmap.
Import ListNotations.

Local Open Scope Z_scope.

(** ** JavaScript strings and values *)

Module JS.

Definition charCode (c : ascii) : Z := Z.of_N (N_of_ascii c).

(** [str.charCodeAt(i)] for i = 0 .. length-1. *)
Definition charCodes (s : string) : list Z :=
  map charCode (list_ascii_of_string s).

Definition LF : string := String (ascii_of_nat 10) EmptyString.

(** WhiteSpace and LineTerminator code units below 256: TAB, LF, VT, FF,
    CR, SP and NBSP.  This is the set stripped by [String.prototype.trim]
    and matched by the regular-expression class [\s]. *)
Definition isSpace (c : ascii) : bool :=
  let n := charCode c in
  ((9 <=? n) && (n <=? 13)) || (n =? 32) || (n =? 160).

Fixpoint trimStart (s : string) : string :=
  match s with
  | EmptyString => EmptyString
  | String c rest => if isSpace c then trimStart rest else s
  end.

Definition revString (s : string) : string :=
  string_of_list_ascii (rev (list_ascii_of_string s)).

Definition trimEnd (s : string) : string :=
  revString (trimStart (revString s)).

(** [s.trim()] *)
Definition trim (s : string) : string := trimEnd (trimStart s).

(** [Number.prototype.toString] on an integer: decimal digits. *)
Fixpoint digitsOfPos (fuel : nat) (n : Z) (acc : string) : string :=
  match fuel with
  | O => acc
  | S fuel' =>
      let d := ascii_of_nat (48 + Z.to_nat (n mod 10)) in
      let acc' := String d acc in
      if n / 10 =? 0 then acc' else digitsOfPos fuel' (n / 10) acc'
  end.

Definition decimal (n : Z) : string :=
  if n <? 0
  then String "-" (digitsOfPos (S (Z.to_nat (Z.log2 (- n)))) (- n) EmptyString)
  else digitsOfPos (S (Z.to_nat (Z.log2 n))) n EmptyString.

(** [s.slice(-k)]: the last [k] characters (the whole string when it is
    shorter). *)
Definition sliceLast (k : nat) (s : string) : string :=
  let l := list_ascii_of_string s in
  string_of_list_ascii (skipn (List.length l - k) l).

(** [Date.now().toString().slice(-6)] *)
Definition stamp6 (now : Z) : string := sliceLast 6 (decimal now).

(** The JSON values a parsed request body can hold.  Numbers are the
    integers; an object value is opaque ([VObj]). *)
Inductive value : Type :=
| VUndefined
| VNull
| VBool (b : bool)
| VNum (n : Z)
| VStr (s : string)
| VArr (items : list value)
| VObj.

(** ToBoolean *)
Definition truthy (v : value) : bool :=
  match v with
  | VUndefined | VNull => false
  | VBool b => b
  | VNum n => negb (n =? 0)
  | VStr s => negb (String.eqb s EmptyString)
  | VArr _ | VObj => true
  end.

(** [String(v)] *)
Fixpoint toStr (v : value) : string :=
  match v with
  | VUndefined => "undefined"
  | VNull => "null"
  | VBool true => "true"
  | VBool false => "false"
  | VNum n => decimal n
  | VStr s => s
  | VArr items =>
      (fix join (l : list value) : string :=
         match l with
         | [] => EmptyString
         | x :: rest =>
             let sx := match x with
                       | VUndefined | VNull => EmptyString
                       | _ => toStr x
                       end in
             match rest with
             | [] => sx
             | _ => String.append sx (String.append "," (join rest))
             end
         end) items
  | VObj => "[object Object]"
  end.

(** [v === s] for a string literal [s] *)
Definition isStr (v : value) (s : string) : bool :=
  match v with
  | VStr t => String.eqb t s
  | _ => false
  end.

(** [a || b] *)
Definition orElse (a b : value) : value := if truthy a then a else b.

(** Every character is a decimal digit. *)
Definition isDigit (c : ascii) : bool :=
  let n := charCode c in (48 <=? n) && (n <=? 57).

Definition allDigits (s : string) : bool :=
  forallb isDigit (list_ascii_of_string s).

End JS.

(** ** Deterministic experiment bucketing (assets/site.js) *)

Module ABTest.

(** ToInt32: wrap to the signed 32-bit range. *)
Definition toInt32 (z : Z) : Z :=
  let m := z mod 2 ^ 32 in
  if m <? 2 ^ 31 then m else m - 2 ^ 32.

(** One round of the loop of [hashString]:
    [hash = ((hash << 5) - hash) + char; hash = hash & hash]. *)
Definition hashStep (hash char : Z) : Z :=
  let hash := (toInt32 (Z.shiftl (toInt32 hash) 5) - hash) + char in
  Z.land (toInt32 hash) (toInt32 hash).

(** [hashString(str)] *)
Definition hashString (str : string) : Z :=
  Z.abs (fold_left hashStep (JS.charCodes str) 0).

(** Conversion of an exact small integer to binary64. *)
Fixpoint floatOfPos (p : positive) : float :=
  match p with
  | xH => 1%float
  | xO q => (2 * floatOfPos q)%float
  | xI q => (2 * floatOfPos q + 1)%float
  end.

Definition floatOfZ (z : Z) : float :=
  match z with
  | Z0 => 0%float
  | Zpos p => floatOfPos p
  | Zneg p => (- floatOfPos p)%float
  end.

(** A variant of an experiment: [{ weight: 50, name: '...' }].  The
    weight is a percentage. *)
Record Variant := mkVariant { weight : float; name : string }.

(** [{ key, ...variant }] *)
Record Selected := mkSelected
  { key : string; sel_weight : float; sel_name : string }.

Definition select (k : string) (v : Variant) : Selected :=
  mkSelected k (weight v) (name v).

(** [Object.entries(variants)]: the key and variant pairs in the order
    [Object.entries] lists them. *)
Definition Variants := list (string * Variant).

(** An entry of [userAssignments]. *)
Record Assignment := mkAssignment
  { experimentName : string;
    variant : string;
    variantName : string;
    assignedAt : string;
    exposures : nat;
    goals : list string }.

(** The fields of the manager ([this]). [userId] is [None] when
    [getUserId] answers [null] (local storage unavailable);
    [userAssignments] is the Map from experiment id to assignment. *)
Record ABTestManager := mkManager
  { sessionId : string;
    userId : option string;
    userAssignments : gmap string Assignment;
    exposureTracked : gset string }.

(** [this.userId + 'variant_selection'] *)
Definition selectionSeed (this : ABTestManager) : string :=
  String.append (match userId this with Some u => u | None => "null" end)
                "variant_selection".

(** [(hash % 10000) / 10000] *)
Definition randomValue (this : ABTestManager) : float :=
  let hash := hashString (selectionSeed this) in
  (floatOfZ (hash mod 10000) / 10000)%float.

(** The [for ... of variantEntries] loop; [None] when it runs to the end
    without returning. *)
Fixpoint walk (randomValue cumulativeWeight : float) (entries : Variants)
  : option Selected :=
  match entries with
  | [] => None
  | (key, variant) :: rest =>
      let cumulativeWeight := (cumulativeWeight + weight variant / 100)%float in
      if PrimFloat.leb randomValue cumulativeWeight
      then Some (select key variant)
      else walk randomValue cumulativeWeight rest
  end.

(** [selectVariantForUser(variants)].  [None] stands for the TypeError
    raised by destructuring [variantEntries[0]] of an empty list. *)
Definition selectVariantForUser (this : ABTestManager) (variants : Variants)
  : option Selected :=
  match walk (randomValue this) 0%float variants with
  | Some chosen => Some chosen
  | None =>
      match variants with
      | (firstKey, firstVariant) :: _ => Some (select firstKey firstVariant)
      | [] => None
      end
  end.

(** One addition of the loop: [cumulativeWeight += variant.weight / 100]. *)
Definition accumulate (acc : float) (e : string * Variant) : float :=
  (acc + weight (snd e) / 100)%float.

(** The value of [cumulativeWeight] after the loop has visited the entries
    0..i. *)
Definition cumulativeAt (entries : Variants) (i : nat) : float :=
  fold_left accumulate (firstn (S i) entries) 0%float.

(** The sum of all normalised weights, as the loop accumulates it. *)
Definition totalWeight (entries : Variants) : float :=
  fold_left accumulate entries 0%float.

(** [0 <= x < 1] *)
Definition inUnitInterval (x : float) : bool :=
  PrimFloat.leb 0 x && PrimFloat.ltb x 1.

(** The possible values of [hash % 10000]. *)
Definition residues : list Z := map Z.of_nat (seq 0 (Z.to_nat 10000)).

End ABTest.

(** ** Client-side event queue (assets/server-tracking.js) *)

Module ServerTracker.

Definition batchSize : nat := 10.
Definition flushInterval : Z := 30000.
Definition maxRetries : nat := 3.
Definition retryDelay : Z := 1000.

(** An event object built by [track].  [ev_ref] is the identity of the
    JavaScript object (two events with the same name and data are still
    two objects); [_retryCount] is [None] until [flushQueue] sets it. *)
Record Event := mkEvent
  { ev_ref : nat;
    ev_name : string;
    ev_data : list (string * string);
    _retryCount : option nat }.

(** The fields of the tracker ([this]) that the queue logic reads and
    writes.  [inFlight] holds the [eventsToSend] of every activation of
    [flushQueue] that is suspended at [await this.sendAsync(payload)];
    [allocated] counts the event objects created so far. *)
Record Tracker := mkTracker
  { eventQueue : list Event;
    isOnline : bool;
    inFlight : list (list Event);
    allocated : nat }.

(** What leaves the page: a batch handed to [sendAsync] (a [fetch] is
    issued at once) or to [sendSync] (beacon). *)
Inductive Effect : Type :=
| Send (isSync : bool) (events : list Event).

(** [flushQueue(isSync)] up to the point where the send has been issued:
    the guard, the [splice(0, batchSize)] and the call of [sendSync] or
    [sendAsync].  [sendSync] reports no failure, so a synchronous flush is
    complete here; an asynchronous one stays in flight until its promise
    settles. *)
Definition flushQueue (isSync : bool) (this : Tracker) : Tracker * list Effect :=
  if (Nat.eqb (List.length (eventQueue this)) 0) || negb (isOnline this)
  then (this, [])
  else
    let eventsToSend := firstn batchSize (eventQueue this) in
    ({| eventQueue := skipn batchSize (eventQueue this);
        isOnline := isOnline this;
        inFlight := if isSync then inFlight this
                    else inFlight this ++ [eventsToSend];
        allocated := allocated this |},
     [Send isSync eventsToSend]).

(** [addToQueue(event)] *)
Definition addToQueue (event : Event) (this : Tracker) : Tracker * list Effect :=
  let this' := {| eventQueue := eventQueue this ++ [event];
                  isOnline := isOnline this;
                  inFlight := inFlight this;
                  allocated := allocated this |} in
  if Nat.leb batchSize (List.length (eventQueue this'))
  then flushQueue false this'
  else (this', []).

(** [track(eventName, eventData)]: a fresh event object, then
    [addToQueue]. *)
Definition track (eventName : string) (eventData : list (string * string))
    (this : Tracker) : Tracker * list Effect :=
  let event := mkEvent (allocated this) eventName eventData None in
  addToQueue event
    {| eventQueue := eventQueue this;
       isOnline := isOnline this;
       inFlight := inFlight this;
       allocated := S (allocated this) |}.

(** The callback installed by [startAutoFlush]. *)
Definition timerFires (this : Tracker) : Tracker * list Effect :=
  if Nat.ltb 0 (List.length (eventQueue this))
  then flushQueue false this
  else (this, []).

(** [sendAsync(payload, retryCount)] against a network whose successive
    [fetch] calls succeed ([true]) or fail ([false], also when the list is
    exhausted).  The result is [true] when the promise resolves, [false]
    when it rejects, together with the back-off delays waited. *)
Fixpoint sendAsyncLoop (remaining : nat) (retryCount : nat)
    (network : list bool) : bool * list Z :=
  match network with
  | true :: _ => (true, [])
  | _ =>
      match remaining with
      | O => (false, [])
      | S remaining' =>
          let '(ok, delays) :=
            sendAsyncLoop remaining' (S retryCount) (tl network) in
          (ok, (retryDelay * 2 ^ Z.of_nat retryCount) :: delays)
      end
  end.

Definition sendAsync (network : list bool) (retryCount : nat) : bool * list Z :=
  sendAsyncLoop (maxRetries - retryCount) retryCount network.

Definition retriesOf (event : Event) : nat :=
  match _retryCount event with Some n => n | None => 0 end.

Definition bump (event : Event) : Event :=
  {| ev_ref := ev_ref event;
     ev_name := ev_name event;
     ev_data := ev_data event;
     _retryCount := Some (S (retriesOf event)) |}.

(** The [catch] block of [flushQueue]: [eventsToSend.forEach] with the
    retry test and [this.eventQueue.unshift(event)]. *)
Definition requeue (eventsToSend : list Event) (queue : list Event) : list Event :=
  fold_left
    (fun queue event =>
       if Nat.ltb (retriesOf event) maxRetries
       then bump event :: queue
       else queue)
    eventsToSend queue.

Definition removeNth {A} (k : nat) (l : list A) : list A :=
  firstn k l ++ skipn (S k) l.

(** The promise of the [k]-th suspended [flushQueue] settles, the network
    having answered its [fetch] calls with [network].  The trace records
    the batches handed to a send, not these calls: the ones the retry loop
    of [sendAsync] issues after the first are made whether the tracker is
    online or not, and leave no effect of their own. *)
Definition settle (k : nat) (network : list bool) (this : Tracker) : Tracker :=
  match nth_error (inFlight this) k with
  | None => this
  | Some eventsToSend =>
      let rest := removeNth k (inFlight this) in
      if fst (sendAsync network 0)
      then {| eventQueue := eventQueue this;
              isOnline := isOnline this;
              inFlight := rest;
              allocated := allocated this |}
      else {| eventQueue := requeue eventsToSend (eventQueue this);
              isOnline := isOnline this;
              inFlight := rest;
              allocated := allocated this |}
  end.

Definition setOnline (b : bool) (this : Tracker) : Tracker :=
  {| eventQueue := eventQueue this;
     isOnline := b;
     inFlight := inFlight this;
     allocated := allocated this |}.

(** [clearQueue()] *)
Definition clearQueue (this : Tracker) : Tracker :=
  {| eventQueue := [];
     isOnline := isOnline this;
     inFlight := inFlight this;
     allocated := allocated this |}.

(** What can happen to a tracker: calls of [track], the listeners
    installed by [init] (online, offline, visibility change to hidden,
    beforeunload), the interval timer, calls of [flush] and [clearQueue],
    and the settling of a pending send. *)
Inductive Action : Type :=
| Track (eventName : string) (eventData : list (string * string))
| TimerFires
| Online
| Offline
| PageHidden
| BeforeUnload
| Flush
| ClearQueue
| Settle (k : nat) (network : list bool).

Definition isTrack (a : Action) : Prop :=
  match a with Track _ _ => True | _ => False end.

Definition step (a : Action) (this : Tracker) : Tracker * list Effect :=
  match a with
  | Track eventName eventData => track eventName eventData this
  | TimerFires => timerFires this
  | Online => flushQueue false (setOnline true this)
  | Offline => (setOnline false this, [])
  | PageHidden => flushQueue false this
  | BeforeUnload => flushQueue true this
  | Flush => flushQueue false this
  | ClearQueue => (clearQueue this, [])
  | Settle k network => (settle k network this, [])
  end.

Fixpoint run (actions : list Action) (this : Tracker) : Tracker * list Effect :=
  match actions with
  | [] => (this, [])
  | a :: rest =>
      let '(this1, out1) := step a this in
      let '(this2, out2) := run rest this1 in
      (this2, out1 ++ out2)
  end.

(** The tracker after the constructor (online or not as
    [navigator.onLine] says). *)
Definition initial (online : bool) : Tracker :=
  {| eventQueue := []; isOnline := online; inFlight := []; allocated := 0 |}.

(** How many of the sends in a trace carry the event object [r]. *)
Definition carries (r : nat) (e : Effect) : bool :=
  match e with
  | Send _ events => existsb (fun ev => Nat.eqb (ev_ref ev) r) events
  end.

Definition sendsOf (r : nat) (trace : list Effect) : nat :=
  List.length (List.filter (carries r) trace).

(** Accounting used to bound the sends of one event object: a queued
    event may still be sent [budget - retries] times. *)
Definition owes (budget r : nat) (e : Event) : nat :=
  if Nat.eqb (ev_ref e) r then budget - retriesOf e else 0.

Definition owed (budget r : nat) (l : list Event) : nat :=
  list_sum (map (owes budget r) l).

Definition potential (r : nat) (this : Tracker) (trace : list Effect) : nat :=
  sendsOf r trace
  + owed (S maxRetries) r (eventQueue this)
  + list_sum (map (owed maxRetries r) (inFlight this)).

Definition withinRetries (e : Event) : Prop := (retriesOf e <= maxRetries)%nat.

Definition belowCeiling (e : Event) : bool := Nat.ltb (retriesOf e) maxRetries.

(** The invariant of a run: queued events are within the ceiling, and for
    every event object the sends made plus the sends still owed never
    exceed one send and [maxRetries] resends; objects not yet created have
    none. *)
Definition sound (this : Tracker) (trace : list Effect) : Prop :=
  Forall withinRetries (eventQueue this)
  /\ forall r, (potential r this trace <= S maxRetries)%nat
               /\ (allocated this <= r -> potential r this trace = 0)%nat.

End ServerTracker.

(** ** Requests, environment and responses of the serverless functions *)

Module Http.

(** The parts of [req] the functions read: the method, the
    [x-access-key] header, the parsed body ([None] when the platform
    leaves [req.body] undefined or null) and the [id] query parameter of
    a query that names it at most once ([None] when it does not).  A
    query that repeats [id], for which the platform hands over an array of
    the values, is outside these requests. *)
Record Request := mkRequest
  { method : string;
    accessKeyHeader : option string;
    body : option (gmap string JS.value);
    queryId : option string }.

(** [process.env] *)
Record Env := mkEnv
  { GITHUB_TOKEN : option string;
    GITHUB_REPO : option string;
    WRITE_ACCESS_KEY : option string;
    NODE_ENV : option string;
    SUPABASE_URL : option string;
    SUPABASE_ANON_KEY : option string }.

(** [!x] is false: the variable (or header) is set and not empty. *)
Definition present (x : option string) : bool :=
  match x with
  | Some s => negb (String.eqb s EmptyString)
  | None => false
  end.

(** The JSON document passed to [res.json]; [Ended] is [res.end()].  A
    field that is [undefined] ([None]) is left out by JSON.stringify. *)
Inductive Document : Type :=
| Ended
| ErrorJson (error : string) (details : option string)
| PostCreated (url filename : string) (commit : option string)
| NoteCreated (message url filename : string) (commit : option string)
| LikeIncremented (id : string) (count : Z)
| LikeCount (id : string) (count : Z).

Record Response := mkResponse { status : Z; document : Document }.

(** What an invocation ends with: a response written by the handler, or an
    exception that escapes it. *)
Inductive Outcome : Type :=
| Responded (r : Response)
| Uncaught (error : string).

(** Field [k] of the destructured body. *)
Definition field (b : gmap string JS.value) (k : string) : JS.value :=
  match b !! k with
  | Some v => v
  | None => JS.VUndefined
  end.

(** [process.env.NODE_ENV === 'development' ? error.message : undefined] *)
Definition diagnostic (env : Env) (message : string) : option string :=
  match NODE_ENV env with
  | Some mode => if String.eqb mode "development" then Some message else None
  | None => None
  end.

(** The deployment has the three GitHub variables. *)
Definition configured (env : Env) : bool :=
  present (GITHUB_TOKEN env) && present (GITHUB_REPO env)
  && present (WRITE_ACCESS_KEY env).


(** A required field is missing ([undefined]) or blank (a string of white
    space only). *)
Definition missingOrBlank (v : JS.value) : Prop :=
  v = JS.VUndefined \/ exists s, v = JS.VStr s /\ JS.trim s = EmptyString.

Definition statusOf (out : Outcome) : option Z :=
  match out with
  | Responded r => Some (status r)
  | Uncaught _ => None
  end.

End Http.

(** ** Like counter (serverless function over a REST document store) *)

Module Likes.
Import Http.

(** A row of the [likes] table.  The store holds integer counts. *)
Record Row := mkRow { page_id : string; count : Z }.

(** The number the function computes with when it reads or adds up to the
    integer [z]: the nearest binary64 value, ties to even.  Integers of
    magnitude up to 2^53 are kept as they are; a larger one keeps its 53
    leading bits (2^53 + 1 becomes 2^53).  Magnitudes of 2^1024 and more,
    which JavaScript turns into Infinity, are not modelled. *)
Definition binary64 (z : Z) : Z :=
  let a := Z.abs z in
  if a <? 2 ^ 53 then z
  else
    let e := Z.log2 a - 52 in
    let q := a / 2 ^ e in
    let r := a mod 2 ^ e in
    let half := 2 ^ (e - 1) in
    let q' := if (half <? r) || ((r =? half) && Z.odd q) then q + 1 else q in
    Z.sgn z * (q' * 2 ^ e).

(** How the store answers a request.  [Refused]: no ok response comes
    back and the request is not carried out.  [Unparsed]: the request is
    carried out but its response, though ok, has a body that
    [response.json()] rejects (an empty body, as a REST store may answer a
    write).  [Answered]: the request is carried out and answered with a
    JSON body, the matching rows for a select. *)
Inductive Reply : Type :=
| Refused
| Unparsed
| Answered.

(** The store behind the REST interface: the rows of the table, and how
    it answers the coming requests, one entry each; a request with no
    entry is [Answered]. *)
Record Store := mkStore { rows : list Row; replies : list Reply }.

Inductive Query : Type :=
| SelectEq (pageId : string)
| PatchEq (pageId : string) (newCount : Z)
| Insert (row : Row).

Definition matches (pageId : string) (r : Row) : bool :=
  String.eqb (page_id r) pageId.

Definition apply (q : Query) (table : list Row) : list Row * list Row :=
  match q with
  | SelectEq pageId => (List.filter (matches pageId) table, table)
  | PatchEq pageId newCount =>
      ([], map (fun r => if matches pageId r
                         then mkRow (page_id r) newCount else r) table)
  | Insert row => ([], table ++ [row])
  end.

(** [supabaseRequest(url, options)]: [None] when it throws, at
    [if (!response.ok)] or at [response.json()]. *)
Definition supabaseRequest (q : Query) (s : Store) : option (list Row) * Store :=
  let reply := hd Answered (replies s) in
  let later := tl (replies s) in
  match reply with
  | Refused => (None, mkStore (rows s) later)
  | Unparsed =>
      let '(_, table) := apply q (rows s) in (None, mkStore table later)
  | Answered =>
      let '(data, table) := apply q (rows s) in (Some data, mkStore table later)
  end.

(** [getLikeCount(pageId)] *)
Definition getLikeCount (pageId : string) (s : Store) : Z * Store :=
  match supabaseRequest (SelectEq pageId) s with
  | (Some (first :: _), s') => (binary64 (count first), s')
  | (Some [], s') => (0, s')
  | (None, s') => (0, s')
  end.

(** [incrementLike(pageId)]: [None] when the error is rethrown. *)
Definition incrementLike (pageId : string) (s : Store) : option Z * Store :=
  match supabaseRequest (SelectEq pageId) s with
  | (None, s1) => (None, s1)
  | (Some (first :: _), s1) =>
      let newCount := binary64 (binary64 (count first) + 1) in
      match supabaseRequest (PatchEq pageId newCount) s1 with
      | (None, s2) => (None, s2)
      | (Some _, s2) => (Some newCount, s2)
      end
  | (Some [], s1) =>
      match supabaseRequest (Insert (mkRow pageId 1)) s1 with
      | (None, s2) => (None, s2)
      | (Some _, s2) => (Some 1, s2)
      end
  end.

(** [id.startsWith('/') ? id.substring(1) : id] *)
Definition cleanId (id : string) : string :=
  match id with
  | String "/" rest => rest
  | _ => id
  end.

(** [handler(req, res)] of the like counter; the CORS headers set first
    are left out.  The handler reads the method and the [id] query
    parameter only. *)
Definition handler (env : Env) (req : Request) (s : Store) : Outcome * Store :=
  if String.eqb (method req) "OPTIONS" then
    (Responded (mkResponse 200 Ended), s)
  else if negb (present (SUPABASE_URL env)) || negb (present (SUPABASE_ANON_KEY env)) then
    (Responded (mkResponse 500 (ErrorJson "Supabase configuration missing" None)), s)
  else if negb (present (queryId req)) then
    (Responded (mkResponse 400 (ErrorJson "Missing id parameter" None)), s)
  else
    let id := match queryId req with Some i => i | None => EmptyString end in
    let cleanId := cleanId id in
    if String.eqb (method req) "POST" then
      match incrementLike cleanId s with
      | (Some newCount, s') =>
          (Responded (mkResponse 200 (LikeIncremented cleanId newCount)), s')
      | (None, s') =>
          (Responded (mkResponse 500 (ErrorJson "Internal server error" None)), s')
      end
    else if String.eqb (method req) "GET" then
      let '(count, s') := getLikeCount cleanId s in
      (Responded (mkResponse 200 (LikeCount cleanId count)), s')
    else
      (Responded (mkResponse 405 (ErrorJson "Method not allowed" None)), s).

(** The count a reader of the table sees for [pageId]. *)
Definition stored (pageId : string) (s : Store) : option Z :=
  match List.filter (matches pageId) (rows s) with
  | first :: _ => Some (count first)
  | [] => None
  end.

End Likes.

(** ** The GitHub contents API as the functions call it *)

Module GitHub.

Record Identity := mkIdentity { id_name : string; id_email : string }.

(** The JSON body of the PUT request.  [sha] is [None] when the payload
    has no such property. *)
Record Payload := mkPayload
  { message : string;
    content : string;
    branch : string;
    author : Identity;
    committer : Identity;
    sha : option string }.

(** The two requests: the existence check (GET) and the write (PUT) on
    [/repos/<repo>/contents/<path>], with the token of the
    Authorization header and the User-Agent.  [repo] and [path] are the
    strings the function puts, unencoded, into the URL it hands to
    [fetch]; which resource that URL names once it is parsed (a [?], a
    [#], a backslash or a percent-encoded dot in [path] changes it) is not
    part of a call. *)
Inductive Call : Type :=
| GetContents (repo path token agent : string)
| PutContents (repo path token agent : string) (payload : Payload).

(** The properties of a response document the functions look at. *)
Record Json := mkJson
  { j_message : option string;
    j_sha : option string;
    j_content_path : option string;
    j_commit_sha : option string }.

(** What [await fetch(...)] gives: a rejection, or a response with its
    status whose body either parses to a document or makes
    [response.json()] reject with the given message. *)
Inductive FetchResult : Type :=
| NetworkError (message : string)
| Answer (status : Z) (json : Json + string).

(** [response.ok] *)
Definition ok (status : Z) : bool := (200 <=? status) && (status <=? 299).

(** An [Error] object: [error.status] and [error.message]. *)
Record JsError := mkError { err_status : option Z; err_message : string }.

(** The end of [commitToGitHub], from [if (!response.ok)] on: the error
    thrown for a response that is not ok (its status, and the message of
    the body or the default one), else the parsed document; a rejected
    [fetch] or [response.json()] is an error without status. *)
Definition settled (response : FetchResult) : Json + JsError :=
  match response with
  | NetworkError msg => inr (mkError None msg)
  | Answer status json =>
      if ok status then
        match json with
        | inl doc => inl doc
        | inr msg => inr (mkError None msg)
        end
      else
        let errorMessage :=
          match json with
          | inl doc => j_message doc
          | inr _ => None
          end in
        inr (mkError (Some status)
               (match errorMessage with
                | Some m => if String.eqb m EmptyString
                            then "GitHub API 请求失败" else m
                | None => "GitHub API 请求失败"
                end))
  end.

(** [error.status === code] *)
Definition hasStatus (error : JsError) (code : Z) : bool :=
  match err_status error with
  | Some st => st =? code
  | None => false
  end.

Definition bazinga : Identity := mkIdentity "Bazinga" "zjb15239430906@gmail.com".

(** One request and the answer it got. *)
Definition Exchange : Type := Call * FetchResult.

End GitHub.

(** ** String helpers shared by the content functions *)

Module Text.

Infix "+++" := String.append (at level 60, right associativity).

Definition DQ : string := String (ascii_of_nat 34) EmptyString.
Definition BSLASH : string := String (ascii_of_nat 92) EmptyString.

Fixpoint joinWith (sep : string) (parts : list string) : string :=
  match parts with
  | [] => EmptyString
  | [p] => p
  | p :: rest => p +++ sep +++ joinWith sep rest
  end.

(** [s.split(c)] for a one-character separator. *)
Fixpoint splitOn (c : ascii) (s : string) : list string :=
  match s with
  | EmptyString => [EmptyString]
  | String d rest =>
      if Ascii.eqb d c then EmptyString :: splitOn c rest
      else match splitOn c rest with
           | first :: more => String d first :: more
           | [] => [String d EmptyString]
           end
  end.

(** [s.includes(needle)] *)
Fixpoint includes (needle s : string) : bool :=
  String.prefix needle s ||
  match s with
  | EmptyString => false
  | String _ rest => includes needle rest
  end.

(** [s.endsWith(suffix)] *)
Definition endsWith (suffix s : string) : bool :=
  String.prefix (JS.revString suffix) (JS.revString s).

(** [s.lastIndexOf(c)]; [None] is -1. *)
Fixpoint lastIndexOf (c : ascii) (s : string) : option nat :=
  match s with
  | EmptyString => None
  | String d rest =>
      match lastIndexOf c rest with
      | Some i => Some (S i)
      | None => if Ascii.eqb d c then Some O else None
      end
  end.

(** [s.slice(0, i)] and [s.slice(i)] *)
Definition sliceTo (i : nat) (s : string) : string :=
  string_of_list_ascii (firstn i (list_ascii_of_string s)).
Definition sliceFrom (i : nat) (s : string) : string :=
  string_of_list_ascii (skipn i (list_ascii_of_string s)).

(** [s.split('/').pop()] *)
Definition lastSegment (s : string) : string :=
  List.last (splitOn "/" s) EmptyString.

(** [value.replace(/"/g, '\\"')] *)
Fixpoint escapeYAML (value : string) : string :=
  match value with
  | EmptyString => EmptyString
  | String c rest =>
      if Ascii.eqb c (ascii_of_nat 34)
      then BSLASH +++ DQ +++ escapeYAML rest
      else String c (escapeYAML rest)
  end.

(** [toLowerCase] on code units below 256: A-Z and the accented capitals
    U+00C0..U+00DE (U+00D7 is the multiplication sign). *)
Definition lower (c : ascii) : ascii :=
  let n := JS.charCode c in
  if ((65 <=? n) && (n <=? 90))
     || ((192 <=? n) && (n <=? 222) && negb (n =? 215))
  then ascii_of_nat (Z.to_nat (n + 32)) else c.

Definition isLowerAlnum (c : ascii) : bool :=
  let n := JS.charCode c in
  ((97 <=? n) && (n <=? 122)) || ((48 <=? n) && (n <=? 57)).

Definition isAlnum (c : ascii) : bool :=
  let n := JS.charCode c in
  isLowerAlnum c || ((65 <=? n) && (n <=? 90)).

Definition isDash (c : ascii) : bool := Ascii.eqb c "-".

(** [.replace(/X+/g, '-')]: every maximal run of characters satisfying
    [inRun] becomes one dash.  [inside] tells that the previous character
    belonged to a run. *)
Fixpoint runsToDash (inRun : ascii -> bool) (inside : bool) (l : list ascii)
  : list ascii :=
  match l with
  | [] => []
  | c :: rest =>
      if inRun c
      then if inside then runsToDash inRun true rest
           else "-"%char :: runsToDash inRun true rest
      else c :: runsToDash inRun false rest
  end.

(** [.replace(/^-|-$/g, '')] on a string without two dashes in a row. *)
Definition stripEdgeDashes (l : list ascii) : list ascii :=
  let l1 := match l with
            | c :: rest => if isDash c then rest else l
            | [] => []
            end in
  match rev l1 with
  | c :: rest => if isDash c then rev rest else l1
  | [] => []
  end.

End Text.

(** ** Post creation (serverless function) *)

Module PostApi.
Import Http GitHub Text.

(** The result of [buildPublishInfo]. *)
Record PublishInfo := mkPublishInfo
  { frontMatter : string; filenameBase : string; iso : string }.

(** Library functions the handler relies on and the embedding leaves
    open: [Buffer.from(s, 'utf8').toString('base64')], and the calendar
    arithmetic of [buildPublishInfo] (the [Date] object), given the
    [date] field of the body and the current time. *)
Record Runtime := mkRuntime
  { base64 : string -> string;
    buildPublishInfo : JS.value -> Z -> PublishInfo }.

(** [post-${Date.now().toString().slice(-6)}] *)
Definition fallbackSlug (now : Z) : string := "post-" +++ JS.stamp6 now.

(** The characters kept by [.replace(/[^\u4e00-\u9fa5a-z0-9\s-]/g, '')]:
    among the code units 0..255 these are a-z, 0-9, white space and the
    dash. *)
Definition inSlugClass (c : ascii) : bool :=
  isLowerAlnum c || JS.isSpace c || isDash c.

(** [generateSlug(source)] *)
Definition generateSlug (source : JS.value) (now : Z) : string :=
  if negb (JS.truthy source) then fallbackSlug now
  else
    let s := list_ascii_of_string (JS.trim (JS.toStr source)) in
    let s := map lower s in
    let s := List.filter inSlugClass s in
    let s := runsToDash JS.isSpace false s in
    let s := runsToDash isDash false s in
    let clean := string_of_list_ascii (stripEdgeDashes s) in
    if String.eqb clean EmptyString then fallbackSlug now else clean.

(** [isValidFilename(value)] *)
Definition isValidFilename (value : JS.value) : bool :=
  match value with
  | JS.VStr s =>
      endsWith ".md" s
      && negb (includes "/" s || includes ".." s)
      && includes "-post-" s
  | _ => false
  end.

(** [createMarkdown({ title, body, slug, lang, feature, image, imageText, date })] *)
Definition createMarkdown (title body slug lang : string) (feature : bool)
    (image imageText : JS.value) (date : string) (now : Z) : string :=
  let lines :=
    [ "---";
      "title: " +++ DQ +++ escapeYAML title +++ DQ;
      "layout: default";
      "open_heart: true";
      "date: " +++ date ]
    ++ (if feature then ["feature: 1"] else [])
    ++ (if negb (String.eqb lang EmptyString) && negb (String.eqb lang "zh-CN")
        then ["lang: " +++ lang] else [])
    ++ (if JS.truthy image
           && negb (String.eqb (JS.trim (JS.toStr image)) EmptyString)
        then ["image: " +++ JS.trim (JS.toStr image)] else [])
    ++ (if JS.truthy imageText
           && negb (String.eqb (JS.trim (JS.toStr imageText)) EmptyString)
        then ["image_text: " +++ DQ
                +++ escapeYAML (JS.trim (JS.toStr imageText)) +++ DQ]
        else [])
    ++ (if negb (String.eqb slug EmptyString)
           && negb (String.eqb slug (generateSlug (JS.VStr title) now))
        then ["slug: " +++ DQ +++ escapeYAML slug +++ DQ] else [])
    ++ ["---"; EmptyString; JS.trim body; EmptyString] in
  joinWith JS.LF lines.

(** The renaming of [commitToGitHub] when the check finds the path taken:
    the time stamp goes before the last dot, or at the end when there is
    no dot. *)
Definition renamed (targetPath : string) (now : Z) : string :=
  let timestamp := JS.stamp6 now in
  match lastIndexOf "." targetPath with
  | Some dotIndex =>
      sliceTo dotIndex targetPath +++ "-" +++ timestamp
        +++ sliceFrom dotIndex targetPath
  | None => targetPath +++ "-" +++ timestamp
  end.

Definition agent : string := "site-post-writer".

Section WithWorld.
(** The world outside the function: [fetch] answers a call and moves
    the world on; [Date_now] reads its clock. *)
Context {World : Type}.
Variable fetch : Call -> World -> FetchResult * World.
Variable Date_now : World -> Z.
Variable rt : Runtime.

(** [commitToGitHub({ token, repo, filepath, content, message })]: the
    document of the response or the error thrown, the world afterwards
    and the exchanges made. *)
Definition commitToGitHub (token repo filepath content message : string)
    (w : World) : (Json + JsError) * World * list Exchange :=
  let check := GetContents repo filepath token agent in
  let '(checkResponse, w1) := fetch check w in
  let targetPath :=
    match checkResponse with
    | Answer status _ =>
        if ok status then renamed filepath (Date_now w1) else filepath
    | NetworkError _ => filepath
    end in
  let payload :=
    {| GitHub.message := message;
       content := base64 rt content;
       branch := "main";
       author := bazinga;
       committer := bazinga;
       sha := None |} in
  let put := PutContents repo targetPath token agent payload in
  let '(response, w2) := fetch put w1 in
  (settled response, w2, [(check, checkResponse); (put, response)]).

(** The [catch] block of the handler. *)
Definition onError (env : Env) (error : JsError) : Response :=
  if hasStatus error 422 then
    mkResponse 400 (ErrorJson "文件已存在或路径无效" None)
  else if hasStatus error 403 then
    mkResponse 403 (ErrorJson "GitHub 权限不足，请检查 token 权限" None)
  else
    mkResponse 500
      (ErrorJson "服务器错误，请稍后重试"
         (diagnostic env (err_message error))).

(** [handler(req, res)] of the post function: the outcome, the world
    afterwards and the exchanges with GitHub.  The CORS headers set first
    are left out. *)
Definition handler (env : Env) (req : Request) (w : World)
  : Outcome * World * list Exchange :=
  if String.eqb (method req) "OPTIONS" then
    (Responded (mkResponse 200 Ended), w, [])
  else if negb (String.eqb (method req) "POST") then
    (Responded (mkResponse 405 (ErrorJson "仅支持 POST 请求" None)), w, [])
  else if negb (present (GITHUB_TOKEN env))
          || negb (present (GITHUB_REPO env))
          || negb (present (WRITE_ACCESS_KEY env)) then
    (Responded (mkResponse 500 (ErrorJson "服务器配置错误" None)), w, [])
  else
    let accessKey := accessKeyHeader req in
    if negb (present accessKey)
       || negb (bool_decide (accessKey = WRITE_ACCESS_KEY env)) then
      (Responded (mkResponse 401 (ErrorJson "无效的访问密钥" None)), w, [])
    else
      let fields := default ∅ (body req) in
      let title := field fields "title" in
      let body := field fields "body" in
      let providedSlug := field fields "slug" in
      let lang := match field fields "lang" with
                  | JS.VUndefined => JS.VStr "zh-CN"
                  | v => v
                  end in
      let feature := field fields "feature" in
      let image := field fields "image" in
      let imageText := field fields "image_text" in
      let date := field fields "date" in
      let providedFilename := field fields "filename" in
      if negb (JS.truthy title)
         || String.eqb (JS.trim (JS.toStr title)) EmptyString then
        (Responded (mkResponse 400 (ErrorJson "标题不能为空" None)), w, [])
      else if negb (JS.truthy body)
              || String.eqb (JS.trim (JS.toStr body)) EmptyString then
        (Responded (mkResponse 400 (ErrorJson "正文不能为空" None)), w, [])
      else
        let now := Date_now w in
        let cleanedSlug := generateSlug (JS.orElse providedSlug title) now in
        let normalizedLang :=
          match lang with
          | JS.VStr l =>
              if String.eqb (JS.trim l) EmptyString then "zh-CN" else JS.trim l
          | _ => "zh-CN"
          end in
        let shouldFeature :=
          match feature with
          | JS.VNum 1 => true
          | JS.VStr "1" => true
          | JS.VBool true => true
          | _ => false
          end in
        let publishInfo := buildPublishInfo rt date now in
        let markdown :=
          createMarkdown (JS.trim (JS.toStr title)) (JS.trim (JS.toStr body))
            cleanedSlug normalizedLang shouldFeature image imageText
            (frontMatter publishInfo) now in
        let fallbackFilename :=
          filenameBase publishInfo +++ "-" +++ cleanedSlug +++ ".md" in
        let filename :=
          if isValidFilename providedFilename
          then JS.toStr providedFilename else fallbackFilename in
        let filepath := "_posts/" +++ filename in
        let '(result, w', exchanges) :=
          commitToGitHub (default EmptyString (GITHUB_TOKEN env))
            (default EmptyString (GITHUB_REPO env))
            filepath markdown ("feat: add post: " +++ cleanedSlug) w in
        match result with
        | inl commitResult =>
            let responseFilename :=
              if present (j_content_path commitResult)
              then lastSegment (default EmptyString (j_content_path commitResult))
              else filename in
            let postUrl := "/posts/" +++ cleanedSlug +++ "/" in
            (Responded
               (mkResponse 200
                  (PostCreated postUrl responseFilename
                     (if present (j_commit_sha commitResult)
                      then j_commit_sha commitResult
                      else j_sha commitResult))),
             w', exchanges)
        | inr error => (Responded (onError env error), w', exchanges)
        end.

End WithWorld.

End PostApi.

(** ** Note creation (serverless function) *)

Module NoteApi.
Import Http GitHub Text.

(** The strings the handler derives from [new Date()]: the Shanghai date
    [YYYY-MM-DD], the front-matter time [YYYY/MM/DD HH:mm], the two-digit
    hours and minutes, and the year, month and day used in the URL. *)
Record Clock := mkClock
  { dateStr : string;
    timeStr : string;
    hours : string;
    minutes : string;
    urlYear : string;
    urlMonth : string;
    urlDay : string }.

(** Library functions the handler relies on and the embedding leaves
    open: the base64 encoding and the calendar arithmetic of [Date]. *)
Record Runtime := mkRuntime
  { base64 : string -> string;
    clockOf : Z -> Clock }.

(** [createMarkdownContent({ title, date, tags, lang, content })] *)
Definition createMarkdownContent (title date : string) (tags : list string)
    (lang : JS.value) (content : string) : string :=
  let frontMatter :=
    [ "---";
      "title: " +++ title;
      "layout: default";
      "open_heart: true";
      "date: " +++ date;
      "tags: [" +++ joinWith ", " (map (fun tag => DQ +++ tag +++ DQ) tags) +++ "]" ]
    ++ (if JS.truthy lang
           && negb (JS.isStr lang "zh-CN")
        then ["lang: " +++ JS.toStr lang] else [])
    ++ ["---"; EmptyString; content] in
  joinWith JS.LF frontMatter.

(** [parts = filepath.split('.'); parts[0] += `-${timestamp}`;
    filepath = parts.join('.')] *)
Definition renamed (filepath : string) (now : Z) : string :=
  match splitOn "." filepath with
  | first :: more => joinWith "." ((first +++ "-" +++ JS.stamp6 now) :: more)
  | [] => filepath
  end.

Definition agent : string := "site-note-writer".

(** [tags.map(tag => tag.trim())]: [None] when an element has no [trim]
    method (TypeError). *)
Fixpoint trimAll (tags : list JS.value) : option (list string) :=
  match tags with
  | [] => Some []
  | JS.VStr tag :: rest =>
      match trimAll rest with
      | Some l => Some (JS.trim tag :: l)
      | None => None
      end
  | _ :: _ => None
  end.

Section WithWorld.
Context {World : Type}.
Variable fetch : Call -> World -> FetchResult * World.
Variable Date_now : World -> Z.
Variable rt : Runtime.

(** [commitToGitHub({ token, repo, filepath, content, message })] *)
Definition commitToGitHub (token repo filepath content message : string)
    (w : World) : (Json + JsError) * World * list Exchange :=
  let check := GetContents repo filepath token agent in
  let '(checkResponse, w1) := fetch check w in
  let existingFile :=
    match checkResponse with
    | Answer status (inl doc) => if ok status then Some doc else None
    | _ => None
    end in
  let filepath :=
    match existingFile with
    | Some _ => renamed filepath (Date_now w1)
    | None => filepath
    end in
  let payload :=
    {| GitHub.message := message;
       content := base64 rt content;
       branch := "main";
       author := bazinga;
       committer := bazinga;
       sha := match existingFile with
              | Some doc => j_sha doc
              | None => None
              end |} in
  let put := PutContents repo filepath token agent payload in
  let '(response, w2) := fetch put w1 in
  (settled response, w2, [(check, checkResponse); (put, response)]).

(** The [catch] block of the handler. *)
Definition onError (env : Env) (error : JsError) : Response :=
  if hasStatus error 422 then
    mkResponse 400 (ErrorJson "文件已存在或路径无效" None)
  else if hasStatus error 403 then
    mkResponse 403 (ErrorJson "GitHub 权限不足，请检查 token 权限" None)
  else
    mkResponse 500
      (ErrorJson "服务器错误，请稍后重试"
         (diagnostic env (err_message error))).

(** [!v || !v.trim()] for a required text field: [Some true] when the
    field is rejected, [Some false] when it passes, [None] when
    [v.trim] is not a function (TypeError). *)
Definition blankText (v : JS.value) : option bool :=
  if negb (JS.truthy v) then Some true
  else match v with
       | JS.VStr s => Some (String.eqb (JS.trim s) EmptyString)
       | _ => None
       end.

Definition typeError : Outcome := Uncaught "TypeError".

(** [handler(req, res)] of the note function.  The destructuring of
    [req.body] and the validation run before the [try] block: a TypeError
    raised there escapes the handler. *)
Definition handler (env : Env) (req : Request) (w : World)
  : Outcome * World * list Exchange :=
  if String.eqb (method req) "OPTIONS" then
    (Responded (mkResponse 200 Ended), w, [])
  else if negb (String.eqb (method req) "POST") then
    (Responded (mkResponse 405 (ErrorJson "仅支持 POST 请求" None)), w, [])
  else if negb (present (GITHUB_TOKEN env))
          || negb (present (GITHUB_REPO env))
          || negb (present (WRITE_ACCESS_KEY env)) then
    (Responded (mkResponse 500 (ErrorJson "服务器配置错误" None)), w, [])
  else
    let accessKey := accessKeyHeader req in
    if negb (present accessKey)
       || negb (bool_decide (accessKey = WRITE_ACCESS_KEY env)) then
      (Responded (mkResponse 401 (ErrorJson "无效的访问密钥" None)), w, [])
    else
      match body req with
      | None => (typeError, w, [])
      | Some fields =>
          let title := field fields "title" in
          let content := field fields "content" in
          let tags := field fields "tags" in
          let lang := match field fields "lang" with
                      | JS.VUndefined => JS.VStr "zh-CN"
                      | v => v
                      end in
          match blankText title with
          | None => (typeError, w, [])
          | Some true =>
              (Responded (mkResponse 400 (ErrorJson "标题不能为空" None)), w, [])
          | Some false =>
              match blankText content with
              | None => (typeError, w, [])
              | Some true =>
                  (Responded (mkResponse 400 (ErrorJson "笔记内容不能为空" None)), w, [])
              | Some false =>
                  match tags with
                  | JS.VArr (first :: others) =>
                      match trimAll (first :: others) with
                      | None => (typeError, w, [])
                      | Some trimmed =>
                          let cleanedTags :=
                            firstn 10
                              (List.filter
                                 (fun tag => negb (String.eqb tag EmptyString))
                                 trimmed) in
                          match cleanedTags with
                          | [] =>
                              (Responded
                                 (mkResponse 400 (ErrorJson "请提供有效的标签" None)),
                               w, [])
                          | _ :: _ =>
                              let clock := clockOf rt (Date_now w) in
                              let timeSlug := hours clock +++ minutes clock in
                              let titleSlug :=
                                joinWith EmptyString (splitOn "-" (dateStr clock))
                                  +++ hours clock +++ minutes clock in
                              let filenameBase :=
                                "note-" +++ dateStr clock +++ "-" +++ timeSlug in
                              let filename := filenameBase +++ ".md" in
                              let filepath := "_notes/" +++ filename in
                              let markdownContent :=
                                createMarkdownContent titleSlug (timeStr clock)
                                  cleanedTags lang (JS.trim (JS.toStr content)) in
                              let '(result, w', exchanges) :=
                                commitToGitHub
                                  (default EmptyString (GITHUB_TOKEN env))
                                  (default EmptyString (GITHUB_REPO env))
                                  filepath markdownContent
                                  ("feat: add note " +++ filenameBase) w in
                              match result with
                              | inl commitResult =>
                                  let noteUrl :=
                                    "/notes/" +++ urlYear clock +++ "/"
                                      +++ urlMonth clock +++ "/"
                                      +++ urlDay clock +++ "/" +++ timeSlug +++ "/" in
                                  (Responded
                                     (mkResponse 200
                                        (NoteCreated "笔记发布成功" noteUrl filename
                                           (j_sha commitResult))),
                                   w', exchanges)
                              | inr error =>
                                  (Responded (onError env error), w', exchanges)
                              end
                          end
                      end
                  | _ =>
                      (Responded
                         (mkResponse 400 (ErrorJson "请至少选择一个标签" None)), w, [])
                  end
              end
          end
      end.

End WithWorld.

End NoteApi.

(** ** What the claims about upstream failures say *)

Module Upstream.
Import Http GitHub.

(** The answer [out] of a handler maps the reply [response] of GitHub to
    the write: 422 becomes 400, 403 stays 403 with a generic message, and
    any other error thrown becomes 500 whose [details] carries the message
    of the error exactly in development. *)
Definition mapped (env : Env) (response : FetchResult) (out : Outcome) : Prop :=
  (forall json, response = Answer 422 json ->
     out = Responded (mkResponse 400 (ErrorJson "文件已存在或路径无效" None)))
  /\ (forall json, response = Answer 403 json ->
       out = Responded
               (mkResponse 403 (ErrorJson "GitHub 权限不足，请检查 token 权限" None)))
  /\ (forall error,
       settled response = inr error ->
       err_status error <> Some 422 ->
       err_status error <> Some 403 ->
       out = Responded
               (mkResponse 500
                  (ErrorJson "服务器错误，请稍后重试"
                     (if bool_decide (NODE_ENV env = Some "development")
                      then Some (err_message error) else None)))).

End Upstream.

(** ** A repository behind the contents API

    The contents API as the site relies on it (spec, External interfaces):
    files are written by committing content to a path; writing to a path
    that already holds a file is an update and is conditional on the SHA
    of the existing file. *)

Module Repository.
Import GitHub.

Record File := mkFile { f_content : string; f_sha : string }.

(** The files of the branch by path, and the clock read by
    [Date.now()]. *)
Record State := mkState { files : gmap string File; clock : Z }.

Section WithSha.
(** The object name the repository gives to a content. *)
Variable shaOf : string -> string.

Definition found (f : File) : Json :=
  {| j_message := None; j_sha := Some (f_sha f);
     j_content_path := None; j_commit_sha := None |}.

Definition written (path : string) (f : File) : Json :=
  {| j_message := None; j_sha := None;
     j_content_path := Some path; j_commit_sha := Some (f_sha f) |}.

Definition refused (why : string) : Json :=
  {| j_message := Some why; j_sha := None;
     j_content_path := None; j_commit_sha := None |}.

Definition fetch (c : Call) (s : State) : FetchResult * State :=
  match c with
  | GetContents _ path _ _ =>
      match files s !! path with
      | Some f => (Answer 200 (inl (found f)), s)
      | None => (Answer 404 (inl (refused "Not Found")), s)
      end
  | PutContents _ path _ _ payload =>
      let f := mkFile (content payload) (shaOf (content payload)) in
      match files s !! path with
      | None =>
          (Answer 201 (inl (written path f)),
           mkState (<[path := f]> (files s)) (clock s))
      | Some old =>
          match sha payload with
          | Some given =>
              if String.eqb given (f_sha old)
              then (Answer 200 (inl (written path f)),
                    mkState (<[path := f]> (files s)) (clock s))
              else (Answer 409 (inl (refused "sha does not match")), s)
          | None => (Answer 422 (inl (refused "sha was not supplied")), s)
          end
      end
  end.

End WithSha.

End Repository.

(** ** Concrete inputs used by the examples below *)

Module Samples.
Import ABTest.

(** A visitor whose stored id is [user_1]. *)
Definition visitor : ABTestManager :=
  {| sessionId := "ab_1"; userId := Some "user_1";
     userAssignments := ∅; exposureTracked := ∅ |}.

(** The same visitor in a later page view: another session, an assignment
    already recorded. *)
Definition visitorLater : ABTestManager :=
  {| sessionId := "ab_2"; userId := Some "user_1";
     userAssignments :=
       {[ "reading_experience" :=
            mkAssignment "Reading Experience Enhancement" "control"
              "Standard Reading" "2024-05-01T02:30:00.000Z" 3 [] ]};
     exposureTracked := {[ "reading_experience" ]} |}.

(** A configuration whose weights add up to 20 percent. *)
Definition underweight : Variants :=
  [ ("control", mkVariant 10 "Original");
    ("compact", mkVariant 10 "Compact") ].

(** The [write_form_layout] experiment of the site. *)
Definition writeFormLayout : Variants :=
  [ ("control", mkVariant 50 "Original Layout");
    ("compact", mkVariant 25 "Compact Layout");
    ("wizard", mkVariant 25 "Wizard Layout") ].

(** Nine page views tracked while the browser is offline. *)
Definition nineOffline : list ServerTracker.Action :=
  ServerTracker.Offline
    :: repeat (ServerTracker.Track "page_view" []) 9.

(** A deployment with every variable set. *)
Definition production : Http.Env :=
  {| Http.GITHUB_TOKEN := Some "ghp_token";
     Http.GITHUB_REPO := Some "bazinga/site";
     Http.WRITE_ACCESS_KEY := Some "s3cret";
     Http.NODE_ENV := Some "production";
     Http.SUPABASE_URL := Some "https://db.example";
     Http.SUPABASE_ANON_KEY := Some "anon" |}.

(** A like sent without any access key. *)
Definition anonymousLike : Http.Request :=
  {| Http.method := "POST"; Http.accessKeyHeader := None;
     Http.body := None; Http.queryId := Some "/posts/hello/" |}.

Definition readLike : Http.Request :=
  {| Http.method := "GET"; Http.accessKeyHeader := None;
     Http.body := None; Http.queryId := Some "/posts/hello/" |}.

Definition emptyStore : Likes.Store := {| Likes.rows := []; Likes.replies := [] |}.

(** An authenticated POST that carries no body at all. *)
Definition bodyless : Http.Request :=
  {| Http.method := "POST"; Http.accessKeyHeader := Some "s3cret";
     Http.body := None; Http.queryId := None |}.

(** Runtimes with the calendar frozen at 2024-05-01 10:30 (Shanghai) and
    the encoding left as the identity. *)
Definition frozenPost : PostApi.Runtime :=
  {| PostApi.base64 := fun s => s;
     PostApi.buildPublishInfo := fun _ _ =>
       PostApi.mkPublishInfo "2024/05/01 10:30" "2024-05-01-023000-post"
         "2024-05-01T10:30:00+08:00" |}.

Definition frozenNote : NoteApi.Runtime :=
  {| NoteApi.base64 := fun s => s;
     NoteApi.clockOf := fun _ =>
       NoteApi.mkClock "2024-05-01" "2024/05/01 10:30" "10" "30"
         "2024" "05" "01" |}.

(** A network on which GitHub refuses every write with [status]. *)
Definition refusing (status : Z) (c : GitHub.Call) (w : unit)
  : GitHub.FetchResult * unit :=
  match c with
  | GitHub.GetContents _ _ _ _ =>
      (GitHub.Answer 404 (inl (Repository.refused "Not Found")), w)
  | GitHub.PutContents _ _ _ _ _ =>
      (GitHub.Answer status (inl (Repository.refused "Validation Failed")), w)
  end.

(** An authenticated request with every field of a post and of a note. *)
Definition complete : Http.Request :=
  {| Http.method := "POST"; Http.accessKeyHeader := Some "s3cret";
     Http.body := Some (list_to_map
       [ ("title", JS.VStr "Hello World");
         ("body", JS.VStr "First post.");
         ("content", JS.VStr "A note.");
         ("tags", JS.VArr [JS.VStr "life"]) ]);
     Http.queryId := None |}.


(** A repository that already holds the file the post of [complete] would
    be written to, read at a clock of 1714530600123 ms. *)
Definition taken : Repository.State :=
  {| Repository.files :=
       {[ "_posts/2024-05-01-023000-post-hello-world.md"
          := Repository.mkFile "old" "sha-old" ]};
     Repository.clock := 1714530600123 |}.

(** The object name of a content, for the examples. *)
Definition naming (content : string) : string := String.append "sha-" content.

(** A clock standing at 1714530600123 ms for the world without state. *)
Definition noon (w : unit) : Z := 1714530600123.

(** Ten tracked events whose sends all fail, each failure followed by the
    flush timer. *)
Definition unlucky : list ServerTracker.Action :=
  repeat (ServerTracker.Track "page_view" []) 10
  ++ concat (repeat [ServerTracker.Settle 0 []; ServerTracker.TimerFires] 4).

(** A development deployment. *)
Definition development : Http.Env :=
  {| Http.GITHUB_TOKEN := Some "ghp_token";
     Http.GITHUB_REPO := Some "bazinga/site";
     Http.WRITE_ACCESS_KEY := Some "s3cret";
     Http.NODE_ENV := Some "development";
     Http.SUPABASE_URL := Some "https://db.example";
     Http.SUPABASE_ANON_KEY := Some "anon" |}.

(** An authenticated request whose title is the number 5, with the other
    fields of a post and of a note. *)
Definition numericTitle : Http.Request :=
  {| Http.method := "POST"; Http.accessKeyHeader := Some "s3cret";
     Http.body := Some (list_to_map
       [ ("title", JS.VNum 5);
         ("body", JS.VStr "First post.");
         ("content", JS.VStr "A note.");
         ("tags", JS.VArr [JS.VStr "life"]) ]);
     Http.queryId := None |}.

End Samples.

(** ** Experiment assignment, exposure and goals (assets/site.js) *)

Module Experiments.
Import ABTest.

(** An entry of [experimentConfigs]. [segments] is empty when the
    configuration names none. *)
Record Config := mkConfig
  { cfg_name : string;
    cfg_status : string;
    cfg_variants : Variants;
    targetPages : list string;
    cfg_goals : list string;
    segments : list string }.

(** [s.slice(0, -1)] *)
Definition dropLast (s : string) : string :=
  string_of_list_ascii (removelast (list_ascii_of_string s)).

(** [list.includes(x)] *)
Definition includes (x : string) (l : list string) : bool :=
  existsb (String.eqb x) l.

(** The callback of [targetPages.some] in [shouldRunExperiment]. *)
Definition pageMatches (currentPage targetPage : string) : bool :=
  String.eqb targetPage currentPage
  || (Text.endsWith "/" targetPage
      && String.prefix (dropLast targetPage) currentPage).

(** [shouldRunExperiment(experimentId, config, currentPage, userSegments)] *)
Definition shouldRunExperiment (experimentId : string) (config : Config)
    (currentPage : string) (userSegments : list string) : bool :=
  if negb (String.eqb (cfg_status config) "active") then false
  else if negb (existsb (pageMatches currentPage) (targetPages config)) then false
  else
    match segments config with
    | [] => true
    | _ :: _ =>
        existsb (fun segment => includes segment userSegments) (segments config)
    end.

(** The calls of [trackUmami] made by the manager, with the fields the
    properties below speak about. *)
Inductive Tracked : Type :=
| AssignmentEvent (experiment_id variant : string)
| ExposureEvent (experiment_id variant : string) (exposure_count : nat)
| ConversionEvent (experiment_id variant goal_name : string)
    (conversion_count : nat).

(** The manager during a page view: its fields, the [experiments] Map (in
    insertion order), the [data-ab-*] attributes set on the body and the
    events tracked so far.  The assignment object of an entry of
    [experiments] is the object stored in [userAssignments] under the same
    id, so it is kept there only. *)
Record Page := mkPage
  { this : ABTestManager;
    experiments : list (string * Config);
    bodyAttributes : gmap string string;
    tracked : list Tracked }.

(** [map.set(k, v)] on a Map kept in insertion order. *)
Fixpoint mapSet (k : string) (v : Config) (m : list (string * Config))
  : list (string * Config) :=
  match m with
  | [] => [(k, v)]
  | (k', v') :: rest =>
      if String.eqb k' k then (k, v) :: rest else (k', v') :: mapSet k v rest
  end.

(** [map.get(k)] *)
Fixpoint mapGet (k : string) (m : list (string * Config)) : option Config :=
  match m with
  | [] => None
  | (k', v') :: rest => if String.eqb k' k then Some v' else mapGet k rest
  end.

Definition withAssignments (m : ABTestManager) (a : gmap string Assignment)
  : ABTestManager :=
  {| sessionId := sessionId m; userId := userId m;
     userAssignments := a; exposureTracked := exposureTracked m |}.

Definition exposureKey (experimentId : string) (assignment : Assignment) : string :=
  String.append experimentId (String.append ":" (variant assignment)).

(** [trackExposure(experimentId, assignment)]; [assignment] is the object
    held in [userAssignments] under [experimentId], which
    [assignment.exposures++] updates. *)
Definition trackExposure (experimentId : string) (assignment : Assignment)
    (p : Page) : Page :=
  let key := exposureKey experimentId assignment in
  if bool_decide (key ∈ exposureTracked (this p)) then p
  else
    let counted :=
      {| experimentName := experimentName assignment;
         variant := variant assignment;
         variantName := variantName assignment;
         assignedAt := assignedAt assignment;
         exposures := S (exposures assignment);
         goals := goals assignment |} in
    {| this :=
         {| sessionId := sessionId (this p);
            userId := userId (this p);
            userAssignments := <[experimentId := counted]> (userAssignments (this p));
            exposureTracked := {[ key ]} ∪ exposureTracked (this p) |};
       experiments := experiments p;
       bodyAttributes := bodyAttributes p;
       tracked :=
         tracked p
         ++ [ExposureEvent experimentId (variant counted) (exposures counted)] |}.

(** [assignUserToVariant(experimentId, config)] at the time [now]
    ([new Date().toISOString()]).  [None] is the TypeError of
    [selectVariantForUser] on an experiment without variants.  Of
    [applyVariant] the attribute [data-ab-<experimentId>] set on the body is
    kept; its other changes to the document are not modelled. *)
Definition assignUserToVariant (experimentId : string) (config : Config)
    (now : string) (p : Page) : option Page :=
  let found :=
    match userAssignments (this p) !! experimentId with
    | Some assignment => Some (assignment, p)
    | None =>
        match selectVariantForUser (this p) (cfg_variants config) with
        | None => None
        | Some chosen =>
            let assignment :=
              {| experimentName := cfg_name config;
                 variant := key chosen;
                 variantName := sel_name chosen;
                 assignedAt := now;
                 exposures := 0;
                 goals := [] |} in
            Some (assignment,
                  {| this := withAssignments (this p)
                               (<[experimentId := assignment]>
                                  (userAssignments (this p)));
                     experiments := experiments p;
                     bodyAttributes := bodyAttributes p;
                     tracked :=
                       tracked p
                       ++ [AssignmentEvent experimentId (variant assignment)] |})
        end
    end in
  match found with
  | None => None
  | Some (assignment, p1) =>
      let p2 :=
        {| this := this p1;
           experiments := mapSet experimentId config (experiments p1);
           bodyAttributes :=
             <[String.append "data-ab-" experimentId := variant assignment]>
               (bodyAttributes p1);
           tracked := tracked p1 |} in
      Some (trackExposure experimentId assignment p2)
  end.

(** [initializePageExperiments()]: the loop over
    [Object.entries(this.experimentConfigs)], given the path of the page and
    the segments of the user. *)
Fixpoint initializePageExperiments (configs : list (string * Config))
    (currentPage : string) (userSegments : list string) (now : string)
    (p : Page) : option Page :=
  match configs with
  | [] => Some p
  | (experimentId, config) :: rest =>
      if shouldRunExperiment experimentId config currentPage userSegments
      then
        match assignUserToVariant experimentId config now p with
        | None => None
        | Some p' => initializePageExperiments rest currentPage userSegments now p'
        end
      else initializePageExperiments rest currentPage userSegments now p
  end.

(** One round of the [forEach] of [handleGoalConversion]. *)
Definition convert (goalName : string) (p : Page) (entry : string * Config) : Page :=
  let '(experimentId, config) := entry in
  if includes goalName (cfg_goals config) then
    match userAssignments (this p) !! experimentId with
    | None => p
    | Some assignment =>
        let recorded :=
          {| experimentName := experimentName assignment;
             variant := variant assignment;
             variantName := variantName assignment;
             assignedAt := assignedAt assignment;
             exposures := exposures assignment;
             goals := goals assignment ++ [goalName] |} in
        {| this := withAssignments (this p)
                     (<[experimentId := recorded]> (userAssignments (this p)));
           experiments := experiments p;
           bodyAttributes := bodyAttributes p;
           tracked :=
             tracked p
             ++ [ConversionEvent experimentId (variant recorded) goalName
                   (List.length
                      (List.filter (String.eqb goalName) (goals recorded)))] |}
    end
  else p.

(** [handleGoalConversion(goalName, data)]; of each recorded goal the name
    is kept. *)
Definition handleGoalConversion (goalName : string) (p : Page) : Page :=
  fold_left (convert goalName) (experiments p) p.

(** [getExperimentVariant(experimentId)]; [None] is [null]. *)
Definition getExperimentVariant (experimentId : string) (p : Page) : option string :=
  match mapGet experimentId (experiments p) with
  | Some _ => variant <$> userAssignments (this p) !! experimentId
  | None => None
  end.

(** The [experiment_id] of a tracked event. *)
Definition experimentOf (e : Tracked) : string :=
  match e with
  | AssignmentEvent experiment_id _ => experiment_id
  | ExposureEvent experiment_id _ _ => experiment_id
  | ConversionEvent experiment_id _ _ _ => experiment_id
  end.

(** The state of a page between two calls: the [experiments] Map has one
    entry per id, and every experiment in it has its assignment in
    [userAssignments], whose variant is the body attribute and whose
    exposure has been tracked. *)
Definition consistent (p : Page) : Prop :=
  List.NoDup (map fst (experiments p))
  /\ forall experimentId config,
       In (experimentId, config) (experiments p) ->
       exists assignment,
         userAssignments (this p) !! experimentId = Some assignment
         /\ bodyAttributes p !! String.append "data-ab-" experimentId
            = Some (variant assignment)
         /\ exposureKey experimentId assignment ∈ exposureTracked (this p).

(** How often [goalName] is among the recorded goals:
    [goals.filter(g => g.goalName === goalName).length]. *)
Definition conversions (goalName : string) (assignment : Assignment) : nat :=
  List.length (List.filter (String.eqb goalName) (goals assignment)).

(** The manager after the constructor has loaded the stored assignments:
    no experiment, attribute or event yet. *)
Definition opened (m : ABTestManager) : Page :=
  {| this := m; experiments := []; bodyAttributes := ∅; tracked := [] |}.

End Experiments.

(** ** The visitor id kept in local storage
       (assets/site.js and assets/server-tracking.js) *)

Module Browser.

(** [localStorage] as the two managers use it: the stored items, whether
    the storage can be reached at all (reading the [localStorage] property
    throws a SecurityError when it is blocked) and whether it accepts a
    write ([setItem] throws when the quota is exceeded). *)
Record Storage := mkStorage
  { items : gmap string string;
    reachable : bool;
    accepting : bool }.

(** [localStorage.getItem(key)]: [None] when it throws, [Some None] for
    [null]. *)
Definition getItem (key : string) (s : Storage) : option (option string) :=
  if reachable s then Some (items s !! key) else None.

(** [localStorage.setItem(key, value)]: [None] when it throws. *)
Definition setItem (key value : string) (s : Storage) : option Storage :=
  if reachable s && accepting s
  then Some (mkStorage (<[key := value]> (items s)) (reachable s) (accepting s))
  else None.

(** The body shared by [getUserId] of the two managers, given the value
    [createPrefixedId('user')] would answer: the id ([None] is [null]) and
    the storage afterwards. *)
Definition storedOrNew (fresh : string) (s : Storage) : option string * Storage :=
  match getItem "user-journey-id" s with
  | None => (None, s)
  | Some stored =>
      if Http.present stored then (stored, s)
      else
        match setItem "user-journey-id" fresh s with
        | None => (None, s)
        | Some s' => (Some fresh, s')
        end
  end.

End Browser.

(** [ServerTracker.getUserId()] *)
Definition ServerTracker_getUserId (fresh : string) (s : Browser.Storage)
  : option string * Browser.Storage :=
  Browser.storedOrNew fresh s.

(** [ABTestManager.getUserId()] *)
Definition ABTestManager_getUserId (fresh : string) (s : Browser.Storage)
  : option string * Browser.Storage :=
  Browser.storedOrNew fresh s.

(** The fields the constructor of [ABTestManager] sets before [init]. *)
Definition ABTestManager_new (session fresh : string) (s : Browser.Storage)
  : ABTest.ABTestManager * Browser.Storage :=
  let '(user, s') := ABTestManager_getUserId fresh s in
  (ABTest.mkManager session user ∅ ∅, s').

(** ** What a run of the tracker hands over *)

Module Delivery.
Import ServerTracker.

(** The events of the batches of a trace, in the order they were handed
    to a send. *)
Definition sent (trace : list Effect) : list Event :=
  flat_map (fun e => match e with Send _ events => events end) trace.

(** What [track] was called with to build an event. *)
Definition described (e : Event) : string * list (string * string) :=
  (ev_name e, ev_data e).

(** The calls of [track] among the actions, in order. *)
Definition tracks (actions : list Action) : list (string * list (string * string)) :=
  flat_map (fun a => match a with
                     | Track eventName eventData => [(eventName, eventData)]
                     | _ => []
                     end) actions.

(** The event objects [track] builds for the calls [calls], the first
    one being object number [from]. *)
Fixpoint numbered (from : nat) (calls : list (string * list (string * string)))
  : list Event :=
  match calls with
  | [] => []
  | (eventName, eventData) :: rest =>
      mkEvent from eventName eventData None :: numbered (S from) rest
  end.

(** Actions after which no event is dropped or queued again: everything
    but [clearQueue] and a send whose promise rejects. *)
Definition lossless (a : Action) : bool :=
  match a with
  | ClearQueue => false
  | Settle _ network => fst (sendAsync network 0)
  | _ => true
  end.

(** Actions that leave an offline tracker offline. *)
Definition staysOffline (a : Action) : bool :=
  match a with
  | Online => false
  | _ => true
  end.

(** The events a tracker holds: queued, or in a batch whose send is
    pending. *)
Definition held (this : Tracker) : list Event :=
  eventQueue this ++ concat (inFlight this).

End Delivery.

(** ** The two requests of [incrementLike], apart *)

Module LikeSteps.
Import Likes.

(** [incrementLike] up to its first [await]: the select. *)
Definition incrementLikeRead (pageId : string) (s : Store)
  : option (list Row) * Store :=
  supabaseRequest (SelectEq pageId) s.

(** [incrementLike] from the answer [existing] of the select on: the
    patch or the insert, and the count returned ([None] when the error is
    rethrown). *)
Definition incrementLikeWrite (pageId : string) (existing : list Row) (s : Store)
  : option Z * Store :=
  match existing with
  | first :: _ =>
      let newCount := binary64 (binary64 (count first) + 1) in
      match supabaseRequest (PatchEq pageId newCount) s with
      | (None, s') => (None, s')
      | (Some _, s') => (Some newCount, s')
      end
  | [] =>
      match supabaseRequest (Insert (mkRow pageId 1)) s with
      | (None, s') => (None, s')
      | (Some _, s') => (Some 1, s')
      end
  end.

(** Two invocations of [incrementLike] for the same page whose selects
    are both answered before either writes: the two counts returned and
    the store afterwards. *)
Definition overlapping (pageId : string) (s : Store)
  : option Z * option Z * Store :=
  match incrementLikeRead pageId s with
  | (None, s1) =>
      let '(second, s2) := incrementLike pageId s1 in (None, second, s2)
  | (Some existing1, s1) =>
      match incrementLikeRead pageId s1 with
      | (None, s2) =>
          let '(first, s3) := incrementLikeWrite pageId existing1 s2 in
          (first, None, s3)
      | (Some existing2, s2) =>
          let '(first, s3) := incrementLikeWrite pageId existing1 s2 in
          let '(second, s4) := incrementLikeWrite pageId existing2 s3 in
          (first, second, s4)
      end
  end.

(** [req] with another [id] query parameter. *)
Definition withId (req : Http.Request) (id : string) : Http.Request :=
  Http.mkRequest (Http.method req) (Http.accessKeyHeader req) (Http.body req)
    (Some id).

End LikeSteps.

(** ** The shape of a slug *)

Module Slugs.
Import Text.




End Slugs.

(** ** The wrapper around the analytics script (assets/umami.js) *)

Module Umami.

(** The arguments of a call: the event name and its data. *)
Definition Args : Type := string * list (string * string).

(** [window.umami], an ordinary writable property of the window, by what
    the wrapper meets in it:
    - [Undefined];
    - [Queueing q]: the queueing function installed by
      [ensureUmamiQueue], with the calls pushed to its [q];
    - [Provided received throwing]: a function the page provides, with the
      calls it has returned from; [throwing] tells that it throws when it
      is called;
    - [Tracking received throwing]: a value that is no function and has a
      [track] function of its own (the object of the analytics script),
      with the calls that function has returned from, and whether it
      throws;
    - [Plain installed]: an object without a [track] function that accepts
      one; [installed] tells that [ensureUmamiQueue] has given it its own;
    - [Closed]: any other value, on which [track] cannot be read or cannot
      be set: [null], a number, a string, a boolean, a non-extensible
      object.  The module is strict code, so the assignment of [track]
      throws a TypeError there. *)
Inductive Window : Type :=
| Undefined
| Queueing (q : list Args)
| Provided (received : list Args) (throwing : bool)
| Tracking (received : list Args) (throwing : bool)
| Plain (installed : bool)
| Closed.

(** [ensureUmamiQueue()]: [None] when it throws. *)
Definition ensureUmamiQueue (w : Window) : option Window :=
  match w with
  | Queueing _ | Provided _ _ => Some w
  | Undefined => Some (Queueing [])
  | Tracking _ _ => Some w
  | Plain _ => Some (Plain true)
  | Closed => None
  end.

(** [trackUmami(eventName, data)] in a browser: the window afterwards and
    whether a warning was logged (the [catch] block).  The function
    installed on an object without [track] calls [window.umami] only when
    that is a function, so it does nothing. *)
Definition trackUmami (args : Args) (w : Window) : Window * bool :=
  match ensureUmamiQueue w with
  | None => (w, true)
  | Some (Queueing q) => (Queueing (q ++ [args]), false)
  | Some (Provided received false) => (Provided (received ++ [args]) false, false)
  | Some (Provided received true) => (Provided received true, true)
  | Some (Tracking received false) => (Tracking (received ++ [args]) false, false)
  | Some (Tracking received true) => (Tracking received true, true)
  | Some w' => (w', false)
  end.

(** Calls of [trackUmami] one after the other. *)
Definition trackAll (calls : list Args) (w : Window) : Window :=
  fold_left (fun w args => fst (trackUmami args w)) calls w.

(** The calls that reached a queue or a function. *)
Definition kept (w : Window) : list Args :=
  match w with
  | Queueing q => q
  | Provided received _ => received
  | Tracking received _ => received
  | _ => []
  end.

(** The call is lost on [w]: [w] cannot take a [track] function, or is an
    object without one of its own, or the function called throws. *)
Definition losing (w : Window) : bool :=
  match w with
  | Closed | Plain _ | Provided _ true | Tracking _ true => true
  | _ => false
  end.

(** The call ends in the [catch] block on [w]. *)
Definition warning (w : Window) : bool :=
  match w with
  | Closed | Provided _ true | Tracking _ true => true
  | _ => false
  end.

End Umami.

(** ** The parts of a call of the contents API *)

Module Calls.
Import GitHub.




(** The string holds no [c]. *)
Definition free (c : ascii) (s : string) : bool :=
  forallb (fun d => negb (Ascii.eqb d c)) (list_ascii_of_string s).

End Calls.

(** ** Requests that differ in one part *)

Module Requests.
Import Http.

(** [req] with the body [fields]. *)
Definition withBody (req : Request) (fields : gmap string JS.value) : Request :=
  mkRequest (method req) (accessKeyHeader req) (Some fields) (queryId req).

(** A value the note function can validate as text: missing, or a
    string. *)
Definition textual (v : JS.value) : bool :=
  match v with
  | JS.VUndefined | JS.VStr _ => true
  | _ => false
  end.

(** A value the note function can read as tags: anything but an array
    that holds something other than strings. *)
Definition tagsLike (v : JS.value) : bool :=
  match v with
  | JS.VArr items =>
      forallb (fun item => match item with JS.VStr _ => true | _ => false end) items
  | _ => true
  end.

End Requests.

(** ** Further concrete inputs *)

Module Visits.
Import ABTest Experiments.

(** The [write_form_layout] entry of [experimentConfigs]. *)
Definition writeForm : Config :=
  {| cfg_name := "Write Form Layout Optimization";
     cfg_status := "active";
     cfg_variants := Samples.writeFormLayout;
     targetPages := ["/write-note/"; "/write-photo/"; "/write-film/"];
     cfg_goals := ["form_submission"; "write_submit_success"];
     segments := [] |}.

(** An experiment that targets the same pages and counts the same goal,
    with one variant only. *)
Definition banner : Config :=
  {| cfg_name := "Banner";
     cfg_status := "active";
     cfg_variants := [("control", mkVariant 100 "No banner")];
     targetPages := ["/write-note/"];
     cfg_goals := ["form_submission"];
     segments := [] |}.

(** The [reading_experience] entry, which targets the posts. *)
Definition reading : Config :=
  {| cfg_name := "Reading Experience Enhancement";
     cfg_status := "active";
     cfg_variants :=
       [ ("control", mkVariant 50 "Standard Reading");
         ("enhanced", mkVariant 50 "Enhanced Reading") ];
     targetPages := ["/posts/"];
     cfg_goals := ["reading_completion"];
     segments := [] |}.

Definition siteConfigs : list (string * Config) :=
  [ ("write_form_layout", writeForm);
    ("banner", banner);
    ("reading_experience", reading) ].

Definition morning : string := "2024-05-01T02:30:00.000Z".

(** The page [/write-note/] as a first-time visitor has it once the
    experiments are initialised. *)
Definition writeNote : Page :=
  default (opened Samples.visitor)
    (initializePageExperiments siteConfigs "/write-note/" [] morning
       (opened Samples.visitor)).

(** A browser that has never seen the site. *)
Definition firstVisit : Browser.Storage :=
  Browser.mkStorage ∅ true true.

End Visits.

(** * Properties *)

(** ** Experiment bucketing *)

Module ABTestFacts.
Import ABTest.

Lemma residues_in_unit_interval :
  forallb (fun k => inUnitInterval (floatOfZ k / 10000)%float) residues = true.
Proof. vm_compute. reflexivity. Qed.

Lemma residue_in_unit_interval (k : Z) :
  0 <= k < 10000 -> inUnitInterval (floatOfZ k / 10000)%float = true.
Proof.
  intros Hk.
  pose proof residues_in_unit_interval as Hall.
  rewrite forallb_forall in Hall.
  apply Hall. unfold residues.
  apply in_map_iff. exists (Z.to_nat k). split; [lia|].
  apply in_seq. lia.
Qed.

Lemma randomValue_in_unit_interval (this : ABTestManager) :
  inUnitInterval (randomValue this) = true.
Proof.
  unfold randomValue. apply residue_in_unit_interval.
  apply Z.mod_pos_bound. lia.
Qed.

Lemma walk_cons (r acc : float) k0 v0 (rest : Variants) :
  walk r acc ((k0, v0) :: rest)
  = if PrimFloat.leb r (accumulate acc (k0, v0))
    then Some (select k0 v0)
    else walk r (accumulate acc (k0, v0)) rest.
Proof. reflexivity. Qed.

Lemma prefix_cons (acc : float) e (rest : Variants) (j : nat) :
  fold_left accumulate (firstn (S (S j)) (e :: rest)) acc
  = fold_left accumulate (firstn (S j) rest) (accumulate acc e).
Proof. reflexivity. Qed.

Lemma prefix_one (acc : float) e (rest : Variants) :
  fold_left accumulate (firstn 1 (e :: rest)) acc = accumulate acc e.
Proof. reflexivity. Qed.

Lemma walk_first_cover (r : float) :
  forall (entries : Variants) (acc : float) (i : nat) k v,
    entries !! i = Some (k, v) ->
    PrimFloat.leb r (fold_left accumulate (firstn (S i) entries) acc) = true ->
    (forall j, (j < i)%nat ->
       PrimFloat.leb r (fold_left accumulate (firstn (S j) entries) acc) = false) ->
    walk r acc entries = Some (select k v).
Proof.
  induction entries as [|[k0 v0] rest IH]; intros acc i k v Hi Hcov Hbefore.
  - discriminate.
  - rewrite walk_cons. destruct i as [|i].
    + injection Hi as -> ->. rewrite prefix_one in Hcov.
      now rewrite Hcov.
    + pose proof (Hbefore 0%nat ltac:(lia)) as H0.
      rewrite prefix_one in H0. rewrite H0.
      rewrite prefix_cons in Hcov.
      apply (IH _ i); auto.
      intros j Hj. rewrite <- prefix_cons. apply Hbefore. lia.
Qed.

Lemma walk_none (r : float) :
  forall (entries : Variants) (acc : float),
    (forall j, (j < length entries)%nat ->
       PrimFloat.leb r (fold_left accumulate (firstn (S j) entries) acc) = false) ->
    walk r acc entries = None.
Proof.
  induction entries as [|[k0 v0] rest IH]; intros acc Hall.
  - reflexivity.
  - rewrite walk_cons.
    pose proof (Hall 0%nat ltac:(simpl; lia)) as H0.
    rewrite prefix_one in H0. rewrite H0.
    apply IH. intros j Hj. rewrite <- prefix_cons. apply Hall. simpl. lia.
Qed.

(** C8.  The bucketing function turns the visitor id into a value of
    [0,1) through the string hash, walks the variants in their listed
    order while adding up each weight (a percentage, taken as weight/100),
    and returns the first variant whose cumulative weight reaches or
    exceeds the value. *)
Theorem selectVariantForUser_first_cover :
  forall (this : ABTestManager) (variants : Variants) (i : nat) k v,
    variants !! i = Some (k, v) ->
    PrimFloat.leb (randomValue this) (cumulativeAt variants i) = true ->
    (forall j, (j < i)%nat ->
       PrimFloat.leb (randomValue this) (cumulativeAt variants j) = false) ->
    (PrimFloat.leb 0 (randomValue this) = true
     /\ PrimFloat.ltb (randomValue this) 1 = true)
    /\ selectVariantForUser this variants = Some (select k v).
Proof.
  intros this variants i k v Hi Hcov Hbefore. split.
  - pose proof (randomValue_in_unit_interval this) as H.
    unfold inUnitInterval in H. apply andb_true_iff in H. exact H.
  - unfold selectVariantForUser.
    rewrite (walk_first_cover _ variants 0%float i k v Hi Hcov Hbefore).
    reflexivity.
Qed.

Lemma selectVariantForUser_first_cover_witness :
  (PrimFloat.leb 0 (randomValue Samples.visitor) = true
   /\ PrimFloat.ltb (randomValue Samples.visitor) 1 = true)
  /\ selectVariantForUser Samples.visitor Samples.writeFormLayout
     = Some (select "compact" (mkVariant 25 "Compact Layout")).
Proof.
  apply (selectVariantForUser_first_cover Samples.visitor Samples.writeFormLayout 1).
  - reflexivity.
  - vm_compute. reflexivity.
  - intros j Hj. assert (j = 0)%nat as -> by lia. vm_compute. reflexivity.
Defined.

(** C3.  With the visitor id and the variant configuration fixed, any two
    invocations of the selection return the same variant: nothing else in
    the manager is an input. *)
Theorem selectVariantForUser_deterministic :
  forall (first again : ABTestManager) (variants : Variants),
    userId first = userId again ->
    selectVariantForUser first variants = selectVariantForUser again variants.
Proof.
  intros first again variants Hid.
  unfold selectVariantForUser, randomValue, selectionSeed.
  rewrite Hid. reflexivity.
Qed.

Lemma selectVariantForUser_deterministic_witness :
  selectVariantForUser Samples.visitor Samples.writeFormLayout
  = selectVariantForUser Samples.visitorLater Samples.writeFormLayout.
Proof.
  apply (selectVariantForUser_deterministic Samples.visitor Samples.visitorLater).
  reflexivity.
Defined.

(** C1 as stated fails: the weights of [underweight] sum to 0.2, the value
    derived for the visitor (0.7237) exceeds it, and the variant returned
    is the first of the list, not the last. *)
Lemma selectVariantForUser_remainder_not_last :
  PrimFloat.ltb (totalWeight Samples.underweight) 1 = true
  /\ PrimFloat.ltb (totalWeight Samples.underweight)
       (randomValue Samples.visitor) = true
  /\ selectVariantForUser Samples.visitor Samples.underweight
     = Some (select "control" (mkVariant 10 "Original"))
  /\ selectVariantForUser Samples.visitor Samples.underweight
     <> (fun e => select (fst e) (snd e)) <$> last Samples.underweight.
Proof.
  repeat split; try (vm_compute; reflexivity).
  vm_compute. intros H. discriminate H.
Qed.

(** C1, amended.  When the value derived from the visitor id lies above
    the cumulative weight at every variant of the list, so that the walk
    selects none, the variant returned is the first variant of the
    list. *)
Theorem selectVariantForUser_remainder_first :
  forall (this : ABTestManager) firstKey firstVariant (others : Variants),
    (forall j, (j < length ((firstKey, firstVariant) :: others))%nat ->
       PrimFloat.leb (randomValue this)
         (cumulativeAt ((firstKey, firstVariant) :: others) j) = false) ->
    selectVariantForUser this ((firstKey, firstVariant) :: others)
    = Some (select firstKey firstVariant).
Proof.
  intros this firstKey firstVariant others Hall.
  unfold selectVariantForUser.
  rewrite (walk_none _ _ 0%float Hall). reflexivity.
Qed.

Lemma selectVariantForUser_remainder_first_witness :
  selectVariantForUser Samples.visitor Samples.underweight
  = Some (select "control" (mkVariant 10 "Original")).
Proof.
  apply (selectVariantForUser_remainder_first Samples.visitor).
  intros j Hj. simpl in Hj.
  assert (j = 0 \/ j = 1)%nat as [-> | ->] by lia; vm_compute; reflexivity.
Defined.

End ABTestFacts.

(** ** Event queue *)

Module ServerTrackerFacts.
Import ServerTracker.

Lemma flushQueue_effect (isSync : bool) (this : Tracker) :
  snd (flushQueue isSync this)
  = if Nat.ltb 0 (length (eventQueue this)) && isOnline this
    then [Send isSync (firstn batchSize (eventQueue this))]
    else [].
Proof.
  unfold flushQueue.
  destruct (eventQueue this) as [|e q]; simpl; [reflexivity|].
  destruct (isOnline this); reflexivity.
Qed.

Lemma addToQueue_effect (event : Event) (this : Tracker) :
  snd (addToQueue event this)
  = if Nat.leb batchSize (length (eventQueue this ++ [event])) && isOnline this
    then [Send false (firstn batchSize (eventQueue this ++ [event]))]
    else [].
Proof.
  unfold addToQueue. cbn [eventQueue].
  destruct (Nat.leb batchSize (length (eventQueue this ++ [event]))) eqn:Hfull.
  - rewrite flushQueue_effect. cbn [eventQueue isOnline].
    apply Nat.leb_le in Hfull. unfold batchSize in Hfull.
    destruct (Nat.ltb 0 (length (eventQueue this ++ [event]))) eqn:Hpos;
      [reflexivity|].
    apply Nat.ltb_ge in Hpos. lia.
  - reflexivity.
Qed.

Lemma addToQueue_below (event : Event) (this : Tracker) :
  (length (eventQueue this) + 1 < batchSize)%nat ->
  addToQueue event this
  = ({| eventQueue := eventQueue this ++ [event];
        isOnline := isOnline this;
        inFlight := inFlight this;
        allocated := allocated this |}, []).
Proof.
  intros Hlen. unfold addToQueue. cbn [eventQueue].
  destruct (Nat.leb batchSize (length (eventQueue this ++ [event]))) eqn:Hfull;
    [|reflexivity].
  apply Nat.leb_le in Hfull. rewrite length_app in Hfull. simpl in Hfull. lia.
Qed.

Lemma tracks_below_send_nothing :
  forall (tracks : list Action) (this : Tracker),
    Forall isTrack tracks ->
    (length (eventQueue this) + length tracks < batchSize)%nat ->
    snd (run tracks this) = []
    /\ length (eventQueue (fst (run tracks this)))
       = (length (eventQueue this) + length tracks)%nat.
Proof.
  induction tracks as [|a rest IH]; intros this Hall Hlen.
  - simpl. split; [reflexivity|lia].
  - inversion Hall as [|? ? Ha Hrest]; subst.
    destruct a; try contradiction.
    simpl in Hlen. cbn [run step]. unfold track.
    rewrite addToQueue_below by (cbn [eventQueue]; lia).
    cbn [eventQueue isOnline inFlight allocated].
    match goal with |- context [run rest ?t] =>
      destruct (IH t Hrest) as [Hout Hq];
        [cbn [eventQueue]; rewrite length_app; simpl; lia|];
      destruct (run rest t) as [t2 out2] end.
    simpl in *. split; [exact Hout|].
    rewrite Hq, length_app. simpl. lia.
Qed.

(** C6 as stated fails: after [Offline], the tenth tracked event brings
    the queue to the threshold and no send is issued. *)
Lemma threshold_reached_offline_no_send :
  let '(this, sent) :=
    run (Samples.nineOffline ++ [Track "page_view" []]) (initial true) in
  length (eventQueue this) = batchSize /\ isOnline this = false /\ sent = [].
Proof. vm_compute. repeat split; reflexivity. Qed.

(** C6, amended.  A sequence of enqueues that keeps the queue below the
    batch size (10) issues no send; an enqueue issues a send exactly when
    it brings the queue length to the batch size or more while the tracker
    is online, and then sends the first 10 queued events at once; the
    flush timer sends a batch when the queue is not empty and the tracker
    is online.  While the tracker is offline an enqueue sends nothing. *)
Theorem addToQueue_send_policy :
  forall (tracks : list Action) (this : Tracker),
    Forall isTrack tracks ->
    (length (eventQueue this) + length tracks < batchSize)%nat ->
    snd (run tracks this) = []
    /\ (forall event that,
          snd (addToQueue event that)
          = if Nat.leb batchSize (length (eventQueue that ++ [event]))
               && isOnline that
            then [Send false (firstn batchSize (eventQueue that ++ [event]))]
            else [])
    /\ (forall that,
          snd (timerFires that)
          = if Nat.ltb 0 (length (eventQueue that)) && isOnline that
            then [Send false (firstn batchSize (eventQueue that))]
            else []).
Proof.
  intros tracks this Hall Hlen. split; [|split].
  - apply tracks_below_send_nothing; assumption.
  - intros event that. apply addToQueue_effect.
  - intros that. unfold timerFires.
    destruct (Nat.ltb 0 (length (eventQueue that))) eqn:Hpos.
    + rewrite flushQueue_effect, Hpos. reflexivity.
    + reflexivity.
Qed.

Lemma addToQueue_send_policy_witness :
  snd (run (repeat (Track "page_view" []) 3) (initial true)) = []
  /\ (forall event that,
        snd (addToQueue event that)
        = if Nat.leb batchSize (length (eventQueue that ++ [event]))
             && isOnline that
          then [Send false (firstn batchSize (eventQueue that ++ [event]))]
          else [])
  /\ (forall that,
        snd (timerFires that)
        = if Nat.ltb 0 (length (eventQueue that)) && isOnline that
          then [Send false (firstn batchSize (eventQueue that))]
          else []).
Proof.
  apply (addToQueue_send_policy (repeat (Track "page_view" []) 3) (initial true)).
  - repeat constructor.
  - vm_compute. lia.
Defined.

(** *** Retry ceiling *)

Lemma requeue_spec (eventsToSend queue : list Event) :
  requeue eventsToSend queue
  = rev (map bump (List.filter belowCeiling eventsToSend)) ++ queue.
Proof.
  unfold requeue. revert queue.
  induction eventsToSend as [|e rest IH]; intros queue; [reflexivity|].
  cbn [fold_left List.filter]. rewrite IH. unfold belowCeiling at 2.
  destruct (Nat.ltb (retriesOf e) maxRetries); [|reflexivity].
  cbn [map rev]. rewrite <- app_assoc. reflexivity.
Qed.

Lemma sendsOf_app (r : nat) (t1 t2 : list Effect) :
  sendsOf r (t1 ++ t2) = (sendsOf r t1 + sendsOf r t2)%nat.
Proof. unfold sendsOf. rewrite List.filter_app, length_app. reflexivity. Qed.

Lemma owed_app (budget r : nat) (l1 l2 : list Event) :
  owed budget r (l1 ++ l2) = (owed budget r l1 + owed budget r l2)%nat.
Proof. unfold owed. rewrite map_app, list_sum_app. reflexivity. Qed.

Lemma owed_cons (budget r : nat) (e : Event) (l : list Event) :
  owed budget r (e :: l) = (owes budget r e + owed budget r l)%nat.
Proof. reflexivity. Qed.

Lemma owed_single (budget r : nat) (e : Event) :
  owed budget r [e] = owes budget r e.
Proof. unfold owed. simpl. lia. Qed.

Lemma carried_pays (r : nat) (batch : list Event) :
  Forall withinRetries batch ->
  (Nat.b2n (existsb (fun ev => Nat.eqb (ev_ref ev) r) batch)
   + owed maxRetries r batch
   <= owed (S maxRetries) r batch)%nat.
Proof.
  induction batch as [|e rest IH]; intros Hall; [unfold owed; simpl; lia|].
  inversion Hall as [|? ? He Hrest]; subst. specialize (IH Hrest).
  rewrite !owed_cons. cbn [existsb]. unfold owes.
  unfold withinRetries in He. unfold maxRetries in *.
  destruct (Nat.eqb (ev_ref e) r); cbn [orb];
    destruct (existsb _ rest); simpl in *; lia.
Qed.

Lemma send_pays (r : nat) (isSync : bool) (batch : list Event) :
  Forall withinRetries batch ->
  (sendsOf r [Send isSync batch] + owed maxRetries r batch
   <= owed (S maxRetries) r batch)%nat.
Proof.
  intros Hall. pose proof (carried_pays r batch Hall) as H.
  unfold sendsOf. cbn [List.filter carries].
  destruct (existsb _ batch); simpl in *; lia.
Qed.

Lemma requeue_owed (r : nat) (batch : list Event) :
  forall queue,
    (owed (S maxRetries) r (requeue batch queue)
     <= owed maxRetries r batch + owed (S maxRetries) r queue)%nat.
Proof.
  unfold requeue.
  induction batch as [|e rest IH]; intros queue; [unfold owed; simpl; lia|].
  cbn [fold_left]. rewrite owed_cons.
  destruct (Nat.ltb (retriesOf e) maxRetries) eqn:Hlow.
  - specialize (IH (bump e :: queue)). rewrite owed_cons in IH.
    apply Nat.ltb_lt in Hlow. unfold owes in *. cbn [bump ev_ref retriesOf _retryCount] in IH.
    destruct (Nat.eqb (ev_ref e) r); lia.
  - specialize (IH queue). lia.
Qed.

Lemma requeue_within (batch : list Event) :
  forall queue,
    Forall withinRetries queue -> Forall withinRetries (requeue batch queue).
Proof.
  unfold requeue.
  induction batch as [|e rest IH]; intros queue Hq; [exact Hq|].
  cbn [fold_left]. apply IH.
  destruct (Nat.ltb (retriesOf e) maxRetries) eqn:Hlow; [|exact Hq].
  constructor; [|exact Hq].
  apply Nat.ltb_lt in Hlow. unfold withinRetries. cbn. lia.
Qed.

Lemma removeNth_sum (f : list Event -> nat) (k : nat) (l : list (list Event)) b :
  nth_error l k = Some b ->
  list_sum (map f l) = (f b + list_sum (map f (removeNth k l)))%nat.
Proof.
  intros Hk. destruct (nth_error_split l k Hk) as (l1 & l2 & -> & <-).
  unfold removeNth.
  rewrite firstn_app, Nat.sub_diag, firstn_all. cbn [firstn].
  rewrite skipn_app, (skipn_all2 l1) by lia.
  replace (S (length l1) - length l1)%nat with 1%nat by lia.
  cbn [skipn app]. rewrite app_nil_r.
  rewrite !map_app, !list_sum_app. simpl. rewrite skipn_O. lia.
Qed.

Lemma list_sum_map_snoc {A} (f : A -> nat) (l : list A) (b : A) :
  list_sum (map f (l ++ [b])) = (list_sum (map f l) + f b)%nat.
Proof. rewrite map_app, list_sum_app. simpl. lia. Qed.

Lemma sound_shrink (this that : Tracker) (trace trace' : list Effect) :
  sound this trace ->
  Forall withinRetries (eventQueue that) ->
  allocated that = allocated this ->
  (forall r, potential r that trace' <= potential r this trace)%nat ->
  sound that trace'.
Proof.
  intros [Hq Hpot] Hq' Halloc Hle. split; [exact Hq'|].
  intros r. destruct (Hpot r) as [Hmax Hzero]. specialize (Hle r). split.
  - lia.
  - rewrite Halloc. intros Hr. specialize (Hzero Hr). lia.
Qed.

Lemma flushQueue_sound (isSync : bool) (this : Tracker) (trace : list Effect) :
  sound this trace ->
  sound (fst (flushQueue isSync this)) (trace ++ snd (flushQueue isSync this)).
Proof.
  intros Hs. unfold flushQueue.
  destruct (Nat.eqb (length (eventQueue this)) 0 || negb (isOnline this)).
  - cbn [fst snd]. rewrite app_nil_r. exact Hs.
  - cbn [fst snd].
    pose proof (firstn_skipn batchSize (eventQueue this)) as Hsplit.
    destruct Hs as [Hq Hpot].
    assert (Forall withinRetries (firstn batchSize (eventQueue this))
            /\ Forall withinRetries (skipn batchSize (eventQueue this)))
      as [Hbatch Hrest].
    { rewrite <- Hsplit in Hq. apply Forall_app in Hq. exact Hq. }
    apply (sound_shrink this _ trace); [split; assumption|exact Hrest|reflexivity|].
    intros r. unfold potential. cbn [eventQueue inFlight].
    rewrite sendsOf_app.
    pose proof (send_pays r isSync _ Hbatch) as Hpay.
    assert (owed (S maxRetries) r (eventQueue this)
            = owed (S maxRetries) r (firstn batchSize (eventQueue this))
              + owed (S maxRetries) r (skipn batchSize (eventQueue this)))%nat
      as Hsum by (rewrite <- owed_app, Hsplit; reflexivity).
    destruct isSync.
    + lia.
    + rewrite list_sum_map_snoc. lia.
Qed.

Lemma track_sound (eventName : string) (eventData : list (string * string))
    (this : Tracker) (trace : list Effect) :
  sound this trace ->
  sound (fst (track eventName eventData this))
        (trace ++ snd (track eventName eventData this)).
Proof.
  intros [Hq Hpot]. unfold track, addToQueue.
  cbn [eventQueue isOnline inFlight allocated].
  set (event := mkEvent (allocated this) eventName eventData None).
  set (that := {| eventQueue := eventQueue this ++ [event];
                  isOnline := isOnline this;
                  inFlight := inFlight this;
                  allocated := S (allocated this) |}).
  assert (sound that trace) as Hthat.
  { split.
    - cbn [that eventQueue]. apply Forall_app. split; [exact Hq|].
      constructor; [|constructor]. unfold withinRetries. cbn. lia.
    - intros r. destruct (Hpot r) as [Hmax Hzero].
      unfold potential in *. cbn [that eventQueue inFlight allocated].
      rewrite owed_app, owed_single.
      unfold owes. cbn [event ev_ref retriesOf _retryCount].
      destruct (Nat.eqb (allocated this) r) eqn:Hr.
      + apply Nat.eqb_eq in Hr. subst r.
        specialize (Hzero (Nat.le_refl _)). unfold maxRetries in *. lia.
      + apply Nat.eqb_neq in Hr. split; [lia|]. intros Hge. lia. }
  destruct (Nat.leb batchSize (length (eventQueue this ++ [event]))).
  - apply flushQueue_sound. exact Hthat.
  - cbn [fst snd]. rewrite app_nil_r. exact Hthat.
Qed.

Lemma settle_sound (k : nat) (network : list bool) (this : Tracker)
    (trace : list Effect) :
  sound this trace -> sound (settle k network this) trace.
Proof.
  intros Hs. unfold settle.
  destruct (nth_error (inFlight this) k) as [batch|] eqn:Hk; [|exact Hs].
  destruct Hs as [Hq Hpot].
  destruct (fst (sendAsync network 0)).
  - apply (sound_shrink this _ trace); [split; assumption|exact Hq|reflexivity|].
    intros r. unfold potential. cbn [eventQueue inFlight].
    rewrite (removeNth_sum (owed maxRetries r) k _ batch Hk). lia.
  - apply (sound_shrink this _ trace);
      [split; assumption|apply requeue_within; exact Hq|reflexivity|].
    intros r. unfold potential. cbn [eventQueue inFlight].
    rewrite (removeNth_sum (owed maxRetries r) k _ batch Hk).
    pose proof (requeue_owed r batch (eventQueue this)). lia.
Qed.

Lemma clearQueue_sound (this : Tracker) (trace : list Effect) :
  sound this trace -> sound (clearQueue this) trace.
Proof.
  intros Hs. apply (sound_shrink this _ trace); [exact Hs|constructor|reflexivity|].
  intros r. unfold potential. cbn [clearQueue eventQueue inFlight].
  change (owed (S maxRetries) r []) with 0%nat. lia.
Qed.

Lemma step_sound (a : Action) (this : Tracker) (trace : list Effect) :
  sound this trace ->
  sound (fst (step a this)) (trace ++ snd (step a this)).
Proof.
  intros Hs. destruct a; cbn [step].
  - apply track_sound. exact Hs.
  - unfold timerFires. destruct (Nat.ltb 0 (length (eventQueue this))).
    + apply flushQueue_sound. exact Hs.
    + cbn [fst snd]. rewrite app_nil_r. exact Hs.
  - apply flushQueue_sound. exact Hs.
  - cbn [fst snd]. rewrite app_nil_r. exact Hs.
  - apply flushQueue_sound. exact Hs.
  - apply flushQueue_sound. exact Hs.
  - apply flushQueue_sound. exact Hs.
  - cbn [fst snd]. rewrite app_nil_r. apply clearQueue_sound. exact Hs.
  - cbn [fst snd]. rewrite app_nil_r. apply settle_sound. exact Hs.
Qed.

Lemma run_sound (actions : list Action) :
  forall (this : Tracker) (trace : list Effect),
    sound this trace ->
    sound (fst (run actions this)) (trace ++ snd (run actions this)).
Proof.
  induction actions as [|a rest IH]; intros this trace Hs.
  - cbn [run fst snd]. rewrite app_nil_r. exact Hs.
  - cbn [run]. pose proof (step_sound a this trace Hs) as H1.
    destruct (step a this) as [this1 out1]. cbn [fst snd] in H1.
    specialize (IH this1 (trace ++ out1) H1).
    destruct (run rest this1) as [this2 out2]. cbn [fst snd] in *.
    rewrite app_assoc. exact IH.
Qed.

Lemma initial_sound (online : bool) : sound (initial online) [].
Proof.
  split; [constructor|]. intros r. unfold potential, owed, sendsOf.
  cbn. split; [lia|reflexivity].
Qed.

(** The bound is reached: an event whose sends keep failing is sent four
    times and is then gone from the queue. *)
Example unlucky_event_sent_four_times :
  sendsOf 0 (snd (run Samples.unlucky (initial true))) = 4%nat
  /\ eventQueue (fst (run Samples.unlucky (initial true))) = [].
Proof. vm_compute. split; reflexivity. Qed.

Lemma sendAsyncLoop_delays (remaining : nat) :
  forall retryCount network,
    (length (snd (sendAsyncLoop remaining retryCount network)) <= remaining)%nat.
Proof.
  induction remaining as [|remaining IH]; intros retryCount network.
  - destruct network as [|[|] rest]; cbn; lia.
  - destruct network as [|[|] rest]; cbn [sendAsyncLoop snd length]; try lia.
    + specialize (IH (S retryCount) (tl [])).
      destruct (sendAsyncLoop remaining (S retryCount) (tl [])). cbn in *. lia.
    + specialize (IH (S retryCount) (tl (false :: rest))).
      destruct (sendAsyncLoop remaining (S retryCount) (tl (false :: rest))).
      cbn in *. lia.
Qed.

(** C7.  When the send of a batch fails, each event of the batch goes
    back to the queue only if its retry count is below the ceiling
    ([maxRetries] = 3), its count raised by one; an event that has reached
    the ceiling is left out, and the queue in memory is all that is
    written.  Hence in every run of the tracker a queued event never
    carries a count above the ceiling, and no event object is handed to a
    send more than once plus [maxRetries] times; one send repeats its
    request at most [maxRetries] times. *)
Theorem retries_bounded :
  forall (actions : list Action) (online : bool) (r : nat),
    (forall eventsToSend queue,
       requeue eventsToSend queue
       = rev (map bump (List.filter belowCeiling eventsToSend)) ++ queue)
    /\ (forall network,
          (length (snd (sendAsync network 0)) <= maxRetries)%nat)
    /\ Forall withinRetries (eventQueue (fst (run actions (initial online))))
    /\ (sendsOf r (snd (run actions (initial online))) <= 1 + maxRetries)%nat.
Proof.
  intros actions online r. split; [exact requeue_spec|].
  split; [intros network; apply sendAsyncLoop_delays|].
  pose proof (run_sound actions (initial online) [] (initial_sound online))
    as [Hq Hpot].
  cbn [app] in *. split; [exact Hq|].
  destruct (Hpot r) as [Hmax _]. unfold potential in Hmax.
  unfold maxRetries in *. lia.
Qed.

End ServerTrackerFacts.

(** ** Like counter *)

Module LikesFacts.
Import Http Likes.

Lemma matches_refl (pageId : string) (n : Z) : matches pageId (mkRow pageId n) = true.
Proof. unfold matches. cbn. apply String.eqb_refl. Qed.

Lemma filter_patched (pageId : string) (newCount : Z) (table : list Row) :
  List.filter (matches pageId)
    (map (fun r => if matches pageId r then mkRow (page_id r) newCount else r) table)
  = map (fun r => mkRow (page_id r) newCount) (List.filter (matches pageId) table).
Proof.
  induction table as [|r rest IH]; [reflexivity|].
  cbn [map List.filter]. destruct (matches pageId r) eqn:Hm.
  - unfold matches in *. cbn [page_id]. rewrite Hm. cbn [map]. now rewrite IH.
  - rewrite Hm. exact IH.
Qed.

Lemma binary64_exact (z : Z) : Z.abs z <= 2 ^ 53 -> binary64 z = z.
Proof.
  intros Hz. unfold binary64.
  destruct (Z.abs z <? 2 ^ 53) eqn:Hlt; [reflexivity|].
  apply Z.ltb_ge in Hlt.
  assert (z = 2 ^ 53 \/ z = - 2 ^ 53) as [-> | ->] by lia; reflexivity.
Qed.

Lemma binary64_next (n : Z) :
  - 2 ^ 53 < n < 2 ^ 53 -> binary64 (binary64 n + 1) = n + 1.
Proof.
  intros Hn. rewrite (binary64_exact n) by lia. apply binary64_exact. lia.
Qed.

Lemma supabaseRequest_up (q : Query) (table : list Row) :
  supabaseRequest q (mkStore table [])
  = (Some (fst (apply q table)), mkStore (snd (apply q table)) []).
Proof.
  unfold supabaseRequest. cbn [replies rows hd tl].
  destruct (apply q table). reflexivity.
Qed.

Lemma getLikeCount_up (pageId : string) (table : list Row) :
  getLikeCount pageId (mkStore table [])
  = (binary64 (default 0 (stored pageId (mkStore table []))), mkStore table []).
Proof.
  unfold getLikeCount, stored. rewrite supabaseRequest_up.
  cbn [apply fst snd rows].
  destruct (List.filter (matches pageId) table); reflexivity.
Qed.

Lemma incrementLike_new (pageId : string) (table : list Row) :
  stored pageId (mkStore table []) = None ->
  exists table',
    incrementLike pageId (mkStore table []) = (Some 1, mkStore table' [])
    /\ stored pageId (mkStore table' []) = Some 1.
Proof.
  unfold incrementLike, stored. rewrite supabaseRequest_up.
  cbn [apply fst snd rows].
  destruct (List.filter (matches pageId) table) as [|first others] eqn:Hfound;
    [intros _|discriminate].
  rewrite supabaseRequest_up. cbn [apply fst snd].
  exists (table ++ [mkRow pageId 1]). split; [reflexivity|].
  rewrite List.filter_app, Hfound. cbn [List.filter app].
  rewrite matches_refl. reflexivity.
Qed.

Lemma incrementLike_old (pageId : string) (table : list Row) (n : Z) :
  stored pageId (mkStore table []) = Some n ->
  exists table',
    incrementLike pageId (mkStore table [])
    = (Some (binary64 (binary64 n + 1)), mkStore table' [])
    /\ stored pageId (mkStore table' []) = Some (binary64 (binary64 n + 1)).
Proof.
  unfold incrementLike, stored. rewrite supabaseRequest_up.
  cbn [apply fst snd rows].
  destruct (List.filter (matches pageId) table) as [|first others] eqn:Hfound;
    [discriminate|].
  intros Hn. injection Hn as Hn. rewrite Hn.
  rewrite supabaseRequest_up. cbn [apply fst snd].
  eexists. split; [reflexivity|].
  rewrite filter_patched, Hfound. reflexivity.
Qed.

Lemma incrementLike_up (pageId : string) (table : list Row) :
  - 2 ^ 53 < default 0 (stored pageId (mkStore table [])) < 2 ^ 53 ->
  exists table',
    incrementLike pageId (mkStore table [])
    = (Some (default 0 (stored pageId (mkStore table [])) + 1), mkStore table' [])
    /\ stored pageId (mkStore table' [])
       = Some (default 0 (stored pageId (mkStore table [])) + 1).
Proof.
  destruct (stored pageId (mkStore table [])) as [n|] eqn:Hstored;
    cbn [default]; intros Hn.
  - destruct (incrementLike_old pageId table n Hstored) as (table' & Hinc & Hafter).
    rewrite (binary64_next n Hn) in *. exists table'. split; assumption.
  - destruct (incrementLike_new pageId table Hstored) as (table' & Hinc & Hafter).
    exists table'. split; assumption.
Qed.



(** Beyond that range the sum is rounded: at a stored count of 2^53 a
    POST answers 2^53 and leaves it stored. *)
Lemma like_counter_rounds :
  exists after,
    handler Samples.production Samples.anonymousLike
      (mkStore [mkRow "posts/hello/" (2 ^ 53)] [])
    = (Responded (mkResponse 200 (LikeIncremented "posts/hello/" (2 ^ 53))), after)
    /\ stored "posts/hello/" after = Some (2 ^ 53).
Proof. eexists. split; vm_compute; reflexivity. Qed.

End LikesFacts.

(** ** Strings *)

Module TextFacts.
Import Text.

Lemma append_cons (d : ascii) (a b : string) :
  String d a +++ b = String d (a +++ b).
Proof. reflexivity. Qed.

Lemma chars_app (a b : string) :
  list_ascii_of_string (a +++ b) = list_ascii_of_string a ++ list_ascii_of_string b.
Proof. induction a as [|c a IH]; [reflexivity|]. simpl. now rewrite IH. Qed.

Lemma of_chars_app (l k : list ascii) :
  string_of_list_ascii (l ++ k) = string_of_list_ascii l +++ string_of_list_ascii k.
Proof. induction l as [|c l IH]; [reflexivity|]. simpl. now rewrite IH. Qed.

Lemma chars_length (s : string) :
  length (list_ascii_of_string s) = String.length s.
Proof. induction s as [|c s IH]; [reflexivity|]. simpl. now rewrite IH. Qed.

Lemma revString_app (a b : string) :
  JS.revString (a +++ b) = JS.revString b +++ JS.revString a.
Proof. unfold JS.revString. now rewrite chars_app, rev_app_distr, of_chars_app. Qed.

Lemma revString_involutive (s : string) : JS.revString (JS.revString s) = s.
Proof.
  unfold JS.revString.
  now rewrite list_ascii_of_string_of_list_ascii, rev_involutive,
    string_of_list_ascii_of_string.
Qed.

Lemma prefix_split (p s : string) :
  String.prefix p s = true -> exists r, s = p +++ r.
Proof.
  revert s. induction p as [|c p IH]; intros s H.
  - exists s. reflexivity.
  - destruct s as [|d s]; [discriminate|]. cbn in H.
    destruct (ascii_dec c d) as [->|]; [|discriminate].
    destruct (IH s H) as [r ->]. exists r. reflexivity.
Qed.

Lemma endsWith_split (suffix s : string) :
  endsWith suffix s = true -> exists stem, s = stem +++ suffix.
Proof.
  unfold endsWith. intros H. destruct (prefix_split _ _ H) as [r Hr].
  exists (JS.revString r).
  rewrite <- (revString_involutive s), Hr, revString_app, revString_involutive.
  reflexivity.
Qed.

Lemma lastIndexOf_app (c : ascii) (a b : string) (i : nat) :
  lastIndexOf c b = Some i ->
  lastIndexOf c (a +++ b) = Some (String.length a + i)%nat.
Proof.
  intros Hb. induction a as [|d a IH]; [exact Hb|].
  simpl. now rewrite IH.
Qed.

Lemma sliceTo_app (a b : string) : sliceTo (String.length a) (a +++ b) = a.
Proof.
  unfold sliceTo. rewrite chars_app, <- chars_length.
  rewrite firstn_app, Nat.sub_diag, firstn_all. cbn [firstn].
  now rewrite app_nil_r, string_of_list_ascii_of_string.
Qed.

Lemma sliceFrom_app (a b : string) : sliceFrom (String.length a) (a +++ b) = b.
Proof.
  unfold sliceFrom. rewrite chars_app, <- chars_length.
  rewrite skipn_app, Nat.sub_diag, skipn_all, skipn_O. cbn [app].
  now rewrite string_of_list_ascii_of_string.
Qed.

Lemma append_assoc (a b c : string) : (a +++ b) +++ c = a +++ b +++ c.
Proof.
  induction a as [|d a IH]; [reflexivity|].
  rewrite !append_cons. f_equal. exact IH.
Qed.

(** The renaming of the post function on a Markdown path. *)
Lemma renamed_md (stem : string) (now : Z) :
  PostApi.renamed (stem +++ ".md") now = stem +++ "-" +++ JS.stamp6 now +++ ".md".
Proof.
  unfold PostApi.renamed.
  rewrite (lastIndexOf_app "." stem ".md" 0 eq_refl), Nat.add_0_r.
  now rewrite sliceTo_app, sliceFrom_app.
Qed.

Lemma digitsOfPos_digits (fuel : nat) :
  forall n acc,
    JS.allDigits acc = true -> JS.allDigits (JS.digitsOfPos fuel n acc) = true.
Proof.
  induction fuel as [|fuel IH]; intros n acc Hacc; [exact Hacc|].
  cbn [JS.digitsOfPos].
  assert (JS.allDigits
            (String (ascii_of_nat (48 + Z.to_nat (n mod 10))) acc) = true) as H.
  { unfold JS.allDigits in *. cbn [list_ascii_of_string forallb].
    rewrite Hacc, andb_true_r. unfold JS.isDigit, JS.charCode.
    pose proof (Z.mod_pos_bound n 10 ltac:(lia)) as Hd.
    pose proof (nat_ascii_embedding (48 + Z.to_nat (n mod 10)) ltac:(lia)) as He.
    unfold nat_of_ascii in He.
    apply andb_true_iff. split; apply Z.leb_le; lia. }
  destruct (n / 10 =? 0); [exact H|apply IH; exact H].
Qed.

Lemma digitsOfPos_grows (fuel : nat) :
  forall n acc,
    (String.length acc <= String.length (JS.digitsOfPos fuel n acc))%nat.
Proof.
  induction fuel as [|fuel IH]; intros n acc; [cbn; lia|].
  cbn [JS.digitsOfPos]. destruct (n / 10 =? 0).
  - cbn. lia.
  - etransitivity; [|apply IH]. cbn. lia.
Qed.

Lemma digitsOfPos_long (k : nat) :
  forall fuel n acc,
    10 ^ Z.of_nat k <= n -> (k < fuel)%nat ->
    (String.length acc + S k <= String.length (JS.digitsOfPos fuel n acc))%nat.
Proof.
  induction k as [|k IH]; intros fuel n acc Hn Hfuel.
  - destruct fuel as [|fuel]; [lia|]. cbn [JS.digitsOfPos].
    destruct (n / 10 =? 0).
    + cbn. lia.
    + etransitivity; [|apply digitsOfPos_grows]. cbn. lia.
  - destruct fuel as [|fuel]; [lia|]. cbn [JS.digitsOfPos].
    assert (10 ^ Z.of_nat k <= n / 10) as Hdiv.
    { rewrite Nat2Z.inj_succ, Z.pow_succ_r in Hn by lia.
      apply Z.div_le_lower_bound; lia. }
    assert (0 < 10 ^ Z.of_nat k) by (apply Z.pow_pos_nonneg; lia).
    destruct (n / 10 =? 0) eqn:Hz; [apply Z.eqb_eq in Hz; lia|].
    etransitivity; [|apply IH; [exact Hdiv|lia]]. cbn. lia.
Qed.

(** For a clock past 100 seconds the stamp is six decimal digits. *)
Lemma stamp6_six_digits (now : Z) :
  100000 <= now ->
  String.length (JS.stamp6 now) = 6%nat /\ JS.allDigits (JS.stamp6 now) = true.
Proof.
  intros Hnow. unfold JS.stamp6, JS.sliceLast, JS.decimal.
  destruct (now <? 0) eqn:Hneg; [apply Z.ltb_lt in Hneg; lia|].
  set (fuel := S (Z.to_nat (Z.log2 now))).
  assert (16 <= Z.log2 now) as Hlog.
  { apply Z.log2_le_pow2; lia. }
  pose proof (digitsOfPos_long 5 fuel now EmptyString ltac:(simpl; lia)
                ltac:(unfold fuel; lia)) as Hlong.
  pose proof (digitsOfPos_digits fuel now EmptyString eq_refl) as Hdig.
  set (s := JS.digitsOfPos fuel now EmptyString) in *.
  rewrite <- (chars_length s) in Hlong. cbn [String.length] in Hlong. split.
  - rewrite <- chars_length, list_ascii_of_string_of_list_ascii, length_skipn. lia.
  - unfold JS.allDigits in *. rewrite list_ascii_of_string_of_list_ascii.
    rewrite forallb_forall in *. intros c Hc. apply Hdig.
    rewrite <- (firstn_skipn (length (list_ascii_of_string s) - 6)).
    apply in_or_app. right. exact Hc.
Qed.

End TextFacts.

(** ** Write handlers: access key, validation, upstream failures *)

Module HandlerFacts.
Import Http GitHub Text.

(** The branch of a shape lemma in which the handler has answered before
    any call. *)
Ltac answered_early := left; eexists; split; [reflexivity|discriminate].


Section WithWorld.
Context {World : Type}.
Variable fetch : Call -> World -> FetchResult * World.
Variable Date_now : World -> Z.
Variable rtPost : PostApi.Runtime.
Variable rtNote : NoteApi.Runtime.

Local Abbreviation postHandler := (PostApi.handler fetch Date_now rtPost).
Local Abbreviation noteHandler := (NoteApi.handler fetch Date_now rtNote).



Lemma blank_test (v : JS.value) :
  missingOrBlank v ->
  negb (JS.truthy v) || String.eqb (JS.trim (JS.toStr v)) EmptyString = true.
Proof.
  intros [-> | (s & -> & Hs)]; [reflexivity|].
  cbn [JS.toStr]. rewrite Hs. apply orb_true_r.
Qed.

Lemma accepted_test (env : Env) (req : Request) :
  configured env = true ->
  accessKeyHeader req = WRITE_ACCESS_KEY env ->
  negb (present (GITHUB_TOKEN env)) || negb (present (GITHUB_REPO env))
  || negb (present (WRITE_ACCESS_KEY env)) = false
  /\ negb (present (accessKeyHeader req))
     || negb (bool_decide (accessKeyHeader req = WRITE_ACCESS_KEY env)) = false.
Proof.
  unfold configured. intros Hc Hk.
  apply andb_true_iff in Hc as [Hc H3]. apply andb_true_iff in Hc as [H1 H2].
  rewrite H1, H2, H3, Hk, H3. split; [reflexivity|].
  rewrite bool_decide_eq_true_2 by reflexivity. reflexivity.
Qed.

(** The post function answers 400 and calls nothing when the title or the
    body is missing or blank. *)
Lemma post_required_fields (env : Env) (req : Request) (w : World) :
  method req = "POST" ->
  configured env = true ->
  accessKeyHeader req = WRITE_ACCESS_KEY env ->
  missingOrBlank (field (default ∅ (body req)) "title")
  \/ missingOrBlank (field (default ∅ (body req)) "body") ->
  exists msg,
    postHandler env req w = (Responded (mkResponse 400 (ErrorJson msg None)), w, []).
Proof.
  intros Hm Hc Hk Hblank. destruct (accepted_test env req Hc Hk) as [Henv Hauth].
  unfold PostApi.handler. rewrite Hm. cbn [String.eqb Ascii.eqb negb].
  rewrite Henv, Hauth.
  destruct (negb (JS.truthy (field (default ∅ (body req)) "title"))
            || String.eqb (JS.trim (JS.toStr (field (default ∅ (body req)) "title")))
                 EmptyString) eqn:Htitle.
  - eexists. reflexivity.
  - destruct Hblank as [Hb | Hb].
    + rewrite (blank_test _ Hb) in Htitle. discriminate.
    + rewrite (blank_test _ Hb). eexists. reflexivity.
Qed.

(** The note function does the same once the request has a body whose
    earlier fields are strings. *)
Lemma note_required_fields (env : Env) (req : Request) (w : World)
    (fields : gmap string JS.value) :
  method req = "POST" ->
  configured env = true ->
  accessKeyHeader req = WRITE_ACCESS_KEY env ->
  body req = Some fields ->
  missingOrBlank (field fields "title")
  \/ (NoteApi.blankText (field fields "title") = Some false
      /\ missingOrBlank (field fields "content"))
  \/ (NoteApi.blankText (field fields "title") = Some false
      /\ NoteApi.blankText (field fields "content") = Some false
      /\ (field fields "tags" = JS.VUndefined \/ field fields "tags" = JS.VArr [])) ->
  exists msg,
    noteHandler env req w = (Responded (mkResponse 400 (ErrorJson msg None)), w, []).
Proof.
  intros Hm Hc Hk Hbody Hblank.
  destruct (accepted_test env req Hc Hk) as [Henv Hauth].
  assert (forall v, missingOrBlank v -> NoteApi.blankText v = Some true) as Hbt.
  { intros v [-> | (s & -> & Hs)]; [reflexivity|].
    unfold NoteApi.blankText. destruct (JS.truthy (JS.VStr s)); [|reflexivity].
    cbn. now rewrite Hs. }
  unfold NoteApi.handler. rewrite Hm. cbn [String.eqb Ascii.eqb negb].
  rewrite Henv, Hauth, Hbody.
  destruct Hblank as [Ht | [[Ht Hcont] | (Ht & Hcont & Htags)]].
  - rewrite (Hbt _ Ht). eexists. reflexivity.
  - rewrite Ht, (Hbt _ Hcont). eexists. reflexivity.
  - rewrite Ht, Hcont. destruct Htags as [-> | ->]; eexists; reflexivity.
Qed.


(** C5 at the failing input: an authenticated POST without a body.  Every
    required field is missing; the post function answers 400, the note
    function raises a TypeError while destructuring [req.body] and writes
    no response.  Neither calls GitHub. *)
Theorem note_without_body_uncaught :
  forall (w : World),
    postHandler Samples.production Samples.bodyless w
    = (Responded (mkResponse 400 (ErrorJson "标题不能为空" None)), w, [])
    /\ noteHandler Samples.production Samples.bodyless w
       = (Uncaught "TypeError", w, []).
Proof. intros w. split; reflexivity. Qed.

Lemma diagnostic_spec (env : Env) (message : string) :
  diagnostic env message
  = if bool_decide (NODE_ENV env = Some "development") then Some message else None.
Proof.
  unfold diagnostic. destruct (NODE_ENV env) as [mode|]; [|reflexivity].
  destruct (String.eqb mode "development") eqn:Hmode.
  - apply String.eqb_eq in Hmode. subst. reflexivity.
  - apply String.eqb_neq in Hmode.
    rewrite bool_decide_eq_false_2; [reflexivity|congruence].
Qed.

Lemma hasStatus_false (error : JsError) (code : Z) :
  err_status error <> Some code -> hasStatus error code = false.
Proof.
  unfold hasStatus. destruct (err_status error) as [st|]; [|reflexivity].
  intros Hne. apply Z.eqb_neq. congruence.
Qed.

Lemma settled_refused (status : Z) json :
  ok status = false ->
  exists message, settled (Answer status json) = inr (mkError (Some status) message).
Proof. intros Hok. unfold settled. rewrite Hok. eexists. reflexivity. Qed.

Lemma isValidFilename_md (v : JS.value) :
  PostApi.isValidFilename v = true -> exists stem, JS.toStr v = stem +++ ".md".
Proof.
  destruct v; try discriminate. cbn [PostApi.isValidFilename JS.toStr].
  intros H. apply andb_true_iff in H as [H _]. apply andb_true_iff in H as [H _].
  exact (TextFacts.endsWith_split _ _ H).
Qed.

(** The two ways an invocation of the post function can go: an answer
    without any call, or one run of [commitToGitHub] on a Markdown path
    whose result decides the answer. *)
Lemma post_shape (env : Env) (req : Request) (w : World) :
  (exists r, postHandler env req w = (Responded r, w, [])
             /\ forall u f c, document r <> PostCreated u f c)
  \/ (exists token repo stem content message result w' trace reply,
        PostApi.commitToGitHub fetch Date_now rtPost token repo
          (stem +++ ".md") content message w = (result, w', trace)
        /\ postHandler env req w = (reply, w', trace)
        /\ match result with
           | inl _ => exists u f c,
               reply = Responded (mkResponse 200 (PostCreated u f c))
           | inr error => reply = Responded (PostApi.onError env error)
           end).
Proof.
  unfold PostApi.handler.
  destruct (String.eqb (method req) "OPTIONS");
    [answered_early|].
  destruct (negb (String.eqb (method req) "POST"));
    [answered_early|].
  destruct (negb (present (GITHUB_TOKEN env)) || negb (present (GITHUB_REPO env))
            || negb (present (WRITE_ACCESS_KEY env)));
    [answered_early|].
  destruct (negb (present (accessKeyHeader req))
            || negb (bool_decide (accessKeyHeader req = WRITE_ACCESS_KEY env)));
    [answered_early|].
  set (fields := default ∅ (body req)).
  destruct (negb (JS.truthy (field fields "title")) || _);
    [answered_early|].
  destruct (negb (JS.truthy (field fields "body")) || _);
    [answered_early|].
  right.
  match goal with
  | |- context [PostApi.commitToGitHub _ _ _ ?token ?repo ?path ?content ?message w] =>
      assert (exists stem, path = stem +++ ".md") as [stem Hstem];
      [|rewrite Hstem;
        destruct (PostApi.commitToGitHub fetch Date_now rtPost token repo
                    (stem +++ ".md") content message w)
          as [[result w'] trace] eqn:Hcommit;
        exists token, repo, stem, content, message, result, w', trace]
  end.
  - destruct (PostApi.isValidFilename (field fields "filename")) eqn:Hvalid.
    + destruct (isValidFilename_md _ Hvalid) as [stem ->].
      exists ("_posts/" +++ stem). now rewrite TextFacts.append_assoc.
    + eexists. rewrite <- !TextFacts.append_assoc. reflexivity.
  - destruct result; eexists; (split; [exact Hcommit|]);
      (split; [reflexivity|]); [do 3 eexists|]; reflexivity.
Qed.

Lemma post_commit_trace token repo filepath content message (w w' : World)
    result trace :
  PostApi.commitToGitHub fetch Date_now rtPost token repo filepath content
    message w = (result, w', trace) ->
  exists checkResponse w1 target response,
    fetch (GetContents repo filepath token PostApi.agent) w = (checkResponse, w1)
    /\ fetch (PutContents repo target token PostApi.agent
                (mkPayload message (PostApi.base64 rtPost content) "main"
                   bazinga bazinga None)) w1 = (response, w')
    /\ target = match checkResponse with
                | Answer status _ =>
                    if ok status then PostApi.renamed filepath (Date_now w1)
                    else filepath
                | NetworkError _ => filepath
                end
    /\ result = settled response
    /\ trace = [ (GetContents repo filepath token PostApi.agent, checkResponse);
                 (PutContents repo target token PostApi.agent
                    (mkPayload message (PostApi.base64 rtPost content) "main"
                       bazinga bazinga None), response) ].
Proof.
  unfold PostApi.commitToGitHub.
  destruct (fetch (GetContents repo filepath token PostApi.agent) w)
    as [checkResponse w1].
  match goal with
  | |- context [fetch (PutContents ?r ?t ?k ?a ?p) w1] =>
      destruct (fetch (PutContents r t k a p) w1) as [response w2] eqn:Hput
  end.
  intros H. injection H as <- <- <-.
  exists checkResponse, w1. do 2 eexists.
  split; [reflexivity|]. split; [exact Hput|]. repeat split; reflexivity.
Qed.

Lemma note_shape (env : Env) (req : Request) (w : World) :
  (exists out, noteHandler env req w = (out, w, [])
               /\ forall m u f c, out <> Responded (mkResponse 200 (NoteCreated m u f c)))
  \/ (exists token repo path content message result w' trace reply,
        NoteApi.commitToGitHub fetch Date_now rtNote token repo path content
          message w = (result, w', trace)
        /\ noteHandler env req w = (reply, w', trace)
        /\ match result with
           | inl _ => exists m u f c,
               reply = Responded (mkResponse 200 (NoteCreated m u f c))
           | inr error => reply = Responded (NoteApi.onError env error)
           end).
Proof.
  unfold NoteApi.handler.
  destruct (String.eqb (method req) "OPTIONS");
    [answered_early|].
  destruct (negb (String.eqb (method req) "POST"));
    [answered_early|].
  destruct (negb (present (GITHUB_TOKEN env)) || negb (present (GITHUB_REPO env))
            || negb (present (WRITE_ACCESS_KEY env)));
    [answered_early|].
  destruct (negb (present (accessKeyHeader req))
            || negb (bool_decide (accessKeyHeader req = WRITE_ACCESS_KEY env)));
    [answered_early|].
  destruct (body req) as [fields|];
    [|answered_early].
  destruct (NoteApi.blankText (field fields "title")) as [[|]|];
    try answered_early.
  destruct (NoteApi.blankText (field fields "content")) as [[|]|];
    try answered_early.
  destruct (field fields "tags") as [| | | | |[|first others]|];
    try answered_early.
  destruct (NoteApi.trimAll (first :: others)) as [trimmed|];
    [|answered_early].
  destruct (firstn 10 _) as [|tag tags] eqn:Htags;
    [answered_early|].
  right.
  match goal with
  | |- context [NoteApi.commitToGitHub _ _ _ ?token ?repo ?path ?content ?message w] =>
      destruct (NoteApi.commitToGitHub fetch Date_now rtNote token repo
                  path content message w)
        as [[result w'] trace] eqn:Hcommit;
      exists token, repo, path, content, message, result, w', trace
  end.
  destruct result; eexists; (split; [exact Hcommit|]);
    (split; [reflexivity|]); [do 4 eexists|]; reflexivity.
Qed.

Lemma note_commit_trace token repo filepath content message (w w' : World)
    result trace :
  NoteApi.commitToGitHub fetch Date_now rtNote token repo filepath content
    message w = (result, w', trace) ->
  exists check put response,
    result = settled response /\ trace = [check; (put, response)].
Proof.
  unfold NoteApi.commitToGitHub.
  destruct (fetch (GetContents repo filepath token NoteApi.agent) w)
    as [checkResponse w1].
  match goal with
  | |- context [fetch (PutContents ?r ?t ?k ?a ?p) w1] =>
      destruct (fetch (PutContents r t k a p) w1) as [response w2] eqn:Hput
  end.
  intros H. injection H as <- <- <-.
  do 3 eexists. split; reflexivity.
Qed.

Lemma onError_mapped (env : Env) (response : FetchResult) (out : Outcome) :
  (forall error, settled response = inr error ->
     out = Responded (PostApi.onError env error)) ->
  Upstream.mapped env response out.
Proof.
  intros Hout. unfold Upstream.mapped. split; [|split].
  - intros json ->. destruct (settled_refused 422 json eq_refl) as [m Hs].
    rewrite (Hout _ Hs). reflexivity.
  - intros json ->. destruct (settled_refused 403 json eq_refl) as [m Hs].
    rewrite (Hout _ Hs). reflexivity.
  - intros error Hs H422 H403. rewrite (Hout _ Hs).
    unfold PostApi.onError.
    rewrite (hasStatus_false _ _ H422), (hasStatus_false _ _ H403).
    rewrite diagnostic_spec. reflexivity.
Qed.

(** What the [catch] block of both handlers does with an error of the
    commit: a write that GitHub refuses with status 422 is answered 400,
    one refused with 403 is answered 403 with a generic message, and any
    other error thrown by the commit is answered 500 whose [details] field
    is present exactly when [NODE_ENV] is [development]. *)
Theorem upstream_failures_mapped :
  forall (env : Env) (posted noted : Request) (w wPost wNote : World)
         outPost checkPost putPost responsePost
         outNote checkNote putNote responseNote,
    postHandler env posted w = (outPost, wPost, [checkPost; (putPost, responsePost)]) ->
    noteHandler env noted w = (outNote, wNote, [checkNote; (putNote, responseNote)]) ->
    Upstream.mapped env responsePost outPost
    /\ Upstream.mapped env responseNote outNote.
Proof.
  intros env posted noted w wPost wNote outPost checkPost putPost responsePost
    outNote checkNote putNote responseNote HP HN.
  split; apply onError_mapped; intros error Hs.
  - destruct (post_shape env posted w)
      as [(r & Hr & _) | (tk & rp & stem & ct & msg & result & w' & trace & reply
                          & Hc & Hh & Hreply)].
    + rewrite Hr in HP. discriminate HP.
    + rewrite Hh in HP. injection HP as -> -> ->.
      destruct (post_commit_trace _ _ _ _ _ _ _ _ _ Hc)
        as (cr & w1 & target & response & _ & _ & _ & -> & Htrace).
      injection Htrace as _ _ <-. rewrite Hs in Hreply. exact Hreply.
  - destruct (note_shape env noted w)
      as [(r & Hr & _) | (tk & rp & path & ct & msg & result & w' & trace & reply
                          & Hc & Hh & Hreply)].
    + rewrite Hr in HN. discriminate HN.
    + rewrite Hh in HN. injection HN as -> -> ->.
      destruct (note_commit_trace _ _ _ _ _ _ _ _ _ Hc)
        as (check & put & response & -> & Htrace).
      injection Htrace as _ _ <-. rewrite Hs in Hreply. exact Hreply.
Qed.

End WithWorld.


Lemma upstream_failures_mapped_witness :
  statusOf (fst (fst (PostApi.handler (Samples.refusing 422) Samples.noon
                        Samples.frozenPost Samples.production Samples.complete tt)))
  = Some 400
  /\ statusOf (fst (fst (NoteApi.handler (Samples.refusing 422) Samples.noon
                           Samples.frozenNote Samples.production Samples.complete tt)))
     = Some 400.
Proof.
  assert (exists out check put json,
            PostApi.handler (Samples.refusing 422) Samples.noon Samples.frozenPost
              Samples.production Samples.complete tt
            = (out, tt, [check; (put, Answer 422 json)]))
    as (outP & checkP & putP & jsonP & HP)
    by (vm_compute; do 4 eexists; reflexivity).
  assert (exists out check put json,
            NoteApi.handler (Samples.refusing 422) Samples.noon Samples.frozenNote
              Samples.production Samples.complete tt
            = (out, tt, [check; (put, Answer 422 json)]))
    as (outN & checkN & putN & jsonN & HN)
    by (vm_compute; do 4 eexists; reflexivity).
  destruct (upstream_failures_mapped _ _ _ _ _ _ _ _ _ _ _ _ _ _ _ _ _ _ HP HN)
    as [[P _] [N _]].
  rewrite HP, HN, (P _ eq_refl), (N _ eq_refl). split; reflexivity.
Defined.

(** C9 at the failing input: an authenticated POST, in development, whose
    title is the number 5.  In the note function [title.trim] raises a
    TypeError in the validation, which runs before the [try] block: the
    error escapes the handler, which writes no response (no 500 with
    [details]) and calls nothing.  The post function validates the same
    title with [String(title).trim()], raises nothing and goes on to the
    commit, whose refusal it maps. *)
Theorem note_numeric_title_uncaught :
  NODE_ENV Samples.development = Some "development"
  /\ NoteApi.handler (Samples.refusing 422) Samples.noon Samples.frozenNote
       Samples.development Samples.numericTitle tt
     = (Uncaught "TypeError", tt, [])
  /\ fst (fst (PostApi.handler (Samples.refusing 422) Samples.noon
                 Samples.frozenPost Samples.development Samples.numericTitle tt))
     = Responded (mkResponse 400 (ErrorJson "文件已存在或路径无效" None)).
Proof.
  split; [reflexivity|]. split; vm_compute; reflexivity.
Qed.


End HandlerFacts.

(** ** Post creation against a repository *)

Module RepositoryFacts.
Import Http GitHub Text.

Section WithSha.
Variable shaOf : string -> string.
Variable rt : PostApi.Runtime.

Local Abbreviation fetch := (Repository.fetch shaOf).
Local Abbreviation handler := (PostApi.handler fetch Repository.clock rt).

Lemma get_keeps (rp p t a : string) (s : Repository.State) :
  snd (fetch (GetContents rp p t a) s) = s.
Proof. cbn. destruct (Repository.files s !! p); reflexivity. Qed.

Lemma get_ok (rp p t a : string) (s : Repository.State) :
  match fst (fetch (GetContents rp p t a) s) with
  | Answer status _ => ok status = bool_decide (is_Some (Repository.files s !! p))
  | NetworkError _ => False
  end.
Proof.
  cbn. destruct (Repository.files s !! p) eqn:Hp; reflexivity.
Qed.

(** A PUT without [sha] either creates a file at a free path or is refused
    and changes nothing. *)
Lemma put_without_sha (rp p t a : string) (pl : Payload) (s : Repository.State) :
  sha pl = None ->
  (Repository.files s !! p = None
   /\ exists doc file,
        fetch (PutContents rp p t a pl) s
        = (Answer 201 (inl doc),
           Repository.mkState (<[p := file]> (Repository.files s))
             (Repository.clock s)))
  \/ (is_Some (Repository.files s !! p)
      /\ exists doc, fetch (PutContents rp p t a pl) s = (Answer 422 (inl doc), s)).
Proof.
  intros Hsha. cbn. destruct (Repository.files s !! p) eqn:Hp.
  - right. split; [eauto|]. rewrite Hsha. eexists. reflexivity.
  - left. split; [reflexivity|]. do 2 eexists. reflexivity.
Qed.

(** C10.  The post-creation handler never overwrites a file of the
    repository: when the target path exists the commit goes to the original
    name with a six-digit time stamp inserted before the extension, the PUT
    payload never carries a SHA, and so every file present before the
    request is unchanged after it, and a post that is reported created was
    written at a path that was free. *)
Theorem post_never_overwrites :
  forall (env : Env) (req : Request) (repo : Repository.State),
    100000 <= Repository.clock repo ->
    let '(out, repo', trace) := handler env req repo in
    (forall path file,
       Repository.files repo !! path = Some file ->
       Repository.files repo' !! path = Some file)
    /\ (forall rp p t a pl answer,
          In (PutContents rp p t a pl, answer) trace -> sha pl = None)
    /\ (forall rp p t a answer put,
          trace = [(GetContents rp p t a, answer); put] ->
          is_Some (Repository.files repo !! p) ->
          exists stem stamp pl,
            p = stem +++ ".md"
            /\ String.length stamp = 6%nat /\ JS.allDigits stamp = true
            /\ fst put = PutContents rp (stem +++ "-" +++ stamp +++ ".md") t a pl)
    /\ (forall u f c,
          out = Responded (mkResponse 200 (PostCreated u f c)) ->
          exists p file,
            Repository.files repo !! p = None
            /\ Repository.files repo' = <[p := file]> (Repository.files repo)).
Proof.
  intros env req repo Hclock.
  destruct (HandlerFacts.post_shape fetch Repository.clock rt env req repo)
    as [(r & Hr & Hnot) | (tk & rp & stem & ct & msg & result & repo' & trace
                           & reply & Hc & Hh & Hreply)].
  { rewrite Hr. repeat split.
    - auto.
    - intros ? ? ? ? ? ? [].
    - discriminate.
    - intros u f c Hout. injection Hout as ->. cbn in Hnot.
      exfalso. exact (Hnot u f c eq_refl). }
  rewrite Hh.
  destruct (HandlerFacts.post_commit_trace _ _ _ _ _ _ _ _ _ _ _ _ Hc)
    as (cr & w1 & target & response & Hget & Hput & Htarget & -> & ->).
  pose proof (get_keeps rp (stem +++ ".md") tk PostApi.agent repo) as Hkeep.
  pose proof (get_ok rp (stem +++ ".md") tk PostApi.agent repo) as Hok.
  rewrite Hget in Hkeep, Hok. cbn [fst snd] in Hkeep, Hok. subst w1.
  destruct cr as [|status json]; [contradiction|].
  destruct (put_without_sha rp target tk PostApi.agent
              (mkPayload msg (PostApi.base64 rt ct) "main" bazinga bazinga None)
              repo eq_refl)
    as [(Hfree & doc & file & Hwrite) | (Htaken & doc & Hrefuse)].
  - rewrite Hwrite in Hput. injection Hput as <- <-.
    cbn [Repository.files]. repeat split.
    + intros path f Hpath. rewrite lookup_insert_ne; [exact Hpath|].
      intros <-. rewrite Hfree in Hpath. discriminate.
    + intros ? ? ? ? ? ? [H | [H | []]]; [discriminate H|].
      injection H as _ _ _ _ <- _. reflexivity.
    + intros rp0 p t a answer put H Hsome. injection H as <- <- <- <- _ <-.
      rewrite bool_decide_eq_true_2 in Hok by exact Hsome.
      rewrite Hok, TextFacts.renamed_md in Htarget.
      destruct (TextFacts.stamp6_six_digits _ Hclock) as [Hlen Hdig].
      exists stem, (JS.stamp6 (Repository.clock repo)). eexists.
      split; [reflexivity|]. split; [exact Hlen|]. split; [exact Hdig|].
      cbn [fst]. rewrite Htarget. reflexivity.
    + intros u f c _. exists target, file. split; [exact Hfree|reflexivity].
  - rewrite Hrefuse in Hput. injection Hput as <- <-. repeat split.
    + auto.
    + intros ? ? ? ? ? ? [H | [H | []]]; [discriminate H|].
      injection H as _ _ _ _ <- _. reflexivity.
    + intros rp0 p t a answer put H Hsome. injection H as <- <- <- <- _ <-.
      rewrite bool_decide_eq_true_2 in Hok by exact Hsome.
      rewrite Hok, TextFacts.renamed_md in Htarget.
      destruct (TextFacts.stamp6_six_digits _ Hclock) as [Hlen Hdig].
      exists stem, (JS.stamp6 (Repository.clock repo)). eexists.
      split; [reflexivity|]. split; [exact Hlen|]. split; [exact Hdig|].
      cbn [fst]. rewrite Htarget. reflexivity.
    + intros u f c Hout. cbn in Hreply. subst reply. discriminate Hout.
Qed.

End WithSha.

Lemma post_never_overwrites_witness :
  Repository.files
    (snd (fst (PostApi.handler (Repository.fetch Samples.naming) Repository.clock
                 Samples.frozenPost Samples.production Samples.complete
                 Samples.taken)))
  !! "_posts/2024-05-01-023000-post-hello-world.md"
  = Some (Repository.mkFile "old" "sha-old").
Proof.
  assert (100000 <= Repository.clock Samples.taken) as Hclock
    by (vm_compute; discriminate).
  pose proof (post_never_overwrites Samples.naming Samples.frozenPost
                Samples.production Samples.complete Samples.taken Hclock) as H.
  destruct (PostApi.handler (Repository.fetch Samples.naming) Repository.clock
              Samples.frozenPost Samples.production Samples.complete
              Samples.taken) as [[out repo'] trace].
  destruct H as [Hkept _]. cbn [fst snd].
  apply Hkept. reflexivity.
Defined.

End RepositoryFacts.

(** * Further properties of the modelled code *)

(** ** Experiments: selection, assignment, exposure and goals *)

Module ExperimentFacts.
Import ABTest Experiments.

Lemma walk_member (r : float) :
  forall (entries : Variants) (acc : float) chosen,
    walk r acc entries = Some chosen ->
    exists k v, In (k, v) entries /\ chosen = select k v.
Proof.
  induction entries as [|[k0 v0] rest IH]; intros acc chosen H; [discriminate|].
  rewrite ABTestFacts.walk_cons in H.
  destruct (PrimFloat.leb r (accumulate acc (k0, v0))).
  - injection H as <-. exists k0, v0. split; [left; reflexivity|reflexivity].
  - destruct (IH _ _ H) as (k & v & Hin & ->).
    exists k, v. split; [right; exact Hin|reflexivity].
Qed.

Lemma selectVariantForUser_none (m : ABTestManager) (variants : Variants) :
  selectVariantForUser m variants = None <-> variants = [].
Proof.
  unfold selectVariantForUser.
  destruct (walk (randomValue m) 0 variants) eqn:Hw.
  - split; [discriminate|]. intros ->. discriminate Hw.
  - destruct variants as [|[k v] rest]; split; congruence.
Qed.

Lemma selectVariantForUser_in (m : ABTestManager) (variants : Variants)
    (chosen : Selected) :
  selectVariantForUser m variants = Some chosen ->
  exists k v, In (k, v) variants /\ chosen = select k v.
Proof.
  unfold selectVariantForUser. intros H.
  destruct (walk (randomValue m) 0 variants) eqn:Hw.
  - injection H as <-. exact (walk_member _ _ _ _ Hw).
  - destruct variants as [|[k v] rest]; [discriminate|].
    injection H as <-. exists k, v. split; [left; reflexivity|reflexivity].
Qed.

(** X1.  [selectVariantForUser] never answers a variant that is not in the
    list it was given, and it fails (TypeError) exactly when the list is
    empty. *)
Theorem selectVariantForUser_member :
  forall (m : ABTestManager) (variants : Variants),
    (selectVariantForUser m variants = None <-> variants = [])
    /\ (forall chosen,
          selectVariantForUser m variants = Some chosen ->
          exists k v, In (k, v) variants /\ chosen = select k v).
Proof.
  intros m variants. split.
  - apply selectVariantForUser_none.
  - intros chosen. apply selectVariantForUser_in.
Qed.

Lemma toInt32_range (z : Z) : - 2 ^ 31 <= toInt32 z < 2 ^ 31.
Proof.
  unfold toInt32. pose proof (Z.mod_pos_bound z (2 ^ 32) ltac:(lia)) as H.
  destruct (z mod 2 ^ 32 <? 2 ^ 31) eqn:Hlt.
  - apply Z.ltb_lt in Hlt. lia.
  - apply Z.ltb_ge in Hlt. lia.
Qed.

Lemma hashStep_range (hash char : Z) : - 2 ^ 31 <= hashStep hash char < 2 ^ 31.
Proof. unfold hashStep. rewrite Z.land_diag. apply toInt32_range. Qed.

(** X2.  [hashString] answers a non-negative integer of at most 2^31 for
    every string: the loop keeps the hash in the signed 32-bit range and
    [Math.abs] maps -2^31 to 2^31, one more than the largest 32-bit
    integer. *)
Theorem hashString_range :
  forall (str : string), 0 <= hashString str <= 2 ^ 31.
Proof.
  intros str. unfold hashString.
  assert (forall codes start,
            - 2 ^ 31 <= start < 2 ^ 31 ->
            - 2 ^ 31 <= fold_left hashStep codes start < 2 ^ 31) as Hfold.
  { induction codes as [|c codes IH]; intros start Hstart; [exact Hstart|].
    cbn [fold_left]. apply IH. apply hashStep_range. }
  specialize (Hfold (JS.charCodes str) 0 ltac:(lia)). lia.
Qed.

Lemma includes_In (x : string) (l : list string) :
  includes x l = true <-> In x l.
Proof.
  unfold includes. rewrite existsb_exists. split.
  - intros (y & Hin & Heq). apply String.eqb_eq in Heq. now subst.
  - intros Hin. exists x. split; [exact Hin|apply String.eqb_refl].
Qed.

Lemma prefix_app (p r : string) : String.prefix p (String.append p r) = true.
Proof.
  induction p as [|c p IH]; [destruct r; reflexivity|].
  rewrite TextFacts.append_cons. cbn [String.prefix].
  destruct (ascii_dec c c); [exact IH|contradiction].
Qed.

Lemma dropLast_slash (stem : string) : dropLast (String.append stem "/") = stem.
Proof.
  unfold dropLast. rewrite TextFacts.chars_app. cbn [list_ascii_of_string].
  rewrite removelast_last. apply string_of_list_ascii_of_string.
Qed.

Lemma endsWith_app (stem suffix : string) :
  Text.endsWith suffix (String.append stem suffix) = true.
Proof. unfold Text.endsWith. rewrite TextFacts.revString_app. apply prefix_app. Qed.

Lemma pageMatches_spec (currentPage targetPage : string) :
  pageMatches currentPage targetPage = true
  <-> targetPage = currentPage
      \/ exists stem rest,
           targetPage = String.append stem "/"
           /\ currentPage = String.append stem rest.
Proof.
  unfold pageMatches. rewrite orb_true_iff, andb_true_iff, String.eqb_eq. split.
  - intros [-> | [Hend Hpre]]; [left; reflexivity|right].
    destruct (TextFacts.endsWith_split _ _ Hend) as [stem ->].
    rewrite dropLast_slash in Hpre.
    destruct (TextFacts.prefix_split _ _ Hpre) as [rest ->].
    exists stem, rest. split; reflexivity.
  - intros [-> | (stem & rest & -> & ->)]; [left; reflexivity|right].
    split; [apply endsWith_app|]. rewrite dropLast_slash. apply prefix_app.
Qed.

(** X3.  An experiment runs on a page exactly when its status is
    [active], one of its target pages either equals the path or ends with a
    slash and, with that slash removed, is a prefix of the path (so
    [/notes/] also matches [/notes-old]), and it names no segment or names
    one the user belongs to. *)
Theorem shouldRunExperiment_spec :
  forall (experimentId : string) (config : Config) (currentPage : string)
         (userSegments : list string),
    shouldRunExperiment experimentId config currentPage userSegments = true
    <-> cfg_status config = "active"
        /\ (exists targetPage,
              In targetPage (targetPages config)
              /\ (targetPage = currentPage
                  \/ exists stem rest,
                       targetPage = String.append stem "/"
                       /\ currentPage = String.append stem rest))
        /\ (segments config = []
            \/ exists segment,
                 In segment (segments config) /\ In segment userSegments).
Proof.
  intros experimentId config currentPage userSegments.
  unfold shouldRunExperiment.
  destruct (String.eqb (cfg_status config) "active") eqn:Hstatus; cbn [negb].
  2:{ apply String.eqb_neq in Hstatus. split; [discriminate|tauto]. }
  apply String.eqb_eq in Hstatus.
  assert (existsb (pageMatches currentPage) (targetPages config) = true
          <-> exists targetPage,
                In targetPage (targetPages config)
                /\ (targetPage = currentPage
                    \/ exists stem rest,
                         targetPage = String.append stem "/"
                         /\ currentPage = String.append stem rest)) as Hpage.
  { rewrite existsb_exists. split; intros (t & Hin & Hm); exists t;
      (split; [exact Hin|]); apply pageMatches_spec; exact Hm. }
  destruct (existsb (pageMatches currentPage) (targetPages config)); cbn [negb].
  2:{ split; [discriminate|]. intros (_ & H & _). apply Hpage in H. discriminate. }
  destruct (segments config) as [|s more] eqn:Hseg.
  - split; [|reflexivity]. intros _. split; [exact Hstatus|].
    split; [apply Hpage; reflexivity|left; reflexivity].
  - rewrite existsb_exists. split.
    + intros (segment & Hin & Hinc). split; [exact Hstatus|].
      split; [apply Hpage; reflexivity|right].
      exists segment. split; [exact Hin|apply includes_In; exact Hinc].
    + intros (_ & _ & [Hnil | (segment & Hin & Huser)]); [discriminate|].
      exists segment. split; [exact Hin|apply includes_In; exact Huser].
Qed.

Lemma mapGet_mapSet (k : string) (v : Config) (m : list (string * Config)) :
  mapGet k (mapSet k v m) = Some v.
Proof.
  induction m as [|[k' v'] rest IH]; cbn [mapSet mapGet].
  - now rewrite String.eqb_refl.
  - destruct (String.eqb k' k) eqn:Hk; cbn [mapGet].
    + now rewrite String.eqb_refl.
    + now rewrite Hk.
Qed.

Lemma mapGet_mapSet_ne (k k' : string) (v : Config) (m : list (string * Config)) :
  k' <> k -> mapGet k' (mapSet k v m) = mapGet k' m.
Proof.
  intros Hne. induction m as [|[k0 v0] rest IH]; cbn [mapSet mapGet].
  - apply String.eqb_neq in Hne. rewrite String.eqb_sym in Hne. now rewrite Hne.
  - destruct (String.eqb k0 k) eqn:Hk; cbn [mapGet].
    + apply String.eqb_eq in Hk. subst k0.
      apply String.eqb_neq in Hne. rewrite String.eqb_sym in Hne. now rewrite Hne.
    + destruct (String.eqb k0 k'); [reflexivity|exact IH].
Qed.

(** What [trackExposure] does to a page on which [assignment] is the
    entry of [experimentId]. *)
Lemma trackExposure_result (experimentId : string) (assignment : Assignment)
    (p : Page) :
  userAssignments (this p) !! experimentId = Some assignment ->
  let p' := trackExposure experimentId assignment p in
  experiments p' = experiments p
  /\ bodyAttributes p' = bodyAttributes p
  /\ exposureKey experimentId assignment ∈ exposureTracked (this p')
  /\ (exists assignment',
        userAssignments (this p') !! experimentId = Some assignment'
        /\ variant assignment' = variant assignment
        /\ variantName assignment' = variantName assignment
        /\ assignedAt assignment' = assignedAt assignment
        /\ goals assignment' = goals assignment
        /\ (exposures assignment <= exposures assignment'
            <= S (exposures assignment))%nat)
  /\ (forall other, other <> experimentId ->
        userAssignments (this p') !! other = userAssignments (this p) !! other)
  /\ (exists more,
        tracked p' = tracked p ++ more
        /\ forall e, In e more ->
             exists n, e = ExposureEvent experimentId (variant assignment) n).
Proof.
  intros Hentry p'. subst p'. unfold trackExposure.
  destruct (bool_decide (exposureKey experimentId assignment
                           ∈ exposureTracked (this p))) eqn:Hseen.
  - apply bool_decide_eq_true in Hseen.
    split; [reflexivity|]. split; [reflexivity|]. split; [exact Hseen|].
    split; [exists assignment; repeat split; (exact Hentry || lia)|].
    split; [reflexivity|].
    exists []. split; [now rewrite app_nil_r|]. intros e [].
  - cbn. split; [reflexivity|]. split; [reflexivity|].
    split; [apply elem_of_union; left; now apply elem_of_singleton|].
    split.
    { eexists. split; [apply lookup_insert_eq|]. cbn. repeat split; lia. }
    split; [intros other Hother; now apply lookup_insert_ne|].
    eexists. split; [reflexivity|].
    intros e [<- | []]. eexists. reflexivity.
Qed.

(** The assignment [assignUserToVariant] works with: the stored one, or
    a new one made from the variant [selectVariantForUser] chose. *)
Lemma assign_result (experimentId : string) (config : Config) (now : string)
    (p p' : Page) :
  assignUserToVariant experimentId config now p = Some p' ->
  exists assignment p1,
    userAssignments (this p1) !! experimentId = Some assignment
    /\ p' = trackExposure experimentId assignment
              {| this := this p1;
                 experiments := mapSet experimentId config (experiments p1);
                 bodyAttributes :=
                   <[String.append "data-ab-" experimentId := variant assignment]>
                     (bodyAttributes p1);
                 tracked := tracked p1 |}
    /\ experiments p1 = experiments p
    /\ bodyAttributes p1 = bodyAttributes p
    /\ (forall other, other <> experimentId ->
          userAssignments (this p1) !! other = userAssignments (this p) !! other)
    /\ ((userAssignments (this p) !! experimentId = Some assignment /\ p1 = p)
        \/ (userAssignments (this p) !! experimentId = None
            /\ tracked p1
               = tracked p ++ [AssignmentEvent experimentId (variant assignment)]
            /\ exposureTracked (this p1) = exposureTracked (this p)
            /\ assignedAt assignment = now
            /\ exposures assignment = 0%nat
            /\ goals assignment = []
            /\ exists chosen,
                 selectVariantForUser (this p) (cfg_variants config) = Some chosen
                 /\ variant assignment = key chosen
                 /\ variantName assignment = sel_name chosen)).
Proof.
  unfold assignUserToVariant.
  destruct (userAssignments (this p) !! experimentId) as [stored|] eqn:Hstored.
  - intros H. injection H as <-. exists stored, p.
    split; [exact Hstored|]. split; [reflexivity|]. split; [reflexivity|].
    split; [reflexivity|]. split; [reflexivity|]. left. split; reflexivity.
  - destruct (selectVariantForUser (this p) (cfg_variants config))
      as [chosen|] eqn:Hchosen; [|discriminate].
    intros H. injection H as <-.
    exists {| experimentName := cfg_name config;
              variant := key chosen;
              variantName := sel_name chosen;
              assignedAt := now;
              exposures := 0;
              goals := [] |}.
    eexists {| this := withAssignments (this p) _;
               experiments := experiments p;
               bodyAttributes := bodyAttributes p;
               tracked := _ |}.
    split; [cbn; apply lookup_insert_eq|]. split; [reflexivity|].
    split; [reflexivity|]. split; [reflexivity|].
    split; [intros other Hother; cbn; now apply lookup_insert_ne|].
    right. split; [reflexivity|]. cbn. repeat split.
    exists chosen. repeat split.
Qed.

(** X4.  A stored assignment is kept: for an experiment the visitor is
    already assigned to, [assignUserToVariant] succeeds whatever the
    configuration now lists (even no variant at all), keeps the stored
    variant and assignment time, shows that variant in the body attribute
    and through [getExperimentVariant], and tracks no new assignment. *)
Theorem stored_assignment_kept :
  forall (experimentId : string) (config : Config) (now : string) (p : Page)
         (stored : Assignment),
    userAssignments (this p) !! experimentId = Some stored ->
    exists p' assignment,
      assignUserToVariant experimentId config now p = Some p'
      /\ userAssignments (this p') !! experimentId = Some assignment
      /\ variant assignment = variant stored
      /\ variantName assignment = variantName stored
      /\ assignedAt assignment = assignedAt stored
      /\ bodyAttributes p' !! String.append "data-ab-" experimentId
         = Some (variant stored)
      /\ getExperimentVariant experimentId p' = Some (variant stored)
      /\ forall id v,
           In (AssignmentEvent id v) (tracked p') ->
           In (AssignmentEvent id v) (tracked p).
Proof.
  intros experimentId config now p stored Hstored.
  destruct (assignUserToVariant experimentId config now p) as [p'|] eqn:Hassign.
  2:{ unfold assignUserToVariant in Hassign. rewrite Hstored in Hassign.
      discriminate. }
  destruct (assign_result _ _ _ _ _ Hassign)
    as (a & p1 & Hentry & -> & _ & _ & _ & [[Ha ->] | [Hnone _]]);
    [|congruence].
  assert (a = stored) as -> by congruence.
  match goal with
  | |- context [trackExposure experimentId stored ?q] =>
      destruct (trackExposure_result experimentId stored q Hentry)
        as (Hexp & Hattr & _ & (a' & Ha' & Hv & Hn & Ht & _) & _
            & more & Hmore & Honly)
  end.
  eexists. exists a'. split; [reflexivity|]. split; [exact Ha'|].
  split; [exact Hv|]. split; [exact Hn|]. split; [exact Ht|].
  split; [rewrite Hattr; cbn; apply lookup_insert_eq|].
  split.
  - unfold getExperimentVariant. rewrite Hexp. cbn [experiments].
    rewrite mapGet_mapSet, Ha'. cbn. now rewrite Hv.
  - intros id v Hin. rewrite Hmore in Hin. cbn [tracked] in Hin.
    apply in_app_or in Hin as [Hin | Hin]; [exact Hin|].
    destruct (Honly _ Hin) as [n Hn']. discriminate Hn'.
Qed.

Lemma stored_assignment_kept_witness :
  exists p' assignment,
    assignUserToVariant "reading_experience" Visits.writeForm Visits.morning
      (opened Samples.visitorLater) = Some p'
    /\ userAssignments (this p') !! "reading_experience" = Some assignment
    /\ variant assignment = "control"
    /\ variantName assignment = "Standard Reading"
    /\ assignedAt assignment = "2024-05-01T02:30:00.000Z"
    /\ bodyAttributes p' !! "data-ab-reading_experience" = Some "control"
    /\ getExperimentVariant "reading_experience" p' = Some "control"
    /\ forall id v,
         In (AssignmentEvent id v) (tracked p') ->
         In (AssignmentEvent id v) (tracked (opened Samples.visitorLater)).
Proof.
  apply (stored_assignment_kept "reading_experience" Visits.writeForm
           Visits.morning (opened Samples.visitorLater)
           (mkAssignment "Reading Experience Enhancement" "control"
              "Standard Reading" "2024-05-01T02:30:00.000Z" 3 [])).
  vm_compute. reflexivity.
Defined.

(** X5.  An exposure is tracked once per page view: after
    [assignUserToVariant] has run for an experiment, running it again for
    that experiment (whatever configuration and time it is given) succeeds,
    tracks nothing and leaves the manager, its exposure counts included, as
    it was. *)
Theorem exposure_tracked_once :
  forall (experimentId : string) (config config' : Config) (now now' : string)
         (p p1 : Page),
    assignUserToVariant experimentId config now p = Some p1 ->
    exists p2,
      assignUserToVariant experimentId config' now' p1 = Some p2
      /\ this p2 = this p1
      /\ tracked p2 = tracked p1.
Proof.
  intros experimentId config config' now now' p p1 Hfirst.
  destruct (assign_result _ _ _ _ _ Hfirst) as (a & q & Hentry & -> & _).
  match goal with
  | |- context [trackExposure experimentId a ?q0] =>
      destruct (trackExposure_result experimentId a q0 Hentry)
        as (_ & _ & Hseen & (a' & Ha' & Hv & _) & _);
      set (p1 := trackExposure experimentId a q0) in *
  end.
  unfold assignUserToVariant. rewrite Ha'.
  eexists. split; [reflexivity|].
  unfold trackExposure at 1 2. cbn [this tracked].
  assert (exposureKey experimentId a' = exposureKey experimentId a) as ->
    by (unfold exposureKey; now rewrite Hv).
  rewrite bool_decide_eq_true_2 by exact Hseen.
  split; reflexivity.
Qed.

Lemma exposure_tracked_once_witness :
  exists p2,
    assignUserToVariant "banner" Visits.writeForm "later"
      Visits.writeNote = Some p2
    /\ this p2 = this Visits.writeNote
    /\ tracked p2 = tracked Visits.writeNote.
Proof.
  apply (exposure_tracked_once "banner" Visits.banner Visits.writeForm
           Visits.morning "later"
           (default (opened Samples.visitor)
              (assignUserToVariant "write_form_layout" Visits.writeForm
                 Visits.morning (opened Samples.visitor)))
           Visits.writeNote).
  vm_compute. reflexivity.
Defined.

(** X6.  A visitor without a stored assignment gets one exactly when the
    experiment lists a variant (otherwise the call fails with the
    TypeError of [selectVariantForUser]); the new assignment names a
    variant of the configuration, is stamped with the current time, has no
    goal yet, and the same variant is set as body attribute, answered by
    [getExperimentVariant] and tracked as an assignment. *)
Theorem new_assignment_from_config :
  forall (experimentId : string) (config : Config) (now : string) (p : Page),
    userAssignments (this p) !! experimentId = None ->
    (assignUserToVariant experimentId config now p = None
     <-> cfg_variants config = [])
    /\ forall p',
         assignUserToVariant experimentId config now p = Some p' ->
         exists k v assignment,
           In (k, v) (cfg_variants config)
           /\ userAssignments (this p') !! experimentId = Some assignment
           /\ variant assignment = k
           /\ variantName assignment = name v
           /\ assignedAt assignment = now
           /\ goals assignment = []
           /\ bodyAttributes p' !! String.append "data-ab-" experimentId = Some k
           /\ getExperimentVariant experimentId p' = Some k
           /\ In (AssignmentEvent experimentId k) (tracked p').
Proof.
  intros experimentId config now p Hnone. split.
  - rewrite <- (selectVariantForUser_none (this p)).
    unfold assignUserToVariant. rewrite Hnone.
    destruct (selectVariantForUser (this p) (cfg_variants config));
      split; congruence.
  - intros p' Hassign.
    destruct (assign_result _ _ _ _ _ Hassign)
      as (a & p1 & Hentry & -> & _ & _ & _
          & [[Ha _] | (_ & Htracked & _ & Hat & _ & Hgoals
                       & chosen & Hchosen & Hkey & Hname)]);
      [congruence|].
    destruct (selectVariantForUser_in _ _ _ Hchosen) as (k & v & Hin & ->).
    cbn [key sel_name select] in Hkey, Hname.
    match goal with
    | |- context [trackExposure experimentId a ?q] =>
        destruct (trackExposure_result experimentId a q Hentry)
          as (Hexp & Hattr & _ & (a' & Ha' & Hv & Hn & Ht & Hg & _) & _
              & more & Hmore & _)
    end.
    exists k, v, a'. split; [exact Hin|]. split; [exact Ha'|].
    split; [congruence|]. split; [congruence|]. split; [congruence|].
    split; [congruence|].
    split; [rewrite Hattr; cbn; rewrite <- Hkey; apply lookup_insert_eq|].
    split.
    + unfold getExperimentVariant. rewrite Hexp. cbn [experiments].
      rewrite mapGet_mapSet, Ha'. cbn. congruence.
    + rewrite Hmore. cbn [tracked]. rewrite Htracked, Hkey.
      apply in_or_app. left. apply in_or_app. right. left. reflexivity.
Qed.

Lemma new_assignment_from_config_witness :
  (assignUserToVariant "write_form_layout" Visits.writeForm Visits.morning
     (opened Samples.visitor) = None
   <-> cfg_variants Visits.writeForm = [])
  /\ forall p',
       assignUserToVariant "write_form_layout" Visits.writeForm Visits.morning
         (opened Samples.visitor) = Some p' ->
       exists k v assignment,
         In (k, v) (cfg_variants Visits.writeForm)
         /\ userAssignments (this p') !! "write_form_layout" = Some assignment
         /\ variant assignment = k
         /\ variantName assignment = name v
         /\ assignedAt assignment = Visits.morning
         /\ goals assignment = []
         /\ bodyAttributes p' !! "data-ab-write_form_layout" = Some k
         /\ getExperimentVariant "write_form_layout" p' = Some k
         /\ In (AssignmentEvent "write_form_layout" k) (tracked p').
Proof.
  apply (new_assignment_from_config "write_form_layout" Visits.writeForm
           Visits.morning (opened Samples.visitor)).
  reflexivity.
Defined.

Lemma append_inj (a b c : string) : String.append a b = String.append a c -> b = c.
Proof.
  induction a as [|d a IH]; [trivial|].
  rewrite !TextFacts.append_cons. intros H. injection H as H. exact (IH H).
Qed.

Lemma trackExposure_grows (experimentId : string) (assignment : Assignment)
    (p : Page) :
  exposureTracked (this p)
  ⊆ exposureTracked (this (trackExposure experimentId assignment p)).
Proof.
  unfold trackExposure. case_bool_decide; cbn; [reflexivity|].
  apply union_subseteq_r.
Qed.

(** What one run of [assignUserToVariant] leaves of the experiments other
    than its own. *)
Lemma assign_other (experimentId : string) (config : Config) (now : string)
    (p p' : Page) (other : string) :
  assignUserToVariant experimentId config now p = Some p' ->
  other <> experimentId ->
  mapGet other (experiments p') = mapGet other (experiments p)
  /\ userAssignments (this p') !! other = userAssignments (this p) !! other
  /\ bodyAttributes p' !! String.append "data-ab-" other
     = bodyAttributes p !! String.append "data-ab-" other
  /\ exposureTracked (this p) ⊆ exposureTracked (this p')
  /\ exists more,
       tracked p' = tracked p ++ more
       /\ forall e, In e more -> experimentOf e = experimentId.
Proof.
  intros Hassign Hother.
  destruct (assign_result _ _ _ _ _ Hassign)
    as (a & p1 & Hentry & -> & Hexp1 & Hattr1 & Hothers & Hcase).
  match goal with
  | |- context [trackExposure experimentId a ?q] =>
      destruct (trackExposure_result experimentId a q Hentry)
        as (Hexp & Hattr & _ & _ & Hrest & more & Hmore & Honly)
  end.
  rewrite Hexp, Hattr, (Hrest _ Hother), Hmore. cbn [experiments bodyAttributes this tracked].
  rewrite Hexp1, Hattr1, (Hothers _ Hother).
  split; [now apply mapGet_mapSet_ne|]. split; [reflexivity|].
  split.
  { apply lookup_insert_ne. intros Heq. apply append_inj in Heq. congruence. }
  assert (forall e, In e more -> experimentOf e = experimentId) as Hmine.
  { intros e He. destruct (Honly _ He) as [n ->]. reflexivity. }
  assert (exposureTracked (this p1) = exposureTracked (this p)) as Hsame.
  { destruct Hcase as [[_ ->] | (_ & _ & Hsame & _)]; [reflexivity|exact Hsame]. }
  split; [etransitivity; [|apply trackExposure_grows]; cbn [this];
          now rewrite Hsame|].
  destruct Hcase as [[_ ->] | (_ & Htracked & _)].
  - exists more. split; [reflexivity|exact Hmine].
  - rewrite Htracked, <- app_assoc. eexists. split; [reflexivity|].
    intros e [<- | He]; [reflexivity|now apply Hmine].
Qed.

(** What [initializePageExperiments] leaves of an experiment that no
    entry of the configuration makes run on the page. *)
Lemma init_skips (configs : list (string * Config)) (currentPage : string)
    (userSegments : list string) (now : string) (other : string) :
  (forall config, In (other, config) configs ->
     shouldRunExperiment other config currentPage userSegments = false) ->
  forall p p',
    initializePageExperiments configs currentPage userSegments now p = Some p' ->
    mapGet other (experiments p') = mapGet other (experiments p)
    /\ userAssignments (this p') !! other = userAssignments (this p) !! other
    /\ bodyAttributes p' !! String.append "data-ab-" other
       = bodyAttributes p !! String.append "data-ab-" other
    /\ exists more,
         tracked p' = tracked p ++ more
         /\ forall e, In e more -> experimentOf e <> other.
Proof.
  induction configs as [|[experimentId config] rest IH]; intros Hskip p p' Hinit.
  - injection Hinit as <-. repeat split. exists []. split; [now rewrite app_nil_r|].
    intros e [].
  - cbn [initializePageExperiments] in Hinit.
    assert (forall config, In (other, config) rest ->
              shouldRunExperiment other config currentPage userSegments = false)
      as Hrest by (intros c Hc; apply Hskip; right; exact Hc).
    destruct (shouldRunExperiment experimentId config currentPage userSegments)
      eqn:Hruns; [|exact (IH Hrest _ _ Hinit)].
    destruct (assignUserToVariant experimentId config now p) as [p1|] eqn:Hassign;
      [|discriminate].
    assert (other <> experimentId) as Hne.
    { intros ->. rewrite (Hskip config) in Hruns; [discriminate|left; reflexivity]. }
    destruct (assign_other _ _ _ _ _ other Hassign Hne)
      as (H1 & H2 & H3 & _ & more1 & Hmore1 & Honly1).
    destruct (IH Hrest _ _ Hinit) as (H1' & H2' & H3' & more2 & Hmore2 & Honly2).
    rewrite H1', H2', H3', H1, H2, H3, Hmore2, Hmore1, <- app_assoc.
    repeat split. eexists. split; [reflexivity|].
    intros e He. apply in_app_or in He as [He | He].
    + rewrite (Honly1 _ He). congruence.
    + now apply Honly2.
Qed.

(** X7.  [initializePageExperiments] touches only the experiments that
    [shouldRunExperiment] accepts for the page: for any other experiment,
    also one the visitor has a stored assignment of,
    [getExperimentVariant] answers [null], the stored assignment and the
    body attribute are left alone and no event is tracked. *)
Theorem only_eligible_experiments_run :
  forall (m : ABTestManager) (configs : list (string * Config))
         (currentPage : string) (userSegments : list string) (now : string)
         (p' : Page) (experimentId : string),
    initializePageExperiments configs currentPage userSegments now (opened m)
    = Some p' ->
    (forall config, In (experimentId, config) configs ->
       shouldRunExperiment experimentId config currentPage userSegments = false) ->
    getExperimentVariant experimentId p' = None
    /\ userAssignments (this p') !! experimentId
       = userAssignments m !! experimentId
    /\ bodyAttributes p' !! String.append "data-ab-" experimentId = None
    /\ forall e, In e (tracked p') -> experimentOf e <> experimentId.
Proof.
  intros m configs currentPage userSegments now p' experimentId Hinit Hskip.
  destruct (init_skips configs currentPage userSegments now experimentId Hskip
              _ _ Hinit) as (Hexp & Hassign & Hattr & more & Hmore & Honly).
  split; [unfold getExperimentVariant; now rewrite Hexp|].
  split; [exact Hassign|]. split; [exact Hattr|].
  intros e He. rewrite Hmore in He. cbn in He. now apply Honly.
Qed.

Lemma only_eligible_experiments_run_witness :
  getExperimentVariant "reading_experience"
    (default (opened Samples.visitorLater)
       (initializePageExperiments Visits.siteConfigs "/write-note/" []
          Visits.morning (opened Samples.visitorLater))) = None.
Proof.
  refine (proj1 (only_eligible_experiments_run Samples.visitorLater
                   Visits.siteConfigs "/write-note/" [] Visits.morning
                   _ "reading_experience" _ _)).
  - vm_compute. reflexivity.
  - intros config [H | [H | [H | []]]]; inversion H; reflexivity.
Defined.

Lemma mapSet_keys (k : string) (v : Config) (m : list (string * Config)) :
  forall k', In k' (map fst (mapSet k v m)) <-> k' = k \/ In k' (map fst m).
Proof.
  induction m as [|[k0 v0] rest IH]; intros k'; cbn [mapSet].
  - cbn. intuition congruence.
  - destruct (String.eqb k0 k) eqn:Hk.
    + apply String.eqb_eq in Hk. subst k0. cbn. intuition congruence.
    + cbn [map fst In]. rewrite IH. cbn. intuition congruence.
Qed.

Lemma mapSet_NoDup (k : string) (v : Config) (m : list (string * Config)) :
  List.NoDup (map fst m) -> List.NoDup (map fst (mapSet k v m)).
Proof.
  induction m as [|[k0 v0] rest IH]; intros Hm; cbn [mapSet].
  - cbn. constructor; [intros []|constructor].
  - cbn [map fst] in Hm. apply NoDup_cons_iff in Hm as [Hfresh Hrest].
    destruct (String.eqb k0 k) eqn:Hk.
    + apply String.eqb_eq in Hk. subst k0. cbn [map fst].
      apply List.NoDup_cons; assumption.
    + cbn [map fst]. apply List.NoDup_cons; [|now apply IH].
      rewrite mapSet_keys. intros [-> | Hin]; [|contradiction].
      rewrite String.eqb_refl in Hk. discriminate.
Qed.

Lemma mapSet_In (k : string) (v : Config) (m : list (string * Config)) :
  forall k' v', In (k', v') (mapSet k v m) ->
                (k' = k /\ v' = v) \/ (k' <> k /\ In (k', v') m) \/ (k' = k /\ In (k', v') m).
Proof.
  induction m as [|[k0 v0] rest IH]; intros k' v'; cbn [mapSet].
  - intros [H | []]. injection H as <- <-. left. split; reflexivity.
  - destruct (String.eqb k0 k) eqn:Hk.
    + intros [H | H].
      * injection H as <- <-. left. split; reflexivity.
      * destruct (String.eqb k' k) eqn:Hk'.
        -- apply String.eqb_eq in Hk'. right. right. split; [exact Hk'|right; exact H].
        -- apply String.eqb_neq in Hk'. right. left. split; [exact Hk'|right; exact H].
    + intros [H | H].
      * injection H as <- <-. apply String.eqb_neq in Hk.
        right. left. split; [exact Hk|left; reflexivity].
      * destruct (IH _ _ H) as [Hnew | [[Hne Hin] | [Heq Hin]]].
        -- left. exact Hnew.
        -- right. left. split; [exact Hne|right; exact Hin].
        -- right. right. split; [exact Heq|right; exact Hin].
Qed.

Lemma mapGet_In (k : string) (v : Config) (m : list (string * Config)) :
  In (k, v) m -> exists v', mapGet k m = Some v'.
Proof.
  induction m as [|[k0 v0] rest IH]; [intros []|].
  intros [H | H]; cbn [mapGet].
  - injection H as -> ->. rewrite String.eqb_refl. eauto.
  - destruct (String.eqb k0 k); [eauto|exact (IH H)].
Qed.

(** [assignUserToVariant] keeps a page consistent, and the experiments of
    the page are the earlier ones and the one just assigned. *)
Lemma assign_consistent (experimentId : string) (config : Config) (now : string)
    (p p' : Page) :
  assignUserToVariant experimentId config now p = Some p' ->
  consistent p ->
  consistent p'
  /\ forall id c, In (id, c) (experiments p') ->
                  In (id, c) (experiments p) \/ (id = experimentId /\ c = config).
Proof.
  intros Hassign [Hnodup Hall].
  assert (experiments p' = mapSet experimentId config (experiments p)) as Hexp'.
  { destruct (assign_result _ _ _ _ _ Hassign)
      as (a & p1 & Hentry & -> & Hexp1 & _).
    match goal with
    | |- context [trackExposure experimentId a ?q] =>
        destruct (trackExposure_result experimentId a q Hentry) as (Hexp & _)
    end.
    rewrite Hexp. cbn [experiments]. now rewrite Hexp1. }
  assert (exists a', userAssignments (this p') !! experimentId = Some a'
                     /\ bodyAttributes p' !! String.append "data-ab-" experimentId
                        = Some (variant a')
                     /\ exposureKey experimentId a' ∈ exposureTracked (this p'))
    as Hmine.
  { destruct (assign_result _ _ _ _ _ Hassign) as (a & p1 & Hentry & -> & _).
    match goal with
    | |- context [trackExposure experimentId a ?q] =>
        destruct (trackExposure_result experimentId a q Hentry)
          as (_ & Hattr & Hseen & (a' & Ha' & Hv & _) & _)
    end.
    exists a'. split; [exact Ha'|].
    split; [rewrite Hattr, Hv; cbn; apply lookup_insert_eq|].
    unfold exposureKey in *. now rewrite Hv. }
  split; [split|].
  - rewrite Hexp'. now apply mapSet_NoDup.
  - intros id c Hin. destruct (decide (id = experimentId)) as [-> | Hne];
      [exact Hmine|].
    rewrite Hexp' in Hin.
    destruct (mapSet_In _ _ _ _ _ Hin) as [[Heq _] | [[_ Hold] | [Heq _]]];
      [contradiction| |contradiction].
    destruct (Hall _ _ Hold) as (a0 & Ha0 & Hattr0 & Hseen0).
    destruct (assign_other _ _ _ _ _ id Hassign Hne)
      as (_ & Hsame & Hattr & Hgrow & _).
    exists a0. rewrite Hsame, Hattr. split; [exact Ha0|].
    split; [exact Hattr0|]. now apply Hgrow.
  - intros id c Hin. rewrite Hexp' in Hin.
    destruct (mapSet_In _ _ _ _ _ Hin) as [[-> ->] | [[_ Hold] | [_ Hold]]];
      [right; split; reflexivity|left; exact Hold|left; exact Hold].
Qed.

Lemma init_consistent (configs : list (string * Config)) (currentPage : string)
    (userSegments : list string) (now : string) :
  forall p p',
    initializePageExperiments configs currentPage userSegments now p = Some p' ->
    consistent p ->
    consistent p'
    /\ forall id c, In (id, c) (experiments p') ->
          In (id, c) (experiments p)
          \/ (In (id, c) configs
              /\ shouldRunExperiment id c currentPage userSegments = true).
Proof.
  induction configs as [|[experimentId config] rest IH]; intros p p' Hinit Hp.
  - injection Hinit as <-. split; [exact Hp|]. intros id c Hin. left. exact Hin.
  - cbn [initializePageExperiments] in Hinit.
    destruct (shouldRunExperiment experimentId config currentPage userSegments)
      eqn:Hruns.
    + destruct (assignUserToVariant experimentId config now p) as [p1|] eqn:Hassign;
        [|discriminate].
      destruct (assign_consistent _ _ _ _ _ Hassign Hp) as [Hp1 Hfrom1].
      destruct (IH _ _ Hinit Hp1) as [Hp' Hfrom]. split; [exact Hp'|].
      intros id c Hin. destruct (Hfrom _ _ Hin) as [Hin1 | [Hin1 Hrun]].
      * destruct (Hfrom1 _ _ Hin1) as [Hold | [-> ->]]; [left; exact Hold|].
        right. split; [left; reflexivity|exact Hruns].
      * right. split; [right; exact Hin1|exact Hrun].
    + destruct (IH _ _ Hinit Hp) as [Hp' Hfrom]. split; [exact Hp'|].
      intros id c Hin. destruct (Hfrom _ _ Hin) as [Hold | [Hin1 Hrun]];
        [left; exact Hold|].
      right. split; [right; exact Hin1|exact Hrun].
Qed.

(** X8.  After [initializePageExperiments] the [experiments] Map has one
    entry per experiment, each an entry of the configuration that
    [shouldRunExperiment] accepts for the page, and for each of them the
    visitor has an assignment whose variant is the one set as body
    attribute and answered by [getExperimentVariant], with its exposure
    marked as tracked. *)
Theorem initialized_page_consistent :
  forall (m : ABTestManager) (configs : list (string * Config))
         (currentPage : string) (userSegments : list string) (now : string)
         (p' : Page),
    initializePageExperiments configs currentPage userSegments now (opened m)
    = Some p' ->
    List.NoDup (map fst (experiments p'))
    /\ forall experimentId config,
         In (experimentId, config) (experiments p') ->
         In (experimentId, config) configs
         /\ shouldRunExperiment experimentId config currentPage userSegments = true
         /\ exists assignment,
              userAssignments (this p') !! experimentId = Some assignment
              /\ bodyAttributes p' !! String.append "data-ab-" experimentId
                 = Some (variant assignment)
              /\ getExperimentVariant experimentId p' = Some (variant assignment)
              /\ exposureKey experimentId assignment ∈ exposureTracked (this p').
Proof.
  intros m configs currentPage userSegments now p' Hinit.
  assert (consistent (opened m)) as Hopened.
  { split; [constructor|]. intros id c []. }
  destruct (init_consistent _ _ _ _ _ _ Hinit Hopened) as [[Hnodup Hall] Hfrom].
  split; [exact Hnodup|]. intros id c Hin.
  destruct (Hfrom _ _ Hin) as [[] | [Hcfg Hrun]].
  split; [exact Hcfg|]. split; [exact Hrun|].
  destruct (Hall _ _ Hin) as (a & Ha & Hattr & Hseen).
  exists a. split; [exact Ha|]. split; [exact Hattr|]. split; [|exact Hseen].
  unfold getExperimentVariant. destruct (mapGet_In _ _ _ Hin) as [c' ->].
  now rewrite Ha.
Qed.

Lemma initialized_page_consistent_witness :
  List.NoDup (map fst (experiments Visits.writeNote))
  /\ forall experimentId config,
       In (experimentId, config) (experiments Visits.writeNote) ->
       In (experimentId, config) Visits.siteConfigs
       /\ shouldRunExperiment experimentId config "/write-note/" [] = true
       /\ exists assignment,
            userAssignments (this Visits.writeNote) !! experimentId
            = Some assignment
            /\ bodyAttributes Visits.writeNote
                 !! String.append "data-ab-" experimentId
               = Some (variant assignment)
            /\ getExperimentVariant experimentId Visits.writeNote
               = Some (variant assignment)
            /\ exposureKey experimentId assignment
                 ∈ exposureTracked (this Visits.writeNote).
Proof.
  apply (initialized_page_consistent Samples.visitor Visits.siteConfigs
           "/write-note/" [] Visits.morning Visits.writeNote).
  vm_compute. reflexivity.
Defined.

(** One round of [handleGoalConversion]: what it leaves alone, and what it
    may track. *)
Lemma convert_frame (goalName : string) (p : Page) (experimentId : string)
    (config : Config) :
  let p' := convert goalName p (experimentId, config) in
  experiments p' = experiments p
  /\ bodyAttributes p' = bodyAttributes p
  /\ exposureTracked (this p') = exposureTracked (this p)
  /\ (forall other, other <> experimentId ->
        userAssignments (this p') !! other = userAssignments (this p) !! other)
  /\ (includes goalName (cfg_goals config) = false -> p' = p)
  /\ exists more,
       tracked p' = tracked p ++ more
       /\ forall e, In e more ->
            includes goalName (cfg_goals config) = true
            /\ exists v n, e = ConversionEvent experimentId v goalName n.
Proof.
  cbn [convert].
  destruct (includes goalName (cfg_goals config)) eqn:Hlisted.
  - destruct (userAssignments (this p) !! experimentId) as [a|] eqn:Ha.
    + cbn. repeat split; try discriminate.
      * intros other Hother. now apply lookup_insert_ne.
      * eexists. split; [reflexivity|].
        intros e [<- | []]. split; [reflexivity|]. do 2 eexists. reflexivity.
    + repeat split; try discriminate.
      exists []. split; [now rewrite app_nil_r|]. intros e [].
  - repeat split. exists []. split; [now rewrite app_nil_r|]. intros e [].
Qed.

Lemma fold_convert_frame (goalName : string) (l : list (string * Config)) :
  forall p,
    let p' := fold_left (convert goalName) l p in
    experiments p' = experiments p
    /\ bodyAttributes p' = bodyAttributes p
    /\ exposureTracked (this p') = exposureTracked (this p)
    /\ (forall experimentId,
          (forall config, In (experimentId, config) l ->
             includes goalName (cfg_goals config) = false) ->
          userAssignments (this p') !! experimentId
          = userAssignments (this p) !! experimentId)
    /\ exists more,
         tracked p' = tracked p ++ more
         /\ forall e, In e more ->
              exists experimentId v n config,
                e = ConversionEvent experimentId v goalName n
                /\ In (experimentId, config) l
                /\ includes goalName (cfg_goals config) = true.
Proof.
  induction l as [|[id0 c0] rest IH]; intros p; cbn [fold_left].
  - repeat split. exists []. split; [now rewrite app_nil_r|]. intros e [].
  - destruct (convert_frame goalName p id0 c0)
      as (H1 & H2 & H3 & H4 & H5 & more1 & Hmore1 & Honly1).
    destruct (IH (convert goalName p (id0, c0)))
      as (H1' & H2' & H3' & H4' & more2 & Hmore2 & Honly2).
    cbn zeta. rewrite H1', H2', H3', H1, H2, H3.
    split; [reflexivity|]. split; [reflexivity|]. split; [reflexivity|].
    split.
    + intros id Hquiet. rewrite H4' by (intros c Hc; apply Hquiet; right; exact Hc).
      destruct (decide (id = id0)) as [-> | Hne]; [|now apply H4].
      rewrite H5; [reflexivity|]. apply Hquiet. left. reflexivity.
    + exists (more1 ++ more2). rewrite Hmore2, Hmore1, app_assoc.
      split; [reflexivity|]. intros e He. apply in_app_or in He as [He | He].
      * destruct (Honly1 _ He) as (Hlisted & v & n & ->).
        exists id0, v, n, c0. split; [reflexivity|].
        split; [left; reflexivity|exact Hlisted].
      * destruct (Honly2 _ He) as (id & v & n & c & -> & Hin & Hlisted).
        exists id, v, n, c. split; [reflexivity|].
        split; [right; exact Hin|exact Hlisted].
Qed.

Lemma fold_convert_absent (goalName : string) (l : list (string * Config))
    (p : Page) (experimentId : string) :
  ~ In experimentId (map fst l) ->
  userAssignments (this (fold_left (convert goalName) l p)) !! experimentId
  = userAssignments (this p) !! experimentId.
Proof.
  intros Habsent.
  destruct (fold_convert_frame goalName l p) as (_ & _ & _ & Hquiet & _).
  apply Hquiet. intros c Hc. exfalso. apply Habsent.
  apply in_map_iff. exists (experimentId, c). split; [reflexivity|exact Hc].
Qed.

Lemma fold_convert_tracked (goalName : string) (l : list (string * Config))
    (p : Page) (e : Tracked) :
  In e (tracked p) -> In e (tracked (fold_left (convert goalName) l p)).
Proof.
  intros He.
  destruct (fold_convert_frame goalName l p) as (_ & _ & _ & _ & more & -> & _).
  apply in_or_app. left. exact He.
Qed.

Lemma conversions_recorded (goalName : string) (a : Assignment) :
  List.length (List.filter (String.eqb goalName) (goals a ++ [goalName]))
  = S (conversions goalName a).
Proof.
  unfold conversions. rewrite List.filter_app, List.length_app. cbn.
  rewrite String.eqb_refl. cbn. lia.
Qed.

Lemma fold_convert_listed (goalName : string) (l : list (string * Config))
    (p : Page) (experimentId : string) (config : Config) (a : Assignment) :
  List.NoDup (map fst l) ->
  In (experimentId, config) l ->
  includes goalName (cfg_goals config) = true ->
  userAssignments (this p) !! experimentId = Some a ->
  let p' := fold_left (convert goalName) l p in
  exists a',
    userAssignments (this p') !! experimentId = Some a'
    /\ goals a' = goals a ++ [goalName]
    /\ variant a' = variant a
    /\ exposures a' = exposures a
    /\ conversions goalName a' = S (conversions goalName a)
    /\ In (ConversionEvent experimentId (variant a) goalName
             (S (conversions goalName a))) (tracked p').
Proof.
  intros Hnodup Hin Hlisted Ha p'. subst p'.
  destruct (in_split _ _ Hin) as (l1 & l2 & ->).
  rewrite map_app in Hnodup. cbn [map fst] in Hnodup.
  pose proof (NoDup_remove_2 _ _ _ Hnodup) as Habsent.
  assert (~ In experimentId (map fst l1)) as Habsent1
    by (intros H; apply Habsent, in_or_app; left; exact H).
  assert (~ In experimentId (map fst l2)) as Habsent2
    by (intros H; apply Habsent, in_or_app; right; exact H).
  rewrite fold_left_app. cbn [fold_left].
  set (p1 := fold_left (convert goalName) l1 p).
  assert (userAssignments (this p1) !! experimentId = Some a) as Ha1
    by (unfold p1; rewrite fold_convert_absent by exact Habsent1; exact Ha).
  rewrite fold_convert_absent by exact Habsent2.
  cbn [convert]. rewrite Hlisted, Ha1. cbn [this withAssignments userAssignments].
  eexists. split; [apply lookup_insert_eq|]. cbn [goals variant exposures].
  split; [reflexivity|]. split; [reflexivity|]. split; [reflexivity|].
  split; [apply conversions_recorded|].
  apply fold_convert_tracked. cbn [tracked]. apply in_or_app. right. left.
  now rewrite conversions_recorded.
Qed.

(** X9.  A goal is recorded once in every experiment of the page that
    lists it: the goal is appended to the goals of the visitor's
    assignment, whose variant and exposure count stay, and a conversion is
    tracked for that experiment and variant whose [conversion_count] is one
    more than the number of times the goal was recorded before. *)
Theorem goal_recorded :
  forall (goalName : string) (p : Page) (experimentId : string)
         (config : Config) (assignment : Assignment),
    List.NoDup (map fst (experiments p)) ->
    In (experimentId, config) (experiments p) ->
    includes goalName (cfg_goals config) = true ->
    userAssignments (this p) !! experimentId = Some assignment ->
    exists assignment',
      userAssignments (this (handleGoalConversion goalName p)) !! experimentId
      = Some assignment'
      /\ goals assignment' = goals assignment ++ [goalName]
      /\ variant assignment' = variant assignment
      /\ exposures assignment' = exposures assignment
      /\ conversions goalName assignment' = S (conversions goalName assignment)
      /\ In (ConversionEvent experimentId (variant assignment) goalName
               (S (conversions goalName assignment)))
            (tracked (handleGoalConversion goalName p)).
Proof.
  intros goalName p experimentId config assignment Hnodup Hin Hlisted Ha.
  exact (fold_convert_listed goalName (experiments p) p experimentId config
           assignment Hnodup Hin Hlisted Ha).
Qed.

Lemma goal_recorded_witness :
  exists assignment',
    userAssignments (this (handleGoalConversion "form_submission" Visits.writeNote))
      !! "banner" = Some assignment'
    /\ goals assignment' = ["form_submission"]
    /\ variant assignment' = "control"
    /\ exposures assignment' = 1%nat
    /\ conversions "form_submission" assignment' = 1%nat
    /\ In (ConversionEvent "banner" "control" "form_submission" 1)
          (tracked (handleGoalConversion "form_submission" Visits.writeNote)).
Proof.
  apply (goal_recorded "form_submission" Visits.writeNote "banner" Visits.banner
           (mkAssignment "Banner" "control" "No banner" Visits.morning 1 [])).
  - vm_compute. repeat constructor; cbn; intuition discriminate.
  - vm_compute. right. left. reflexivity.
  - reflexivity.
  - vm_compute. reflexivity.
Defined.

(** X10.  [handleGoalConversion] changes nothing but the goals of
    assignments and the tracked events: the experiments of the page, the
    body attributes and the tracked exposures stay, the assignment of an
    experiment that does not list the goal is untouched, and every event
    it tracks is a conversion of that goal for an experiment of the page
    that lists it. *)
Theorem goal_conversion_frame :
  forall (goalName : string) (p : Page),
    let p' := handleGoalConversion goalName p in
    experiments p' = experiments p
    /\ bodyAttributes p' = bodyAttributes p
    /\ exposureTracked (this p') = exposureTracked (this p)
    /\ (forall experimentId,
          (forall config, In (experimentId, config) (experiments p) ->
             includes goalName (cfg_goals config) = false) ->
          userAssignments (this p') !! experimentId
          = userAssignments (this p) !! experimentId)
    /\ exists more,
         tracked p' = tracked p ++ more
         /\ forall e, In e more ->
              exists experimentId v n config,
                e = ConversionEvent experimentId v goalName n
                /\ In (experimentId, config) (experiments p)
                /\ includes goalName (cfg_goals config) = true.
Proof.
  intros goalName p. exact (fold_convert_frame goalName (experiments p) p).
Qed.

End ExperimentFacts.

(** ** The visitor id *)

Module BrowserFacts.
Import ABTest Browser.

Lemma storedOrNew_cases (fresh : string) (s : Storage) :
  (fst (storedOrNew fresh s) = None /\ snd (storedOrNew fresh s) = s)
  \/ exists u,
       fst (storedOrNew fresh s) = Some u
       /\ reachable (snd (storedOrNew fresh s)) = true
       /\ items (snd (storedOrNew fresh s)) !! "user-journey-id" = Some u
       /\ ((items s !! "user-journey-id" = Some u /\ u <> EmptyString
            /\ snd (storedOrNew fresh s) = s)
           \/ (u = fresh /\ accepting s = true
               /\ Http.present (items s !! "user-journey-id") = false)).
Proof.
  unfold storedOrNew, getItem, setItem.
  destruct (reachable s) eqn:Hreach; [|left; split; reflexivity].
  destruct (Http.present (items s !! "user-journey-id")) eqn:Hstored.
  - right. destruct (items s !! "user-journey-id") as [u|] eqn:Hu; [|discriminate].
    exists u. cbn [fst snd]. split; [reflexivity|]. split; [exact Hreach|].
    split; [exact Hu|]. left. split; [reflexivity|]. split; [|reflexivity].
    intros ->. discriminate Hstored.
  - cbn [andb]. destruct (accepting s) eqn:Hacc; [|left; split; reflexivity].
    right. exists fresh. cbn [fst snd reachable items].
    split; [reflexivity|]. split; [reflexivity|].
    split; [apply lookup_insert_eq|]. right. repeat split.
Qed.

Lemma storedOrNew_null (fresh : string) (s : Storage) :
  fst (storedOrNew fresh s) = None
  <-> reachable s = false
      \/ (Http.present (items s !! "user-journey-id") = false
          /\ accepting s = false).
Proof.
  unfold storedOrNew, getItem, setItem.
  destruct (reachable s); [|split; [left; reflexivity|reflexivity]].
  destruct (Http.present (items s !! "user-journey-id")) eqn:Hstored.
  - destruct (items s !! "user-journey-id"); [|discriminate Hstored].
    cbn. split; [discriminate|]. intros [H | [H _]]; discriminate H.
  - cbn [andb]. destruct (accepting s); cbn.
    + split; [discriminate|]. intros [H | [_ H]]; discriminate H.
    + split; [right; split; reflexivity|reflexivity].
Qed.

Lemma storedOrNew_again (fresh : string) (s : Storage) (u : string) :
  reachable s = true ->
  items s !! "user-journey-id" = Some u ->
  u <> EmptyString ->
  storedOrNew fresh s = (Some u, s).
Proof.
  intros Hreach Hu Hne. unfold storedOrNew, getItem. rewrite Hreach, Hu.
  cbn [Http.present]. destruct (String.eqb u EmptyString) eqn:Hempty.
  - apply String.eqb_eq in Hempty. contradiction.
  - reflexivity.
Qed.

(** X11.  The visitor id is created once and shared: when [getUserId] of
    either manager answers an id, every later call of [getUserId] of
    either manager, whatever new id it would generate, answers the same id
    and leaves the storage as it is. *)
Theorem visitor_id_created_once :
  forall (fresh later : string) (s s' : Storage) (u : string),
    fresh <> EmptyString ->
    ABTestManager_getUserId fresh s = (Some u, s') ->
    ServerTracker_getUserId later s' = (Some u, s')
    /\ ABTestManager_getUserId later s' = (Some u, s').
Proof.
  intros fresh later s s' u Hfresh Hfirst.
  unfold ABTestManager_getUserId, ServerTracker_getUserId in *.
  assert (storedOrNew later s' = (Some u, s')) as Hagain; [|split; exact Hagain].
  destruct (storedOrNew_cases fresh s)
    as [[Hnone _] | (u0 & Hu0 & Hreach & Hitem & Hcase)];
    rewrite Hfirst in *; cbn [fst snd] in *; [discriminate|].
  injection Hu0 as ->.
  apply storedOrNew_again; [exact Hreach|exact Hitem|].
  destruct Hcase as [(_ & Hne & _) | (-> & _)]; assumption.
Qed.

Lemma visitor_id_created_once_witness :
  ServerTracker_getUserId "user_2"
    (snd (ABTestManager_getUserId "user_1" Visits.firstVisit))
  = (Some "user_1", snd (ABTestManager_getUserId "user_1" Visits.firstVisit))
  /\ ABTestManager_getUserId "user_2"
       (snd (ABTestManager_getUserId "user_1" Visits.firstVisit))
     = (Some "user_1", snd (ABTestManager_getUserId "user_1" Visits.firstVisit)).
Proof.
  apply (visitor_id_created_once "user_1" "user_2" Visits.firstVisit).
  - discriminate.
  - reflexivity.
Defined.

(** X12.  [getUserId] answers [null] exactly when the storage cannot be
    reached, or holds no id (none, or the empty string) and refuses the
    write; the storage is then left as it was.  In particular a generated
    id that could not be saved is not used. *)
Theorem visitor_id_null :
  forall (fresh : string) (s : Storage),
    fst (ABTestManager_getUserId fresh s) = None
    <-> reachable s = false
        \/ (Http.present (items s !! "user-journey-id") = false
            /\ accepting s = false).
Proof.
  intros fresh s. exact (storedOrNew_null fresh s).
Qed.

Lemma same_user_same_variant (m1 m2 : ABTestManager) (variants : Variants) :
  userId m1 = userId m2 ->
  selectVariantForUser m1 variants = selectVariantForUser m2 variants.
Proof.
  intros Hsame. unfold selectVariantForUser, randomValue, selectionSeed.
  now rewrite Hsame.
Qed.

(** X13.  Two page views in a row select the same variant of every
    experiment, whatever the storage allows: both read the same stored id,
    or the first one stores the id the second one reads, or both are left
    with [null]. *)
Theorem consecutive_views_same_variant :
  forall (session session' fresh fresh' : string) (s : Storage)
         (variants : Variants),
    fresh <> EmptyString ->
    let '(first, s1) := ABTestManager_new session fresh s in
    let '(second, _) := ABTestManager_new session' fresh' s1 in
    selectVariantForUser first variants = selectVariantForUser second variants.
Proof.
  intros session session' fresh fresh' s variants Hfresh.
  unfold ABTestManager_new, ABTestManager_getUserId.
  destruct (storedOrNew fresh s) as [u1 s1] eqn:Hfirst.
  destruct (storedOrNew fresh' s1) as [u2 s2] eqn:Hsecond.
  apply same_user_same_variant. cbn [userId].
  destruct (storedOrNew_cases fresh s)
    as [[Hnone Hsame] | (u & Hu & Hreach & Hitem & Hcase)];
    rewrite Hfirst in *; cbn [fst snd] in *.
  - subst u1 s1.
    assert (fst (storedOrNew fresh s) = None) as Hnull by now rewrite Hfirst.
    apply storedOrNew_null in Hnull.
    apply (storedOrNew_null fresh') in Hnull. rewrite Hsecond in Hnull.
    cbn [fst] in Hnull. congruence.
  - subst u1.
    assert (u <> EmptyString) as Hne
      by (destruct Hcase as [(_ & Hne & _) | (-> & _)]; assumption).
    rewrite (storedOrNew_again fresh' s1 u Hreach Hitem Hne) in Hsecond.
    congruence.
Qed.

Lemma consecutive_views_same_variant_witness :
  selectVariantForUser
    (fst (ABTestManager_new "ab_1" "user_1" Visits.firstVisit))
    Samples.writeFormLayout
  = selectVariantForUser
      (fst (ABTestManager_new "ab_2" "user_2"
              (snd (ABTestManager_new "ab_1" "user_1" Visits.firstVisit))))
      Samples.writeFormLayout.
Proof.
  generalize (consecutive_views_same_variant "ab_1" "ab_2" "user_1" "user_2"
                Visits.firstVisit Samples.writeFormLayout
                ltac:(discriminate)).
  destruct (ABTestManager_new "ab_1" "user_1" Visits.firstVisit) as [first s1].
  cbn [fst snd].
  destruct (ABTestManager_new "ab_2" "user_2" s1) as [second s2].
  trivial.
Defined.

End BrowserFacts.

(** ** The event queue: what is sent, and when *)

Module DeliveryFacts.
Import ServerTracker Delivery.

Lemma sent_app (t1 t2 : list Effect) : sent (t1 ++ t2) = sent t1 ++ sent t2.
Proof. unfold sent. apply flat_map_app. Qed.

Lemma tracks_cons (a : Action) (rest : list Action) :
  tracks (a :: rest) = tracks [a] ++ tracks rest.
Proof. unfold tracks. cbn [flat_map]. now rewrite app_nil_r. Qed.

Lemma run_cons (a : Action) (rest : list Action) (this : Tracker) :
  run (a :: rest) this
  = (fst (run rest (fst (step a this))),
     snd (step a this) ++ snd (run rest (fst (step a this)))).
Proof.
  cbn [run]. destruct (step a this) as [this1 out1]. cbn [fst snd].
  destruct (run rest this1) as [this2 out2]. reflexivity.
Qed.

Lemma flushQueue_online (isSync : bool) (this : Tracker) :
  isOnline (fst (flushQueue isSync this)) = isOnline this.
Proof.
  unfold flushQueue.
  destruct (Nat.eqb (List.length (eventQueue this)) 0 || negb (isOnline this));
    reflexivity.
Qed.

Lemma addToQueue_online (event : Event) (this : Tracker) :
  isOnline (fst (addToQueue event this)) = isOnline this.
Proof.
  unfold addToQueue.
  destruct (Nat.leb batchSize _); [|reflexivity].
  now rewrite flushQueue_online.
Qed.

Lemma settle_online (k : nat) (network : list bool) (this : Tracker) :
  isOnline (settle k network this) = isOnline this.
Proof.
  unfold settle. destruct (nth_error (inFlight this) k); [|reflexivity].
  destruct (fst (sendAsync network 0)); reflexivity.
Qed.

Lemma step_offline (a : Action) (this : Tracker) :
  isOnline this = false ->
  staysOffline a = true ->
  snd (step a this) = [] /\ isOnline (fst (step a this)) = false.
Proof.
  intros Hoff Hstay. destruct a; try discriminate; cbn [step fst snd].
  - unfold track. rewrite ServerTrackerFacts.addToQueue_effect, addToQueue_online.
    cbn [isOnline]. rewrite Hoff, andb_false_r. split; reflexivity.
  - unfold timerFires. destruct (Nat.ltb 0 _); [|split; [reflexivity|exact Hoff]].
    rewrite ServerTrackerFacts.flushQueue_effect, flushQueue_online, Hoff, andb_false_r.
    split; reflexivity.
  - split; reflexivity.
  - rewrite ServerTrackerFacts.flushQueue_effect, flushQueue_online, Hoff, andb_false_r.
    split; reflexivity.
  - rewrite ServerTrackerFacts.flushQueue_effect, flushQueue_online, Hoff, andb_false_r.
    split; reflexivity.
  - rewrite ServerTrackerFacts.flushQueue_effect, flushQueue_online, Hoff, andb_false_r.
    split; reflexivity.
  - split; [reflexivity|exact Hoff].
  - split; [reflexivity|]. now rewrite settle_online.
Qed.

(** X14.  An offline tracker starts no send: until the [online] listener
    runs, no call of [track], timer tick, visibility change, page unload,
    manual flush, [clearQueue] or settling of an earlier send hands a
    batch to [sendAsync] or [sendSync], however long the queue grows, and
    the tracker stays offline.  (A send that was started before may still
    repeat its request meanwhile: the retry loop of [sendAsync] does not
    look at [isOnline].) *)
Theorem offline_starts_no_send :
  forall (actions : list Action) (this : Tracker),
    isOnline this = false ->
    forallb staysOffline actions = true ->
    snd (run actions this) = []
    /\ isOnline (fst (run actions this)) = false.
Proof.
  induction actions as [|a rest IH]; intros this Hoff Hstay.
  - split; [reflexivity|exact Hoff].
  - cbn [forallb] in Hstay. apply andb_true_iff in Hstay as [Ha Hrest].
    destruct (step_offline a this Hoff Ha) as [Hout Hoff1].
    destruct (IH _ Hoff1 Hrest) as [Hout2 Hoff2].
    rewrite run_cons. cbn [fst snd]. rewrite Hout, Hout2.
    split; [reflexivity|exact Hoff2].
Qed.

Lemma offline_starts_no_send_witness :
  snd (run (repeat (Track "page_view" []) 25 ++ [TimerFires; BeforeUnload])
         (initial false)) = []
  /\ isOnline (fst (run (repeat (Track "page_view" []) 25
                          ++ [TimerFires; BeforeUnload]) (initial false)))
     = false.
Proof.
  apply (offline_starts_no_send
           (repeat (Track "page_view" []) 25 ++ [TimerFires; BeforeUnload])
           (initial false)).
  - reflexivity.
  - reflexivity.
Defined.

Lemma flushQueue_conserves (isSync : bool) (this : Tracker) :
  sent (snd (flushQueue isSync this)) ++ eventQueue (fst (flushQueue isSync this))
  = eventQueue this
  /\ allocated (fst (flushQueue isSync this)) = allocated this.
Proof.
  unfold flushQueue.
  destruct (Nat.eqb (List.length (eventQueue this)) 0 || negb (isOnline this));
    cbn; [split; reflexivity|].
  rewrite app_nil_r. split; [apply firstn_skipn|reflexivity].
Qed.

Lemma step_conserves (a : Action) (this : Tracker) :
  lossless a = true ->
  sent (snd (step a this)) ++ eventQueue (fst (step a this))
  = eventQueue this ++ numbered (allocated this) (tracks [a])
  /\ allocated (fst (step a this))
     = (allocated this + List.length (tracks [a]))%nat.
Proof.
  intros Hkeep. destruct a; try discriminate; cbn [step tracks flat_map app numbered];
    rewrite ?app_nil_r, ?Nat.add_0_r.
  - unfold track, addToQueue. cbn [eventQueue].
    destruct (Nat.leb batchSize _).
    + match goal with
      | |- context [flushQueue false ?t] =>
          destruct (flushQueue_conserves false t) as [-> ->]
      end.
      cbn. split; [reflexivity|lia].
    + cbn. split; [reflexivity|lia].
  - unfold timerFires. destruct (Nat.ltb 0 _); [|split; reflexivity].
    apply flushQueue_conserves.
  - destruct (flushQueue_conserves false (setOnline true this)) as [-> ->].
    split; reflexivity.
  - split; reflexivity.
  - apply flushQueue_conserves.
  - apply flushQueue_conserves.
  - apply flushQueue_conserves.
  - cbn [lossless] in Hkeep. cbn [fst snd sent flat_map app]. unfold settle.
    destruct (nth_error (inFlight this) k); [|split; reflexivity].
    rewrite Hkeep. split; reflexivity.
Qed.

Lemma numbered_app (from : nat) (l1 l2 : list (string * list (string * string))) :
  numbered from (l1 ++ l2)
  = numbered from l1 ++ numbered (from + List.length l1) l2.
Proof.
  revert from. induction l1 as [|[n d] rest IH]; intros from; cbn.
  - now rewrite Nat.add_0_r.
  - rewrite IH. now rewrite Nat.add_succ_r.
Qed.

Lemma run_conserves (actions : list Action) :
  forall this,
    forallb lossless actions = true ->
    sent (snd (run actions this)) ++ eventQueue (fst (run actions this))
    = eventQueue this ++ numbered (allocated this) (tracks actions)
    /\ allocated (fst (run actions this))
       = (allocated this + List.length (tracks actions))%nat.
Proof.
  induction actions as [|a rest IH]; intros this Hkeep.
  - cbn. rewrite app_nil_r. split; [reflexivity|lia].
  - cbn [forallb] in Hkeep. apply andb_true_iff in Hkeep as [Ha Hrest].
    destruct (step_conserves a this Ha) as [Hstep Halloc].
    destruct (IH (fst (step a this)) Hrest) as [Hrun Halloc'].
    rewrite run_cons. cbn [fst snd].
    rewrite sent_app, <- app_assoc, Hrun, app_assoc, Hstep, Halloc', Halloc.
    rewrite (tracks_cons a rest), numbered_app, length_app, <- app_assoc.
    split; [reflexivity|lia].
Qed.

(** X15.  As long as no send fails and the queue is not cleared, no
    tracked event is lost, repeated or reordered: the events handed to
    sends so far, followed by the events still queued, are the events that
    were queued at the start followed by one event object per call of
    [track], in the order of the calls, with no retry count. *)
Theorem lossless_run_keeps_order :
  forall (actions : list Action) (this : Tracker),
    forallb lossless actions = true ->
    sent (snd (run actions this)) ++ eventQueue (fst (run actions this))
    = eventQueue this ++ numbered (allocated this) (tracks actions).
Proof.
  intros actions this Hkeep. exact (proj1 (run_conserves actions this Hkeep)).
Qed.

Lemma lossless_run_keeps_order_witness :
  sent (snd (run (repeat (Track "page_view" []) 12 ++ [Settle 0 [false; true]])
               (initial true)))
  ++ eventQueue (fst (run (repeat (Track "page_view" []) 12
                             ++ [Settle 0 [false; true]]) (initial true)))
  = numbered 0 (repeat ("page_view", []) 12).
Proof.
  apply (lossless_run_keeps_order
           (repeat (Track "page_view" []) 12 ++ [Settle 0 [false; true]])
           (initial true)).
  reflexivity.
Defined.

Lemma flushQueue_batch (isSync : bool) (this : Tracker) (s : bool)
    (batch : list Event) :
  In (Send s batch) (snd (flushQueue isSync this)) ->
  (1 <= List.length batch <= batchSize)%nat.
Proof.
  rewrite ServerTrackerFacts.flushQueue_effect.
  destruct (Nat.ltb 0 (List.length (eventQueue this))) eqn:Hpos; [|intros []].
  destruct (isOnline this); [|intros []].
  intros [H | []]. injection H as _ <-. apply Nat.ltb_lt in Hpos.
  rewrite length_firstn. unfold batchSize in *. lia.
Qed.

Lemma step_batch (a : Action) (this : Tracker) (s : bool) (batch : list Event) :
  In (Send s batch) (snd (step a this)) ->
  (1 <= List.length batch <= batchSize)%nat.
Proof.
  destruct a; cbn [step snd]; try (intros []); try apply flushQueue_batch.
  - unfold track, addToQueue. destruct (Nat.leb batchSize _); [|intros []].
    apply flushQueue_batch.
  - unfold timerFires. destruct (Nat.ltb 0 _); [|intros []].
    apply flushQueue_batch.
Qed.

(** X16.  Every request of a run carries at least one and at most
    [batchSize] (10) events, whatever happened before it. *)
Theorem batches_bounded :
  forall (actions : list Action) (this : Tracker) (isSync : bool)
         (batch : list Event),
    In (Send isSync batch) (snd (run actions this)) ->
    (1 <= List.length batch <= batchSize)%nat.
Proof.
  induction actions as [|a rest IH]; intros this isSync batch Hin.
  - destruct Hin.
  - rewrite run_cons in Hin. cbn [snd] in Hin.
    apply in_app_or in Hin as [Hin | Hin].
    + exact (step_batch _ _ _ _ Hin).
    + exact (IH _ _ _ Hin).
Qed.

Lemma batches_bounded_witness :
  (1 <= List.length (firstn 10 (numbered 0 (repeat ("page_view", []) 10)))
   <= batchSize)%nat.
Proof.
  apply (batches_bounded (repeat (Track "page_view" []) 10) (initial true) false).
  vm_compute. left. reflexivity.
Defined.

Lemma described_bump (e : Event) : described (bump e) = described e.
Proof. reflexivity. Qed.

Lemma held_requeue (batch queue : list Event) (x : string * list (string * string)) :
  In x (map described (requeue batch queue)) ->
  In x (map described (queue ++ batch)).
Proof.
  rewrite ServerTrackerFacts.requeue_spec, !map_app, map_rev, map_map.
  intros H. apply in_app_or in H as [H | H]; apply in_or_app; [right|left; exact H].
  apply in_rev in H. apply in_map_iff in H as (e & <- & He).
  apply List.filter_In in He as [He _]. rewrite described_bump.
  now apply in_map.
Qed.

Lemma skipn_later {A} (x : A) :
  forall (k : nat) (l : list (list A)),
    In x (concat (skipn (S k) l)) -> In x (concat (skipn k l)).
Proof.
  induction k as [|k IH]; intros [|b l] H; try (destruct H; fail).
  - cbn in *. apply in_or_app. now right.
  - cbn [skipn] in *. now apply IH.
Qed.

Lemma removeNth_incl {A} (k : nat) (l : list (list A)) (x : A) :
  In x (concat (removeNth k l)) -> In x (concat l).
Proof.
  unfold removeNth. rewrite concat_app. intros H.
  rewrite <- (firstn_skipn k l), concat_app.
  apply in_app_or in H as [H | H]; apply in_or_app; [left; exact H|right].
  now apply skipn_later.
Qed.

Lemma flushQueue_held (isSync : bool) (this : Tracker) (e : Event) :
  In e (held (fst (flushQueue isSync this))
        ++ sent (snd (flushQueue isSync this))) ->
  In e (held this).
Proof.
  unfold flushQueue, held.
  destruct (Nat.eqb (List.length (eventQueue this)) 0 || negb (isOnline this));
    cbn [fst snd eventQueue inFlight sent flat_map].
  - now rewrite app_nil_r.
  - rewrite app_nil_r. intros H.
    assert (In e (eventQueue this)
            \/ In e (concat (inFlight this))) as [Hq | Hf].
    { apply in_app_or in H as [H | H].
      - apply in_app_or in H as [H | H].
        + left. rewrite <- (firstn_skipn batchSize). apply in_or_app. now right.
        + destruct isSync; [right; exact H|].
          rewrite concat_app in H. cbn in H. rewrite app_nil_r in H.
          apply in_app_or in H as [H | H]; [right; exact H|].
          left. rewrite <- (firstn_skipn batchSize). apply in_or_app. now left.
      - left. rewrite <- (firstn_skipn batchSize). apply in_or_app. now left. }
    + apply in_or_app. now left.
    + apply in_or_app. now right.
Qed.

Lemma step_held (a : Action) (this : Tracker) (x : string * list (string * string)) :
  In x (map described (held (fst (step a this)) ++ sent (snd (step a this)))) ->
  In x (map described (held this) ++ tracks [a]).
Proof.
  assert (forall isSync that,
            In x (map described (held (fst (flushQueue isSync that))
                                 ++ sent (snd (flushQueue isSync that)))) ->
            In x (map described (held that))) as Hflush.
  { intros isSync that H. apply in_map_iff in H as (e & <- & He).
    apply in_map. exact (flushQueue_held _ _ _ He). }
  destruct a; cbn [step tracks flat_map app]; rewrite ?app_nil_r;
    try apply Hflush.
  - unfold track, addToQueue. cbn [eventQueue].
    match goal with
    | |- context [Nat.leb ?n ?m] => destruct (Nat.leb n m)
    end.
    + intros H. apply Hflush in H. unfold held in *. cbn [eventQueue inFlight] in H.
      rewrite !map_app in *. cbn [map] in H. unfold described at 2 in H.
      cbn [ev_name ev_data] in H.
      apply in_app_or in H as [H | H]; [|apply in_or_app; left; apply in_or_app; now right].
      apply in_app_or in H as [H | H];
        [apply in_or_app; left; apply in_or_app; now left|].
      apply in_or_app. right. exact H.
    + unfold held. cbn [fst snd eventQueue inFlight sent flat_map].
      rewrite app_nil_r, !map_app. cbn [map]. unfold described at 2.
      cbn [ev_name ev_data]. intros H.
      apply in_app_or in H as [H | H]; [|apply in_or_app; left; apply in_or_app; now right].
      apply in_app_or in H as [H | H];
        [apply in_or_app; left; apply in_or_app; now left|].
      apply in_or_app. right. exact H.
  - unfold timerFires. destruct (Nat.ltb 0 _); [apply Hflush|].
    cbn [fst snd sent flat_map]. now rewrite app_nil_r.
  - intros H. exact H.
  - unfold held, clearQueue. cbn [fst eventQueue inFlight app].
    rewrite map_app. intros H. apply in_or_app. now right.
  - cbn [fst]. unfold settle.
    destruct (nth_error (inFlight this) k) as [batch|] eqn:Hk; [|trivial].
    assert (forall e, In e batch -> In e (concat (inFlight this))) as Hbatch.
    { intros e He. apply in_concat. exists batch.
      split; [exact (nth_error_In _ _ Hk)|exact He]. }
    unfold held.
    destruct (fst (sendAsync network 0)); cbn [eventQueue inFlight];
      rewrite !map_app; intros H; apply in_app_or in H as [H | H].
    + apply in_or_app. now left.
    + apply in_or_app. right. apply in_map_iff in H as (e & <- & He).
      apply in_map. exact (removeNth_incl _ _ _ He).
    + apply held_requeue in H. rewrite map_app in H.
      apply in_app_or in H as [H | H]; [apply in_or_app; now left|].
      apply in_or_app. right. apply in_map_iff in H as (e & <- & He).
      apply in_map. now apply Hbatch.
    + apply in_or_app. right. apply in_map_iff in H as (e & <- & He).
      apply in_map. exact (removeNth_incl _ _ _ He).
Qed.

Lemma run_held (actions : list Action) :
  forall (this : Tracker) (x : string * list (string * string)),
    In x (map described (held (fst (run actions this))
                         ++ sent (snd (run actions this)))) ->
    In x (map described (held this) ++ tracks actions).
Proof.
  induction actions as [|a rest IH]; intros this x H.
  - cbn in H. rewrite app_nil_r in H. cbn. now rewrite app_nil_r.
  - rewrite run_cons in H. cbn [fst snd] in H.
    rewrite sent_app in H. rewrite (tracks_cons a rest), app_assoc.
    rewrite !map_app in H.
    assert (In x (map described (held (fst (run rest (fst (step a this))))
                                 ++ sent (snd (run rest (fst (step a this))))))
            \/ In x (map described (sent (snd (step a this))))) as [Hlater | Hnow].
    { rewrite map_app.
      apply in_app_or in H as [H | H]; [left; apply in_or_app; now left|].
      apply in_app_or in H as [H | H]; [now right|left; apply in_or_app; now right]. }
    + apply IH in Hlater. apply in_app_or in Hlater as [Hl | Hl];
        [|apply in_or_app; now right].
      apply in_or_app. left. apply step_held. rewrite map_app.
      apply in_or_app. now left.
    + apply in_or_app. left. apply step_held. rewrite map_app.
      apply in_or_app. now right.
Qed.

(** X17.  Nothing is made up: in every run of the tracker, failed sends
    and retries included, each event handed to a send has the name and
    data of a call of [track] of that run. *)
Theorem sent_events_were_tracked :
  forall (actions : list Action) (online : bool) (isSync : bool)
         (batch : list Event) (e : Event),
    In (Send isSync batch) (snd (run actions (initial online))) ->
    In e batch ->
    In (ev_name e, ev_data e) (tracks actions).
Proof.
  intros actions online isSync batch e Hsend He.
  apply (run_held actions (initial online) (described e)).
  apply in_map. apply in_or_app. right.
  unfold sent. apply in_flat_map. exists (Send isSync batch).
  split; [exact Hsend|exact He].
Qed.

Lemma sent_events_were_tracked_witness :
  In ("page_view", []) (tracks Samples.unlucky).
Proof.
  apply (sent_events_were_tracked Samples.unlucky true false
           (map bump (rev (firstn 10 (numbered 0 (repeat ("page_view", []) 10)))))
           (mkEvent 0 "page_view" [] (Some 1%nat))).
  - vm_compute. right. left. reflexivity.
  - vm_compute. do 9 right. left. reflexivity.
Defined.

Lemma numbered_refs (calls : list (string * list (string * string))) :
  forall from, map ev_ref (numbered from calls) = seq from (List.length calls).
Proof.
  induction calls as [|[n d] rest IH]; intros from; [reflexivity|].
  cbn [numbered map ev_ref List.length seq]. now rewrite IH.
Qed.

(** X30.  When no send fails and the queue is not cleared, every event
    object is handed to a send at most once: the resends bounded by the
    retry ceiling happen only after a failed send. *)
Theorem accepted_events_sent_once :
  forall (actions : list Action) (online : bool),
    forallb lossless actions = true ->
    List.NoDup (map ev_ref (sent (snd (run actions (initial online))))).
Proof.
  intros actions online Hkeep.
  destruct (run_conserves actions (initial online) Hkeep) as [Hall _].
  cbn [initial eventQueue allocated app] in Hall.
  apply (f_equal (map ev_ref)) in Hall. rewrite map_app, numbered_refs in Hall.
  apply (NoDup_app_remove_r _ (map ev_ref (eventQueue
                                             (fst (run actions (initial online)))))).
  rewrite Hall. apply seq_NoDup.
Qed.

Lemma accepted_events_sent_once_witness :
  List.NoDup
    (map ev_ref
       (sent (snd (run (repeat (Track "page_view" []) 12
                        ++ [Settle 0 [false; true]; BeforeUnload])
                     (initial true))))).
Proof.
  apply (accepted_events_sent_once
           (repeat (Track "page_view" []) 12
            ++ [Settle 0 [false; true]; BeforeUnload]) true).
  reflexivity.
Defined.

(** X18.  [sendAsync] makes at most four requests, waiting 1000, 2000 and
    4000 ms between them: it resolves exactly when one of the first four
    answers is ok, having waited the delays that precede the first such
    answer, and it rejects after the three delays (7000 ms in all) when
    none is. *)
Theorem sendAsync_backoff :
  forall (network : list bool),
    exists k : nat,
      (k <= maxRetries)%nat
      /\ snd (sendAsync network 0) = firstn k [1000; 2000; 4000]
      /\ (forall i, (i < k)%nat -> nth i network false = false)
      /\ (if fst (sendAsync network 0)
          then nth k network false = true
          else k = maxRetries /\ nth k network false = false).
Proof.
  intros network.
  destruct network as [|[|] [|[|] [|[|] [|[|] rest]]]]; cbn;
    first
      [ exists 0%nat; split; [unfold maxRetries; lia|]; split; [reflexivity|];
        split; [intros i Hi; lia|reflexivity]
      | exists 1%nat; split; [unfold maxRetries; lia|]; split; [reflexivity|];
        split; [intros [|i] Hi; [reflexivity|lia]|reflexivity]
      | exists 2%nat; split; [unfold maxRetries; lia|]; split; [reflexivity|];
        split; [intros [|[|i]] Hi; [reflexivity|reflexivity|lia]|reflexivity]
      | exists 3%nat; split; [unfold maxRetries; lia|]; split; [reflexivity|];
        split; [intros [|[|[|i]]] Hi; [reflexivity|reflexivity|reflexivity|lia]
               |first [reflexivity|split; reflexivity]] ].
Qed.

End DeliveryFacts.

(** ** The like counter: what a request can change *)

Module LikeStepFacts.
Import Http Likes LikeSteps.

Lemma incrementLike_phases (pageId : string) (s : Store) :
  incrementLike pageId s
  = match incrementLikeRead pageId s with
    | (None, s1) => (None, s1)
    | (Some existing, s1) => incrementLikeWrite pageId existing s1
    end.
Proof.
  unfold incrementLike, incrementLikeRead, incrementLikeWrite.
  destruct (supabaseRequest (SelectEq pageId) s) as [[[|first others]|] s1];
    reflexivity.
Qed.





Lemma present_id (id : string) : id <> EmptyString -> present (Some id) = true.
Proof. intros Hid. cbn. destruct id; [contradiction|reflexivity]. Qed.



Lemma patch_other (pageId other : string) (newCount : Z) (table : list Row) :
  other <> pageId ->
  List.filter (matches other)
    (map (fun r => if matches pageId r then mkRow (page_id r) newCount else r) table)
  = List.filter (matches other) table.
Proof.
  intros Hne. induction table as [|r rest IH]; [reflexivity|].
  cbn [map List.filter]. rewrite IH.
  destruct (matches pageId r) eqn:Hm; [|reflexivity].
  unfold matches in *. cbn [page_id]. apply String.eqb_eq in Hm.
  assert (String.eqb (page_id r) other = false) as ->
    by (apply String.eqb_neq; congruence).
  reflexivity.
Qed.

Lemma request_other (q : Query) (s : Store) (pageId other : string) :
  other <> pageId ->
  (q = SelectEq pageId \/ (exists n, q = PatchEq pageId n)
   \/ (exists n, q = Insert (mkRow pageId n))) ->
  stored other (snd (supabaseRequest q s)) = stored other s.
Proof.
  intros Hne Hq. unfold stored, supabaseRequest.
  assert (List.filter (matches other) (snd (apply q (rows s)))
          = List.filter (matches other) (rows s)) as Happly.
  { destruct Hq as [-> | [[n ->] | [n ->]]]; cbn [apply snd].
    - reflexivity.
    - now apply patch_other.
    - rewrite List.filter_app. cbn [List.filter]. unfold matches at 2.
      cbn [page_id].
      assert (String.eqb pageId other = false) as ->
        by (apply String.eqb_neq; congruence).
      apply app_nil_r. }
  destruct (hd Answered (replies s)); [reflexivity| |];
    destruct (apply q (rows s)) as [data table]; cbn [snd rows] in *;
    now rewrite Happly.
Qed.

Lemma incrementLike_other (pageId other : string) (s : Store) :
  other <> pageId ->
  stored other (snd (incrementLike pageId s)) = stored other s.
Proof.
  intros Hne. unfold incrementLike.
  pose proof (request_other (SelectEq pageId) s pageId other Hne
                (or_introl eq_refl)) as Hsel.
  destruct (supabaseRequest (SelectEq pageId) s) as [[[|first others]|] s1];
    cbn [snd] in Hsel; [| |exact Hsel].
  - pose proof (request_other (Insert (mkRow pageId 1)) s1 pageId other Hne
                  (or_intror (or_intror (ex_intro _ 1 eq_refl)))) as Hw.
    destruct (supabaseRequest (Insert (mkRow pageId 1)) s1) as [[data|] s2];
      cbn [snd] in *; congruence.
  - pose proof (request_other
                  (PatchEq pageId (binary64 (binary64 (count first) + 1))) s1
                  pageId other Hne
                  (or_intror (or_introl (ex_intro _ _ eq_refl)))) as Hw.
    destruct (supabaseRequest
                (PatchEq pageId (binary64 (binary64 (count first) + 1))) s1)
      as [[data|] s2]; cbn [snd] in *; congruence.
Qed.

(** X20.  A request touches one counter only: whatever the request and
    however the store answers, the count stored for any page other than
    the one named by the [id] parameter (without its leading slash) is the
    same after the request as before. *)
Theorem other_counters_untouched :
  forall (env : Env) (req : Request) (s : Store) (other : string),
    other <> cleanId (default EmptyString (queryId req)) ->
    stored other (snd (handler env req s)) = stored other s.
Proof.
  intros env req s other Hne. unfold handler.
  destruct (String.eqb (method req) "OPTIONS"); [reflexivity|].
  destruct (negb (present (SUPABASE_URL env))
            || negb (present (SUPABASE_ANON_KEY env))); [reflexivity|].
  destruct (negb (present (queryId req))); [reflexivity|].
  change (match queryId req with Some i => i | None => EmptyString end)
    with (default EmptyString (queryId req)).
  set (page := cleanId (default EmptyString (queryId req))) in *.
  destruct (String.eqb (method req) "POST").
  - pose proof (incrementLike_other page other s Hne) as H.
    destruct (incrementLike page s) as [[n|] s']; exact H.
  - destruct (String.eqb (method req) "GET"); [|reflexivity].
    unfold getLikeCount.
    pose proof (request_other (SelectEq page) s page other Hne
                  (or_introl eq_refl)) as H.
    destruct (supabaseRequest (SelectEq page) s) as [[[|first others]|] s1];
      exact H.
Qed.

Lemma other_counters_untouched_witness :
  stored "posts/other/"
    (snd (handler Samples.production Samples.anonymousLike
            (mkStore [mkRow "posts/other/" 7; mkRow "posts/hello/" 2] [])))
  = stored "posts/other/"
      (mkStore [mkRow "posts/other/" 7; mkRow "posts/hello/" 2] []).
Proof.
  apply (other_counters_untouched Samples.production Samples.anonymousLike
           (mkStore [mkRow "posts/other/" 7; mkRow "posts/hello/" 2] [])
           "posts/other/").
  discriminate.
Defined.

(** X21.  Likes add up: with the store configured and answering every
    request with a JSON body, [k] POST requests for a page, one after the
    other, raise its stored count by [k] (from 0 when the page had no
    record), and a GET then answers that count, as long as the counts stay
    of magnitude at most 2^53, where the sums the function computes in
    binary64 are exact. *)
Theorem likes_add_up :
  forall (env : Env) (req : Request) (id : string) (k : nat) (table : list Row),
    present (SUPABASE_URL env) = true ->
    present (SUPABASE_ANON_KEY env) = true ->
    id <> EmptyString ->
    method req = "POST" ->
    queryId req = Some id ->
    let page := cleanId id in
    let before := mkStore table [] in
    let after := Nat.iter k (fun s => snd (handler env req s)) before in
    - 2 ^ 53 < default 0 (stored page before) ->
    default 0 (stored page before) + Z.of_nat k <= 2 ^ 53 ->
    default 0 (stored page after) = default 0 (stored page before) + Z.of_nat k
    /\ replies after = []
    /\ handler env (mkRequest "GET" None None (Some id)) after
       = (Responded (mkResponse 200 (LikeCount page (default 0 (stored page after)))),
          after).
Proof.
  intros env req id k table Hurl Hkey Hid Hpost Hquery page before after Hlow Hhigh.
  pose proof (present_id id Hid) as Hpresent.
  assert (forall rows0,
            - 2 ^ 53 < default 0 (stored page (mkStore rows0 [])) < 2 ^ 53 ->
            exists rows1,
              snd (handler env req (mkStore rows0 [])) = mkStore rows1 []
              /\ stored page (mkStore rows1 [])
                 = Some (default 0 (stored page (mkStore rows0 [])) + 1)) as Hone.
  { intros rows0 Hbound.
    destruct (LikesFacts.incrementLike_up page rows0 Hbound)
      as (rows1 & Hinc & Hstored).
    exists rows1. split; [|exact Hstored].
    unfold handler. rewrite Hpost, Hquery, Hurl, Hkey, Hpresent.
    cbn [String.eqb Ascii.eqb negb orb]. fold page. rewrite Hinc. reflexivity. }
  assert (forall j,
            (j <= k)%nat ->
            exists rowsJ,
              Nat.iter j (fun s => snd (handler env req s)) before = mkStore rowsJ []
              /\ default 0 (stored page (mkStore rowsJ []))
                 = default 0 (stored page before) + Z.of_nat j) as Hiter.
  { induction j as [|j IH]; intros Hj.
    - exists table. split; [reflexivity|].
      change (Z.of_nat 0) with 0. now rewrite Z.add_0_r.
    - destruct (IH ltac:(lia)) as (rowsJ & HJ & Hsum).
      rewrite Nat.iter_succ, HJ.
      destruct (Hone rowsJ ltac:(rewrite Hsum; lia)) as (rows1 & -> & Hstored).
      exists rows1. split; [reflexivity|]. rewrite Hstored.
      change (default 0 (stored page (mkStore rowsJ [])) + 1
              = default 0 (stored page before) + Z.of_nat (S j)).
      rewrite Hsum. lia. }
  destruct (Hiter k (le_n k)) as (rowsK & Hafter & Hsum).
  fold after in Hafter. rewrite Hafter.
  split; [exact Hsum|]. split; [reflexivity|].
  unfold handler. cbn [method queryId].
  rewrite Hurl, Hkey, Hpresent. cbn [String.eqb Ascii.eqb negb orb]. fold page.
  rewrite LikesFacts.getLikeCount_up, LikesFacts.binary64_exact by lia.
  reflexivity.
Qed.

Lemma likes_add_up_witness :
  default 0 (stored "posts/hello/"
               (Nat.iter 3
                  (fun s => snd (handler Samples.production Samples.anonymousLike s))
                  (mkStore [mkRow "posts/hello/" 2] [])))
  = 5.
Proof.
  refine (proj1 (likes_add_up Samples.production Samples.anonymousLike
                   "/posts/hello/" 3 [mkRow "posts/hello/" 2] _ _ _ _ _ _ _)).
  - reflexivity.
  - reflexivity.
  - discriminate.
  - reflexivity.
  - reflexivity.
  - vm_compute. reflexivity.
  - vm_compute. discriminate.
Defined.

(** X22.  A page is counted under its path without the leading slash: a
    request whose [id] is [/x] is handled exactly as the request whose
    [id] is [x], for every non-empty [x] that does not itself start with
    a slash. *)
Theorem leading_slash_ignored :
  forall (env : Env) (req : Request) (s : Store) (c : ascii) (rest : string),
    c <> "/"%char ->
    handler env (withId req (String "/" (String c rest))) s
    = handler env (withId req (String c rest)) s.
Proof.
  intros env req s c rest Hc.
  assert (cleanId (String c rest) = String c rest) as Hclean.
  { unfold cleanId. destruct c as [[|] [|] [|] [|] [|] [|] [|] [|]];
      try reflexivity. contradiction Hc. reflexivity. }
  unfold handler, withId. cbn [method queryId present String.eqb negb].
  change (cleanId (String "/" (String c rest))) with (String c rest).
  rewrite Hclean. reflexivity.
Qed.

Lemma leading_slash_ignored_witness :
  handler Samples.production (withId Samples.readLike "/posts/hello/")
    Samples.emptyStore
  = handler Samples.production (withId Samples.readLike "posts/hello/")
      Samples.emptyStore.
Proof.
  apply (leading_slash_ignored Samples.production Samples.readLike
           Samples.emptyStore "p" "osts/hello/").
  discriminate.
Defined.

(** X23.  Two overlapping likes can count as one: when two invocations of
    [incrementLike] for a page that has a record both read the count
    before either writes, both answer the count plus one and that is what
    the store then holds, one less than after the same two invocations
    run one after the other (for a store that answers every request with
    a JSON body and counts of magnitude below 2^53, where the sums are
    exact). *)
Theorem overlapping_likes_count_once :
  forall (pageId : string) (table : list Row) (n : Z),
    stored pageId (mkStore table []) = Some n ->
    - 2 ^ 53 < n < 2 ^ 53 - 1 ->
    (exists after,
       overlapping pageId (mkStore table []) = (Some (n + 1), Some (n + 1), after)
       /\ stored pageId after = Some (n + 1))
    /\ (exists s1 s2,
          incrementLike pageId (mkStore table []) = (Some (n + 1), s1)
          /\ incrementLike pageId s1 = (Some (n + 2), s2)
          /\ stored pageId s2 = Some (n + 2)).
Proof.
  intros pageId table n Hn Hbound.
  pose proof (LikesFacts.binary64_next n ltac:(lia)) as Hnext.
  split.
  - unfold overlapping, incrementLikeRead, incrementLikeWrite.
    rewrite !LikesFacts.supabaseRequest_up. cbn [apply fst snd].
    unfold stored in Hn. cbn [rows] in Hn.
    destruct (List.filter (matches pageId) table) as [|first others] eqn:Hfound;
      [discriminate|].
    injection Hn as Hn. rewrite ?LikesFacts.supabaseRequest_up.
    cbn [apply fst snd]. rewrite Hn, Hnext.
    eexists. split; [reflexivity|].
    unfold stored. cbn [rows].
    rewrite !LikesFacts.filter_patched, Hfound. reflexivity.
  - destruct (LikesFacts.incrementLike_old pageId table n Hn) as (t1 & H1 & Hs1).
    rewrite Hnext in H1, Hs1.
    destruct (LikesFacts.incrementLike_old pageId t1 (n + 1) Hs1)
      as (t2 & H2 & Hs2).
    rewrite (LikesFacts.binary64_next (n + 1)) in H2, Hs2 by lia.
    exists (mkStore t1 []), (mkStore t2 []).
    replace (n + 2) with (n + 1 + 1) by lia.
    split; [exact H1|]. split; [exact H2|exact Hs2].
Qed.

Lemma overlapping_likes_count_once_witness :
  (exists after,
     overlapping "posts/hello/" (mkStore [mkRow "posts/hello/" 2] [])
     = (Some 3, Some 3, after)
     /\ stored "posts/hello/" after = Some 3)
  /\ (exists s1 s2,
        incrementLike "posts/hello/" (mkStore [mkRow "posts/hello/" 2] [])
        = (Some 3, s1)
        /\ incrementLike "posts/hello/" s1 = (Some 4, s2)
        /\ stored "posts/hello/" s2 = Some 4).
Proof.
  apply (overlapping_likes_count_once "posts/hello/" [mkRow "posts/hello/" 2] 2).
  - reflexivity.
  - vm_compute. split; reflexivity.
Defined.

End LikeStepFacts.

(** ** The slug of a post *)

Module SlugFacts.
Import Text Slugs PostApi.











End SlugFacts.

(** ** The note function: what it reads of the body *)

Module NoteFacts.
Import Http GitHub Text Requests.

Lemma trim_empty : JS.trim EmptyString = EmptyString.
Proof. reflexivity. Qed.

Lemma blankText_text (s : string) :
  JS.trim s <> EmptyString -> NoteApi.blankText (JS.VStr s) = Some false.
Proof.
  intros Hs. unfold NoteApi.blankText. cbn [JS.truthy].
  destruct (String.eqb s EmptyString) eqn:Hempty.
  - apply String.eqb_eq in Hempty. subst s. contradiction Hs. reflexivity.
  - cbn [negb]. apply String.eqb_neq in Hs. now rewrite Hs.
Qed.

Lemma blankText_textual (v : JS.value) :
  textual v = true -> NoteApi.blankText v <> None.
Proof.
  destruct v; intros H; try discriminate H.
  - discriminate.
  - unfold NoteApi.blankText. destruct (negb (JS.truthy (JS.VStr s))); discriminate.
Qed.

Lemma trimAll_strings (items : list JS.value) :
  forallb (fun item => match item with JS.VStr _ => true | _ => false end) items
  = true ->
  NoteApi.trimAll items <> None.
Proof.
  induction items as [|item rest IH]; [discriminate|].
  cbn [forallb]. intros H. apply andb_true_iff in H as [Hitem Hrest].
  destruct item; try discriminate. cbn [NoteApi.trimAll].
  destruct (NoteApi.trimAll rest); [discriminate|]. now apply IH.
Qed.

Section WithWorld.
Context {World : Type}.
Variable fetch : Call -> World -> FetchResult * World.
Variable Date_now : World -> Z.
Variable rt : NoteApi.Runtime.

Local Abbreviation handler := (NoteApi.handler fetch Date_now rt).

(** X25.  The title sent with a note is checked and then dropped: two
    requests that differ only in their (non-blank) title are answered
    alike and lead to the same exchanges with GitHub, the same file
    content included. *)
Theorem note_title_not_used :
  forall (env : Env) (req : Request) (fields : gmap string JS.value)
         (title title' : string) (w : World),
    JS.trim title <> EmptyString ->
    JS.trim title' <> EmptyString ->
    handler env (withBody req (<["title" := JS.VStr title]> fields)) w
    = handler env (withBody req (<["title" := JS.VStr title']> fields)) w.
Proof.
  intros env req fields title title' w Htitle Htitle'.
  unfold NoteApi.handler, withBody. cbn [method accessKeyHeader body].
  unfold field. rewrite !lookup_insert_eq.
  rewrite !(lookup_insert_ne _ "title") by discriminate.
  rewrite (blankText_text _ Htitle), (blankText_text _ Htitle').
  reflexivity.
Qed.

(** X26.  The note function answers every request whose body is an object
    with a title and a content that are strings (or missing) and with tags
    that are strings: the TypeError that escapes the handler needs a
    missing body or a value of another type. *)
Theorem typed_note_answered :
  forall (env : Env) (req : Request) (fields : gmap string JS.value) (w : World),
    body req = Some fields ->
    textual (field fields "title") = true ->
    textual (field fields "content") = true ->
    tagsLike (field fields "tags") = true ->
    exists r, fst (fst (handler env req w)) = Responded r.
Proof.
  intros env req fields w Hbody Htitle Hcontent Htags.
  destruct (HandlerFacts.note_shape fetch Date_now rt env req w)
    as [(out & Hout & _) | (tk & rp & path & ct & msg & result & w' & trace
                            & reply & _ & Hh & Hreply)].
  2:{ rewrite Hh. cbn [fst]. destruct result as [doc|error].
      - destruct Hreply as (m & u & f & c & ->). eauto.
      - rewrite Hreply. eauto. }
  rewrite Hout. cbn [fst]. destruct out as [r|e]; [eauto|]. exfalso.
  revert Hout. unfold NoteApi.handler.
  destruct (String.eqb (method req) "OPTIONS"); [discriminate|].
  destruct (negb (String.eqb (method req) "POST")); [discriminate|].
  destruct (negb (present (GITHUB_TOKEN env)) || negb (present (GITHUB_REPO env))
            || negb (present (WRITE_ACCESS_KEY env))); [discriminate|].
  destruct (negb (present (accessKeyHeader req))
            || negb (bool_decide (accessKeyHeader req = WRITE_ACCESS_KEY env)));
    [discriminate|].
  rewrite Hbody.
  pose proof (blankText_textual _ Htitle) as Ht.
  destruct (NoteApi.blankText (field fields "title")) as [[|]|];
    [discriminate| |contradiction].
  pose proof (blankText_textual _ Hcontent) as Hc.
  destruct (NoteApi.blankText (field fields "content")) as [[|]|];
    [discriminate| |contradiction].
  destruct (field fields "tags") as [| | | | |[|first others]|];
    try discriminate.
  pose proof (trimAll_strings _ Htags) as Htrim.
  destruct (NoteApi.trimAll (first :: others)) as [trimmed|]; [|contradiction].
  destruct (firstn 10 _) as [|tag tags]; [discriminate|].
  match goal with
  | |- context [NoteApi.commitToGitHub _ _ _ ?a ?b ?c ?d ?e w] =>
      destruct (NoteApi.commitToGitHub fetch Date_now rt a b c d e w)
        as [[[doc|error] w1] trace1]; discriminate
  end.
Qed.

End WithWorld.

Lemma note_title_not_used_witness :
  NoteApi.handler (Samples.refusing 422) Samples.noon Samples.frozenNote
    Samples.production
    (withBody Samples.complete
       (<["title" := JS.VStr "One"]> (default ∅ (body Samples.complete)))) tt
  = NoteApi.handler (Samples.refusing 422) Samples.noon Samples.frozenNote
      Samples.production
      (withBody Samples.complete
         (<["title" := JS.VStr "Another"]> (default ∅ (body Samples.complete)))) tt.
Proof.
  apply (note_title_not_used (Samples.refusing 422) Samples.noon
           Samples.frozenNote Samples.production Samples.complete
           (default ∅ (body Samples.complete)) "One" "Another" tt).
  - vm_compute. discriminate.
  - vm_compute. discriminate.
Defined.

Lemma typed_note_answered_witness :
  exists r,
    fst (fst (NoteApi.handler (Samples.refusing 422) Samples.noon
                Samples.frozenNote Samples.production Samples.complete tt))
    = Responded r.
Proof.
  apply (typed_note_answered (Samples.refusing 422) Samples.noon
           Samples.frozenNote Samples.production Samples.complete
           (default ∅ (body Samples.complete)) tt).
  - reflexivity.
  - vm_compute. reflexivity.
  - vm_compute. reflexivity.
  - vm_compute. reflexivity.
Defined.

End NoteFacts.

(** ** Paths: renaming, and what goes into the URL *)

Module PathFacts.
Import Http GitHub Text Calls.

Lemma splitOn_nonempty (c : ascii) (s : string) : splitOn c s <> [].
Proof.
  destruct s as [|d rest]; cbn [splitOn]; [discriminate|].
  destruct (Ascii.eqb d c); [discriminate|].
  destruct (splitOn c rest); discriminate.
Qed.

Lemma splitOn_prefix (c : ascii) (a rest : string) :
  free c a = true ->
  splitOn c (a +++ String c rest) = a :: splitOn c rest.
Proof.
  unfold free. induction a as [|d a IH]; intros Hfree.
  - change (EmptyString +++ String c rest) with (String c rest).
    cbn [splitOn]. now rewrite Ascii.eqb_refl.
  - cbn [list_ascii_of_string forallb] in Hfree.
    apply andb_true_iff in Hfree as [Hd Ha].
    rewrite TextFacts.append_cons. cbn [splitOn].
    apply negb_true_iff in Hd. rewrite Hd, (IH Ha). reflexivity.
Qed.

Lemma joinWith_cons (sep p : string) (rest : list string) :
  rest <> [] -> joinWith sep (p :: rest) = p +++ sep +++ joinWith sep rest.
Proof. destruct rest; [contradiction|reflexivity]. Qed.

Lemma joinWith_head (sep : string) (d : ascii) (first : string)
    (more : list string) :
  joinWith sep (String d first :: more) = String d (joinWith sep (first :: more)).
Proof. destruct more; reflexivity. Qed.

Lemma join_split (c : ascii) (s : string) :
  joinWith (String c EmptyString) (splitOn c s) = s.
Proof.
  induction s as [|d rest IH]; [reflexivity|].
  cbn [splitOn]. destruct (Ascii.eqb d c) eqn:Hd.
  - apply Ascii.eqb_eq in Hd. subst d.
    rewrite joinWith_cons by apply splitOn_nonempty. rewrite IH. reflexivity.
  - destruct (splitOn c rest) as [|first more] eqn:Hsplit;
      [now apply splitOn_nonempty in Hsplit|].
    rewrite joinWith_head, IH. reflexivity.
Qed.

Lemma lastIndexOf_free (c : ascii) (s : string) :
  free c s = true -> lastIndexOf c s = None.
Proof.
  unfold free. induction s as [|d rest IH]; [reflexivity|].
  cbn [list_ascii_of_string forallb lastIndexOf]. intros H.
  apply andb_true_iff in H as [Hd Hrest]. rewrite (IH Hrest).
  apply negb_true_iff in Hd. now rewrite Hd.
Qed.

(** X27.  The two functions rename a taken path differently: the note
    function puts the time stamp before the first dot of the path, the
    post function before the last one.  For a path with one dot, as the
    Markdown paths the handlers build, both give the name, a dash, the
    stamp and the extension. *)
Theorem renamed_first_and_last_dot :
  forall (name rest : string) (now : Z),
    free "." name = true ->
    NoteApi.renamed (name +++ "." +++ rest) now
    = name +++ "-" +++ JS.stamp6 now +++ "." +++ rest
    /\ (free "." rest = true ->
        PostApi.renamed (name +++ "." +++ rest) now
        = name +++ "-" +++ JS.stamp6 now +++ "." +++ rest)
    /\ (forall ext,
          free "." ext = true ->
          PostApi.renamed (name +++ "." +++ rest +++ "." +++ ext) now
          = name +++ "." +++ rest +++ "-" +++ JS.stamp6 now +++ "." +++ ext
          /\ NoteApi.renamed (name +++ "." +++ rest +++ "." +++ ext) now
             = name +++ "-" +++ JS.stamp6 now +++ "." +++ rest +++ "." +++ ext).
Proof.
  intros name rest now Hname.
  assert (forall tail,
            NoteApi.renamed (name +++ "." +++ tail) now
            = name +++ "-" +++ JS.stamp6 now +++ "." +++ tail) as Hnote.
  { intros tail. unfold NoteApi.renamed.
    change ("." +++ tail) with (String "." tail).
    rewrite (splitOn_prefix "." name tail Hname).
    rewrite joinWith_cons by apply splitOn_nonempty.
    change (String "." EmptyString) with ".".
    rewrite (join_split "." tail), !TextFacts.append_assoc. reflexivity. }
  assert (forall stem ext,
            free "." ext = true ->
            PostApi.renamed (stem +++ "." +++ ext) now
            = stem +++ "-" +++ JS.stamp6 now +++ "." +++ ext) as Hpost.
  { intros stem ext Hext. unfold PostApi.renamed.
    assert (lastIndexOf "." ("." +++ ext) = Some 0%nat) as Hdot.
    { change ("." +++ ext) with (String "." ext). cbn [lastIndexOf].
      now rewrite (lastIndexOf_free "." ext Hext). }
    rewrite (TextFacts.lastIndexOf_app "." stem ("." +++ ext) 0 Hdot), Nat.add_0_r.
    now rewrite TextFacts.sliceTo_app, TextFacts.sliceFrom_app. }
  split; [apply Hnote|]. split; [apply Hpost|].
  intros ext Hext. split; [|apply Hnote].
  assert (name +++ "." +++ rest +++ "." +++ ext
          = (name +++ "." +++ rest) +++ "." +++ ext) as ->
    by now rewrite !TextFacts.append_assoc.
  rewrite (Hpost (name +++ "." +++ rest) ext Hext).
  now rewrite !TextFacts.append_assoc.
Qed.

Lemma renamed_first_and_last_dot_witness :
  NoteApi.renamed "_notes/note-2024-05-01-1030.md" 1714530600123
  = "_notes/note-2024-05-01-1030-600123.md".
Proof.
  refine (proj1 (renamed_first_and_last_dot "_notes/note-2024-05-01-1030" "md"
                   1714530600123 _)).
  reflexivity.
Defined.



Section WithWorld.
Context {World : Type}.
Variable fetch : Call -> World -> FetchResult * World.
Variable Date_now : World -> Z.
Variable rt : PostApi.Runtime.

Local Abbreviation handler := (PostApi.handler fetch Date_now rt).



End WithWorld.


End PathFacts.

(** ** Events tracked before the analytics script has loaded *)

Module UmamiFacts.
Import Umami.

Lemma trackAll_queueing (calls : list Args) :
  forall q, trackAll calls (Queueing q) = Queueing (q ++ calls).
Proof.
  unfold trackAll. induction calls as [|args rest IH]; intros q.
  - now rewrite app_nil_r.
  - cbn [fold_left trackUmami ensureUmamiQueue fst]. rewrite IH, <- app_assoc.
    reflexivity.
Qed.

(** X29.  Events tracked before the analytics script has loaded are
    queued, in order and without loss: starting from an undefined
    [window.umami], any number of calls of [trackUmami] (at least one)
    leaves the queueing function with exactly these calls in its [q].  A
    single call either adds its arguments at the end of what the queue or
    function had received, or is lost and leaves that untouched; it is
    lost exactly when [window.umami] cannot take a [track] function
    ([null], a primitive, a closed object), is an object without a [track]
    function of its own, or is (or has) a function that throws, and a
    warning is logged in the first and the last of these cases only. *)
Theorem tracked_before_load_queued :
  forall (first : Args) (more : list Args),
    trackAll (first :: more) Undefined = Queueing (first :: more)
    /\ forall (args : Args) (w : Window),
         snd (trackUmami args w) = warning w
         /\ kept (fst (trackUmami args w))
            = if losing w then kept w else kept w ++ [args].
Proof.
  intros first more. split.
  - unfold trackAll. cbn [fold_left trackUmami ensureUmamiQueue fst app].
    exact (trackAll_queueing more [first]).
  - intros args w.
    destruct w as [|q|received [|]|received [|]|installed|]; split; reflexivity.
Qed.

End UmamiFacts.
